(** * tmsiti-fastapi: language negotiation, localized fields, gates and pagination

    A shallow embedding of the logic-bearing parts of the backend:
    - [app/middlewares/language.py]: [LanguageMiddleware], the field resolver
      and [LocalizationHelper];
    - [app/services/utils.py]: [get_localized_content] and
      [validate_pagination_params];
    - [app/api/v1/auth.py] and [app/services/auth_service.py]: the gate
      dependencies, [login], [refresh_token] and [AuthService].

    Conventions.  A Python [str] is a [string] whose characters are the code
    points U+0000..U+00FF (exactly what a header value decoded as Latin-1
    holds).  A [dict] with string keys is a [gmap string _]; a JSON document
    keeps its objects as association lists.  A function that can raise returns
    a [result]; a handler that talks to the database session is a function of
    the users table returning its outcome and the table it leaves behind. *)

From Stdlib Require Import ZArith String Ascii List Bool Lia SpecFloat.
From stdpp Require Import gmap strings list.

Local Open Scope string_scope.
Local Open Scope Z_scope.
Local Set Warnings "-register-all".

(** ** Exceptions and fallible computations *)

Inductive exn :=
| HTTPException (status_code : Z) (detail : string)
| ValueError
| TypeError
| IndexError
| KeyError
| AttributeError
| OverflowError
| FileNotFoundError
| JSONDecodeError
| OSError.

Inductive result (A : Type) :=
| Ok (a : A)
| Raise (e : exn).
Arguments Ok {A} a.
Arguments Raise {A} e.

Definition HTTP_400_BAD_REQUEST : Z := 400.
Definition HTTP_401_UNAUTHORIZED : Z := 401.
Definition HTTP_403_FORBIDDEN : Z := 403.

(** The two authorization outcomes of the gate. *)
Definition Unauthorized {A} (r : result A) : Prop :=
  exists detail, r = Raise (HTTPException HTTP_401_UNAUTHORIZED detail).
Definition Forbidden {A} (r : result A) : Prop :=
  exists detail, r = Raise (HTTPException HTTP_403_FORBIDDEN detail).

(** JSON documents, as [json.load] and a token's claims hold them. *)
Inductive json :=
| JNull
| JBool (b : bool)
| JInt (z : Z)
| JFloat (f : spec_float)
| JStr (s : string)
| JArr (items : list json)
| JObj (fields : list (string * json)).

(** ** Python's [str] methods used by the source *)

Module Py.

(** [str.isspace] on one character: U+0009..U+000D, U+001C..U+0020, U+0085
    and U+00A0 are the white-space code points below U+0100. *)
Definition is_space (c : ascii) : bool :=
  let n := Z.of_nat (nat_of_ascii c) in
  ((9 <=? n) && (n <=? 13)) || ((28 <=? n) && (n <=? 32))
  || (n =? 133) || (n =? 160).

(** [str.lower] on one character: A..Z, and U+00C0..U+00DE except U+00D7. *)
Definition lower_char (c : ascii) : ascii :=
  let n := Z.of_nat (nat_of_ascii c) in
  if ((65 <=? n) && (n <=? 90))
     || ((192 <=? n) && (n <=? 222) && negb (n =? 215))
  then ascii_of_nat (Z.to_nat (n + 32)) else c.

Fixpoint lower (s : string) : string :=
  match s with
  | EmptyString => EmptyString
  | String c s' => String (lower_char c) (lower s')
  end.

Fixpoint lstrip (s : string) : string :=
  match s with
  | EmptyString => EmptyString
  | String c s' => if is_space c then lstrip s' else s
  end.

(** Drops trailing white space: a character is kept when it is not white
    space or when something is kept after it. *)
Fixpoint rstrip (s : string) : string :=
  match s with
  | EmptyString => EmptyString
  | String c s' =>
      match rstrip s' with
      | EmptyString => if is_space c then EmptyString else String c EmptyString
      | r => String c r
      end
  end.

(** [s.strip()] *)
Definition strip (s : string) : string := rstrip (lstrip s).

(** White space that [float] and [int] accept around a literal: U+0009..U+000D
    and U+0020, which they skip, and U+0085 and U+00A0, which they first turn
    into a space.  U+001C..U+001F are white space for [str.strip] only. *)
Definition is_number_space (c : ascii) : bool :=
  let n := Z.of_nat (nat_of_ascii c) in
  ((9 <=? n) && (n <=? 13)) || (n =? 32) || (n =? 133) || (n =? 160).

Fixpoint number_lstrip (s : string) : string :=
  match s with
  | EmptyString => EmptyString
  | String c s' => if is_number_space c then number_lstrip s' else s
  end.

Fixpoint number_rstrip (s : string) : string :=
  match s with
  | EmptyString => EmptyString
  | String c s' =>
      match number_rstrip s' with
      | EmptyString => if is_number_space c then EmptyString else String c EmptyString
      | r => String c r
      end
  end.

Definition number_strip (s : string) : string := number_rstrip (number_lstrip s).

(** [c in s] for a one-character [c] *)
Fixpoint contains (c : ascii) (s : string) : bool :=
  match s with
  | EmptyString => false
  | String d s' => Ascii.eqb d c || contains c s'
  end.

(** [s.split(sep)] for a one-character separator: never the empty list. *)
Fixpoint split (sep : ascii) (s : string) : list string :=
  match s with
  | EmptyString => [EmptyString]
  | String c s' =>
      if Ascii.eqb c sep then EmptyString :: split sep s'
      else match split sep s' with
           | [] => [String c EmptyString]
           | w :: ws => String c w :: ws
           end
  end.

(** [s.split(sep, 1)]: at most one cut, at the first separator. *)
Fixpoint split1 (sep : ascii) (s : string) : list string :=
  match s with
  | EmptyString => [EmptyString]
  | String c s' =>
      if Ascii.eqb c sep then [EmptyString; s']
      else match split1 sep s' with
           | [] => [String c EmptyString]
           | w :: ws => String c w :: ws
           end
  end.

(** [x in xs] for a list of strings *)
Definition str_in (x : string) (xs : list string) : bool :=
  bool_decide (x ∈ xs).

(** Truth value of a string: [if s:] *)
Definition truthy (s : string) : bool :=
  match s with EmptyString => false | _ => true end.

(** *** [float(s)]

    Floats are IEEE 754 binary64 values, [spec_float] at precision 53.  The
    parser follows CPython: the white space of numbers is dropped at both ends, an
    underscore is accepted between two digits only, then either a signed
    [inf], [infinity] or [nan] in any letter case, or a signed decimal
    literal with an optional fraction and an optional exponent, rounded to
    the nearest float, ties to even. *)

Definition float64 := spec_float.
Definition prec64 : Z := 53.
Definition emax64 : Z := 1024.

Definition is_digit (c : ascii) : bool :=
  let n := Z.of_nat (nat_of_ascii c) in (48 <=? n) && (n <=? 57).

Definition digit_val (c : ascii) : Z := Z.of_nat (nat_of_ascii c) - 48.

Fixpoint drop_underscores (prev : ascii) (s : string) : option string :=
  match s with
  | EmptyString => if Ascii.eqb prev "_" then None else Some EmptyString
  | String c s' =>
      if Ascii.eqb c "_" then
        if is_digit prev then drop_underscores c s' else None
      else if Ascii.eqb prev "_" && negb (is_digit c) then None
      else option_map (String c) (drop_underscores c s')
  end.

(** Reads a run of digits: the number read so far, how many digits were
    read, and what follows them. *)
Fixpoint digits (s : string) (acc : Z) (count : Z) : Z * Z * string :=
  match s with
  | String c s' =>
      if is_digit c then digits s' (10 * acc + digit_val c) (count + 1)
      else (acc, count, s)
  | EmptyString => (acc, count, s)
  end.

Definition sign (s : string) : bool * string :=
  match s with
  | String "-" s' => (true, s')
  | String "+" s' => (false, s')
  | _ => (false, s)
  end.

(** The float nearest to [m * 10 ^ e], [m >= 0], with the given sign. *)
Definition float_of_decimal (neg : bool) (m e : Z) : float64 :=
  match m with
  | Zpos pm =>
      match e with
      | Zneg pe =>
          SFdiv prec64 emax64 (S754_finite neg pm 0)
            (S754_finite false (Pos.pow 10 pe) 0)
      | _ => binary_normalize prec64 emax64
               (if neg then - (m * 10 ^ e) else m * 10 ^ e) 0 neg
      end
  | _ => S754_zero neg
  end.

Definition exponent (s : string) : option Z :=
  match s with
  | EmptyString => Some 0
  | String c s' =>
      if Ascii.eqb c "e" || Ascii.eqb c "E" then
        let '(neg, s'') := sign s' in
        match digits s'' 0 0 with
        | (e, count, EmptyString) =>
            if 0 <? count then Some (if neg then - e else e) else None
        | _ => None
        end
      else None
  end.

Definition decimal (neg : bool) (s : string) : option float64 :=
  let '(int_part, n1, s1) := digits s 0 0 in
  let '(m, n2, s2) :=
    match s1 with
    | String "." s1' => digits s1' int_part 0
    | _ => (int_part, 0, s1)
    end in
  if 0 <? n1 + n2 then
    match exponent s2 with
    | Some e => Some (float_of_decimal neg m (e - n2))
    | None => None
    end
  else None.

(** [float(s)] for a string [s]: [None] stands for the [ValueError], the
    only exception it raises on a string. *)
Definition float (s : string) : option float64 :=
  match drop_underscores "000" (number_strip s) with
  | None => None
  | Some t =>
      let '(neg, body) := sign t in
      let name := lower body in
      if String.eqb name "inf" || String.eqb name "infinity"
      then Some (S754_infinity neg)
      else if String.eqb name "nan" then Some S754_nan
      else decimal neg body
  end.

(** The literal [1.0] *)
Definition one : float64 := S754_finite false 4503599627370496 (-52).

Definition is_nan (f : float64) : bool :=
  match f with S754_nan => true | _ => false end.

(** *** [list.sort(key=..., reverse=True)]

    CPython reverses the list, sorts it in ascending order with a stable
    merge sort that compares keys with [<] only, and reverses the result.
    The ascending sort starts by scanning for a run: when no element is
    smaller than its predecessor the whole list is that run and nothing
    moves.  Otherwise, when [<] is a strict weak order on the keys, the
    result is the one stable ordering, which insertion from the left
    computes.  When some key is incomparable (a NaN) and some element is
    smaller than its predecessor, CPython's order depends on its merge
    pattern: there the model only keeps that the result is a permutation. *)

Section Sort.
Context {A : Type} (lt : A -> A -> bool).

(** [x] goes after every element that is not greater than it. *)
Fixpoint insert_stable (x : A) (l : list A) : list A :=
  match l with
  | [] => [x]
  | y :: l' => if lt x y then x :: l else y :: insert_stable x l'
  end.

Definition stable_sort (l : list A) : list A :=
  fold_left (fun acc x => insert_stable x acc) l [].

Fixpoint is_run (l : list A) : bool :=
  match l with
  | x :: ((y :: _) as l') => negb (lt y x) && is_run l'
  | _ => true
  end.

Definition sort (l : list A) : list A :=
  if is_run l then l else stable_sort l.

Definition sort_reverse (l : list A) : list A := rev (sort (rev l)).
End Sort.

End Py.

(** *** Values, attributes and dictionaries *)

(** Truth value of a Python value: [if value:] *)
Definition truthy_value (v : json) : bool :=
  match v with
  | JNull => false
  | JBool b => b
  | JInt z => negb (z =? 0)
  | JFloat (S754_zero _) => false
  | JFloat _ => true
  | JStr s => Py.truthy s
  | JArr items => match items with [] => false | _ => true end
  | JObj fields => match fields with [] => false | _ => true end
  end.

(** [getattr(obj, name, None)]: an object is the map of its attributes. *)
Definition getattr (obj : gmap string json) (name : string) : json :=
  default JNull (obj !! name).

(** [d.get(key)] on the dictionary [json.load] builds from an object: the
    last binding of a repeated key is the one that stays. *)
Definition dict_get (fields : list (string * json)) (key : string) : option json :=
  fold_left (fun acc kv => if String.eqb (fst kv) key then Some (snd kv) else acc)
            fields None.

(** [v == s] for the result [v] of a [dict.get] and a string [s] *)
Definition is_str (v : option json) (s : string) : bool :=
  match v with
  | Some (JStr t) => String.eqb t s
  | _ => false
  end.

(** [try: body  except Exception: handler]: every [exn] is an [Exception]. *)
Definition try_except_Exception {A} (body handler : result A) : result A :=
  match body with
  | Ok a => Ok a
  | Raise _ => handler
  end.

(** *** [int(v)] and [str.format]

    Concrete readings of the two builtins that the handlers receive as
    parameters; the statements that hold for every reading quantify over
    them, and these are the ones used on concrete inputs. *)

Module Builtins.

(** [int(v)]: an integer is itself, a boolean is 0 or 1, a float is
    truncated, a string is a signed decimal literal between the white space
    of numbers, with single underscores between digits. *)
Definition int (v : json) : result Z :=
  match v with
  | JInt z => Ok z
  | JBool b => Ok (if b then 1 else 0)
  | JFloat S754_nan => Raise ValueError
  | JFloat (S754_infinity _) => Raise OverflowError
  | JFloat (S754_zero _) => Ok 0
  | JFloat (S754_finite neg m e) =>
      let a := match e with
               | Zneg pe => Z.shiftr (Zpos m) (Zpos pe)
               | _ => Z.shiftl (Zpos m) e
               end in
      Ok (if neg then - a else a)
  | JStr s =>
      match Py.drop_underscores "000" (Py.number_strip s) with
      | None => Raise ValueError
      | Some t =>
          let '(neg, body) := Py.sign t in
          match Py.digits body 0 0 with
          | (n, count, EmptyString) =>
              if 0 <? count then Ok (if neg then - n else n)
              else Raise ValueError
          | _ => Raise ValueError
          end
      end
  | _ => Raise TypeError
  end.

(** Where the scanner of a template stands. *)
Inductive scan :=
| Text
| Opened
| Closed
| Field (name : string).

Definition all_digits (s : string) : bool :=
  let '(_, _, rest) := Py.digits s 0 0 in
  match rest with EmptyString => true | _ => false end.

(** [str.format] with keyword arguments, on the templates made of literal text,
    doubled braces and fields [{name}] holding a string.  A field with an
    empty or numeric name asks for a positional argument and there is none;
    a name that is not a keyword is a [KeyError]; a brace left alone is a
    [ValueError].  Conversions, format specifications, attribute and index
    access, and values that are not strings are outside this fragment and
    answered with [ValueError] as well. *)
Fixpoint format_from (st : scan) (template : string) (kwargs : gmap string json)
  : result string :=
  let emit (c : ascii) (rest : string) :=
    match format_from Text rest kwargs with
    | Ok out => Ok (String c out)
    | Raise e => Raise e
    end in
  match template with
  | EmptyString =>
      match st with
      | Text => Ok EmptyString
      | _ => Raise ValueError
      end
  | String c rest =>
      match st with
      | Text =>
          if Ascii.eqb c "{" then format_from Opened rest kwargs
          else if Ascii.eqb c "}" then format_from Closed rest kwargs
          else emit c rest
      | Opened =>
          if Ascii.eqb c "{" then emit c rest
          else if Ascii.eqb c "}" then Raise IndexError
          else if Py.contains c "[.!:" then Raise ValueError
          else format_from (Field (String c EmptyString)) rest kwargs
      | Closed =>
          if Ascii.eqb c "}" then emit c rest else Raise ValueError
      | Field name =>
          if Ascii.eqb c "}" then
            if all_digits name then Raise IndexError
            else match kwargs !! name with
                 | None => Raise KeyError
                 | Some (JStr v) =>
                     match format_from Text rest kwargs with
                     | Ok out => Ok (v ++ out)
                     | Raise e => Raise e
                     end
                 | Some _ => Raise ValueError
                 end
          else if Py.contains c "{[.!:" then Raise ValueError
          else format_from (Field (name ++ String c EmptyString)) rest kwargs
      end
  end.

Definition format (template : string) (kwargs : gmap string json) : result string :=
  format_from Text template kwargs.

End Builtins.

(** ** [app/core/config.py] *)

Module Config.

Record Settings := {
  access_token_expire_minutes : Z;
  refresh_token_expire_days : Z;
  default_page_size : Z;
  max_page_size : Z;
  supported_languages : list string;
  default_language : string
}.

Definition settings : Settings := {|
  access_token_expire_minutes := 30;
  refresh_token_expire_days := 7;
  default_page_size := 20;
  max_page_size := 100;
  supported_languages := ["uz"; "ru"; "en"];
  default_language := "uz"
|}.

End Config.

(** ** [app/middlewares/language.py] *)

Module Language.
Import Config.

(** What [_detect_language] reads of a request:
    [request.query_params.get('lang')] and the [Accept-Language] header. *)
Record Request := {
  query_lang : option string;
  accept_language_header : option string
}.

Section WithBuiltins.
(** [float] on a string ([None]: [ValueError]) and [str.format] called with
    keyword arguments only. *)
Variable float : string -> option Py.float64.
Variable format : string -> gmap string json -> result string.
(** [open(path)] followed by [json.load]. *)
Variable load_json : string -> result json.
Variable cfg : Settings.

(** [os.path.join(a, b)] for a directory [a] without a trailing slash *)
Definition path_join (a b : string) : string :=
  match b with
  | String "/" _ => b
  | _ => a ++ "/" ++ b
  end.

Definition localization_dir : string := "app/localization".

(** One turn of the loop of [_load_localization_files]: only the two
    exceptions named by the [except] clauses are absorbed. *)
Definition load_one (cache : gmap string json) (language : string)
  : result (gmap string json) :=
  let file_path := path_join localization_dir (language ++ ".json") in
  match load_json file_path with
  | Ok doc => Ok (<[language := doc]> cache)
  | Raise FileNotFoundError => Ok (<[language := JObj []]> cache)
  | Raise JSONDecodeError => Ok (<[language := JObj []]> cache)
  | Raise e => Raise e
  end.

Fixpoint load_all (cache : gmap string json) (languages : list string)
  : result (gmap string json) :=
  match languages with
  | [] => Ok cache
  | language :: rest =>
      match load_one cache language with
      | Ok cache' => load_all cache' rest
      | Raise e => Raise e
      end
  end.

(** The cache [__init__] leaves in [self.localization_cache]. *)
Definition _load_localization_files : result (gmap string json) :=
  load_all ∅ (supported_languages cfg).

(** [float(quality.split('=')[1])] guarded by
    [except (IndexError, ValueError)] *)
Definition quality_of (quality : string) : Py.float64 :=
  match Py.split "=" quality with
  | _ :: q :: _ =>
      match float q with
      | Some v => v
      | None => Py.one
      end
  | _ => Py.one
  end.

(** [if '-' in lang: lang = lang.split('-')[0]] *)
Definition primary_subtag (lang : string) : string :=
  if Py.contains "-" lang then hd lang (Py.split "-" lang) else lang.

(** The body of the loop up to the membership test: the language and the
    weight read from one [lang_tag]. *)
Definition parse_tag (lang_tag : string) : string * Py.float64 :=
  let '(lang, quality_value) :=
    if Py.contains ";" lang_tag then
      match Py.split1 ";" lang_tag with
      | [lang; quality] => (lang, quality_of quality)
      | _ => (lang_tag, Py.one)
      end
    else (lang_tag, Py.one) in
  let lang := Py.lower (Py.strip lang) in
  let lang := primary_subtag lang in
  (lang, quality_value).

(** The list [languages] once the loop over the tags is over. *)
Definition collect (tags : list string) : list (string * Py.float64) :=
  fold_left
    (fun languages lang_tag =>
       let '(lang, quality_value) := parse_tag lang_tag in
       if Py.str_in lang (supported_languages cfg)
       then (languages ++ [(lang, quality_value)])%list
       else languages)
    tags [].

(** [x[1] < y[1]] on the sort keys *)
Definition weight_lt (x y : string * Py.float64) : bool :=
  SFltb (snd x) (snd y).

(** The part of [_detect_language] after the query parameter. *)
Definition detect_from_header (request : Request) : string :=
  let accept_language := default "" (accept_language_header request) in
  let languages := collect (Py.split "," accept_language) in
  let languages := Py.sort_reverse weight_lt languages in
  match languages with
  | entry :: _ => fst entry
  | [] => default_language cfg
  end.

Definition _detect_language (request : Request) : string :=
  match query_lang request with
  | Some lang_param =>
      if Py.truthy lang_param && Py.str_in lang_param (supported_languages cfg)
      then lang_param
      else detect_from_header request
  | None => detect_from_header request
  end.

(** The key has no entry in the table cached for the language. *)
Definition absent (localization_cache : gmap string json)
  (language key : string) : Prop :=
  localization_cache !! language = None
  \/ exists fields, localization_cache !! language = Some (JObj fields)
                    /\ dict_get fields key = None.

(** A call [f(..., **kwargs)] in which [kwargs] names a parameter that the
    call already binds: Python raises [TypeError] before the body runs. *)
Definition binds (parameters : list string) (kwargs : gmap string json) : bool :=
  existsb (fun name => bool_decide (is_Some (kwargs !! name))) parameters.

(** [self._get_localized_text(key, language, **kwargs)]: the parameters
    [self], [key] and [language] are bound by the call, and the [try] starts
    inside the body. *)
Definition _get_localized_text
  (localization_cache : gmap string json)
  (key language : string) (kwargs : gmap string json) : result json :=
  if binds ["self"; "key"; "language"] kwargs then Raise TypeError else
  try_except_Exception
    (let localization := default (JObj []) (localization_cache !! language) in
     match localization with
     | JObj fields =>
         let text := default (JStr key) (dict_get fields key) in
         if bool_decide (kwargs = ∅) then Ok text
         else match text with
              | JStr template =>
                  match format template kwargs with
                  | Ok formatted => Ok (JStr formatted)
                  | Raise e => Raise e
                  end
              | _ => Raise AttributeError
              end
     | _ => Raise AttributeError
     end)
    (Ok (JStr key)).

(** The loop of [get_localized_model_field] over the fallback languages. *)
Fixpoint try_fallbacks (obj : gmap string json) (field_prefix language : string)
  (languages : list string) : json :=
  match languages with
  | [] => JStr ""
  | fallback_lang :: rest =>
      if negb (String.eqb fallback_lang language) then
        let fallback_field := field_prefix ++ "_" ++ fallback_lang in
        let fallback_value := getattr obj fallback_field in
        if truthy_value fallback_value then fallback_value
        else try_fallbacks obj field_prefix language rest
      else try_fallbacks obj field_prefix language rest
  end.

Definition get_localized_model_field
  (obj : gmap string json) (field_prefix language : string) : json :=
  let field_name := field_prefix ++ "_" ++ language in
  let value := getattr obj field_name in
  if truthy_value value then value
  else try_fallbacks obj field_prefix language (supported_languages cfg).

(** [LocalizationHelper.validate_multilingual_data]: [data[lang].strip()]
    exists for a string only. *)
Fixpoint validate_loop (data : gmap string json) (required : list string)
  : result bool :=
  match required with
  | [] => Ok true
  | lang :: rest =>
      match data !! lang with
      | None => Ok false
      | Some (JStr s) =>
          if negb (Py.truthy (Py.strip s)) then Ok false
          else validate_loop data rest
      | Some _ => Raise AttributeError
      end
  end.

(** [if required_languages is None:
        required_languages = settings.supported_languages] *)
Definition required_of (required_languages : option (list string)) : list string :=
  match required_languages with
  | None => supported_languages cfg
  | Some l => l
  end.

Definition validate_multilingual_data
  (data : gmap string json) (required_languages : option (list string))
  : result bool :=
  let required_languages := required_of required_languages in
  validate_loop data required_languages.

End WithBuiltins.
End Language.

(** ** [app/services/utils.py] *)

Module Utils.
Import Config.

(** The loop of [get_localized_content]: [content] is reassigned at every
    language other than the requested one, and the loop breaks on the first
    non-empty value. *)
Fixpoint fallback_loop (obj : gmap string json) (field_prefix language : string)
  (content : json) (fallback_languages : list string) : json :=
  match fallback_languages with
  | [] => content
  | fallback_lang :: rest =>
      if negb (String.eqb fallback_lang language) then
        let fallback_field := field_prefix ++ "_" ++ fallback_lang in
        let content := getattr obj fallback_field in
        if truthy_value content then content
        else fallback_loop obj field_prefix language content rest
      else fallback_loop obj field_prefix language content rest
  end.

Definition get_localized_content
  (obj : gmap string json) (field_prefix language : string) : json :=
  let field_name := field_prefix ++ "_" ++ language in
  let content := getattr obj field_name in
  let content :=
    if negb (truthy_value content) then
      fallback_loop obj field_prefix language content ["uz"; "ru"; "en"]
    else content in
  if truthy_value content then content else JStr "".

Definition validate_pagination_params (cfg : Settings) (skip limit : Z) : Z * Z :=
  let skip := Z.max 0 skip in
  let limit := Z.max 1 (Z.min limit (max_page_size cfg)) in
  (skip, limit).

End Utils.

(** ** [app/db/models/user.py], [app/api/v1/auth.py] and
       [app/services/auth_service.py] *)

Module Auth.

Record User := {
  id : Z;
  username : string;
  email : string;
  full_name : string;
  hashed_password : string;
  phone : option string;
  is_active : bool;
  is_admin : bool;
  is_moderator : bool;
  updated_at : option Z;
  last_login : option Z;
  bio : option string;
  avatar : option string
}.

(** [user.last_login = ...] followed by [db.commit()]: the UPDATE also fires
    the column's [onupdate=func.now()]. *)
Definition touch_login (utcnow db_now : Z) (u : User) : User := {|
  id := id u;
  username := username u;
  email := email u;
  full_name := full_name u;
  hashed_password := hashed_password u;
  phone := phone u;
  is_active := is_active u;
  is_admin := is_admin u;
  is_moderator := is_moderator u;
  updated_at := Some db_now;
  last_login := Some utcnow;
  bio := bio u;
  avatar := avatar u
|}.

(** The users table, in the order the store returns its rows. *)
Abbreviation Table := (list User).

(** What a commit of [last_login] on row [i] leaves: that row with the two
    timestamps set, every other row and every other column as before. *)
Definition stamped (utcnow db_now : Z) (i : nat) (user : User)
  (db db' : Table) : Prop :=
  db' !! i = Some (touch_login utcnow db_now user)
  /\ last_login (touch_login utcnow db_now user) = Some utcnow
  /\ length db' = length db
  /\ forall j, j <> i -> db' !! j = db !! j.

(** A handler: from the table it finds to its outcome and the table it
    leaves. *)
Definition Handler (A : Type) : Type := Table -> result A * Table.

Definition ret {A} (a : A) : Handler A := fun db => (Ok a, db).
Definition raise {A} (e : exn) : Handler A := fun db => (Raise e, db).
Definition lift {A} (r : result A) : Handler A := fun db => (r, db).
Definition bind {A B} (m : Handler A) (k : A -> Handler B) : Handler B :=
  fun db =>
    match m db with
    | (Ok a, db') => k a db'
    | (Raise e, db') => (Raise e, db')
    end.

Notation "'let*' x ':=' m 'in' k" := (bind m (fun x => k))
  (at level 10, x name, m at level 100, k at level 200).

(** [db.query(User).filter(p).first()]: the row and where it sits. *)
Definition query_first (p : User -> bool) : Handler (option (nat * User)) :=
  fun db => (Ok (list_find (fun u => p u = true) db), db).

(** Assigning [last_login] on the row found at [i] and committing. *)
Definition commit_last_login (i : nat) (utcnow db_now : Z) : Handler unit :=
  fun db => (Ok tt, alter (touch_login utcnow db_now) i db).

Definition unauthorized {A} (detail : string) : Handler A :=
  raise (HTTPException HTTP_401_UNAUTHORIZED detail).
Definition forbidden {A} (detail : string) : Handler A :=
  raise (HTTPException HTTP_403_FORBIDDEN detail).

(** The response model [Token] *)
Record TokenPair (Token : Type) := {
  access_token : Token;
  refresh_token_ : Token;
  token_type : string
}.
Arguments access_token {Token}.
Arguments refresh_token_ {Token}.
Arguments token_type {Token}.

Section WithSecurity.
(** [app/core/security.py] is not part of the sources: its functions are
    taken as they are called.  [decode_token] returns the claims or raises;
    [int] is Python's, applied to the subject claim. *)
Variable Token : Type.
Variable decode_token : Token -> result (gmap string json).
Variable verify_password : string -> string -> bool.
Variable create_access_token : Z -> Token.
Variable create_refresh_token : Z -> Token.
Variable int : json -> result Z.

Definition get_user_by_username (username_ : string)
  : Handler (option (nat * User)) :=
  query_first (fun u => String.eqb (username u) username_).

Definition get_current_user (token : Token) : Handler User :=
  let* payload := lift (decode_token token) in
  let user_id := default JNull (payload !! "sub") in
  match user_id with
  | JNull => unauthorized "Could not validate credentials"
  | _ =>
      let* n := lift (int user_id) in
      let* user := query_first (fun u => id u =? n) in
      match user with
      | Some (_, user) =>
          if negb (is_active user)
          then unauthorized "User not found or inactive"
          else ret user
      | None => unauthorized "User not found or inactive"
      end
  end.

Definition get_admin_user (token : Token) : Handler User :=
  let* current_user := get_current_user token in
  if negb (is_admin current_user)
  then forbidden "Not enough permissions. Admin access required."
  else ret current_user.

Definition get_moderator_user (token : Token) : Handler User :=
  let* current_user := get_current_user token in
  if negb (is_admin current_user || is_moderator current_user)
  then forbidden "Not enough permissions. Moderator or Admin access required."
  else ret current_user.

(** [login]: [utcnow] is [datetime.utcnow()], [db_now] the store's clock. *)
Definition login (username_ password : string) (utcnow db_now : Z)
  : Handler (TokenPair Token) :=
  let* user := get_user_by_username username_ in
  match user with
  | None => unauthorized "Incorrect username or password"
  | Some (i, user) =>
      if negb (verify_password password (hashed_password user))
      then unauthorized "Incorrect username or password"
      else if negb (is_active user)
      then unauthorized "User account is inactive"
      else
        let* _ := commit_last_login i utcnow db_now in
        ret {| access_token := create_access_token (id user);
               refresh_token_ := create_refresh_token (id user);
               token_type := "bearer" |}
  end.

Definition refresh_token (token : Token) : Handler (TokenPair Token) :=
  let* payload := lift (decode_token token) in
  if negb (is_str (payload !! "type") "refresh")
  then unauthorized "Invalid token type"
  else
    let user_id := default JNull (payload !! "sub") in
    let* n := lift (int user_id) in
    let* user := query_first (fun u => id u =? n) in
    match user with
    | Some (_, user) =>
        if negb (is_active user)
        then unauthorized "User not found or inactive"
        else ret {| access_token := create_access_token (id user);
                    refresh_token_ := create_refresh_token (id user);
                    token_type := "bearer" |}
    | None => unauthorized "User not found or inactive"
    end.

(** A principal reached through a valid token: the token decodes to
    claims whose subject is the id of the row [u]. *)
Definition reaches (token : Token) (db : Table) (u : User) : Prop :=
  exists payload sub n i,
    decode_token token = Ok payload
    /\ payload !! "sub" = Some sub
    /\ sub <> JNull
    /\ int sub = Ok n
    /\ list_find (fun u => (id u =? n) = true) db = Some (i, u).

(** [AuthService.authenticate_user]: the user is looked up by username or
    email, and [None] is returned instead of raising. *)
Definition authenticate_user (username_ password : string) (utcnow db_now : Z)
  : Handler (option User) :=
  let* user := query_first (fun u => String.eqb (username u) username_
                                  || String.eqb (email u) username_) in
  match user with
  | None => ret None
  | Some (i, user) =>
      if negb (verify_password password (hashed_password user)) then ret None
      else if negb (is_active user) then ret None
      else
        let* _ := commit_last_login i utcnow db_now in
        ret (Some (touch_login utcnow db_now user))
  end.

End WithSecurity.

(** [AuthService.verify_user_permissions] *)
Definition verify_user_permissions (user : User) (required_role : string) : bool :=
  if negb (is_active user) then false
  else if String.eqb required_role "admin" then is_admin user
  else if String.eqb required_role "moderator" then is_admin user || is_moderator user
  else if String.eqb required_role "user" then true
  else false.

End Auth.

(** ** The Credential & Token Service *)

Module TokenService.

(** Modelled from the spec: [app/core/security.py] ([decode_token],
    [create_access_token], [create_refresh_token], [verify_password],
    [get_password_hash]) is missing from the sources.  A token is a signed
    structure carrying a subject, a type discriminator, an issue time and an
    expiry; access and refresh tokens differ in the type claim and the time
    to live only, and decoding verifies the signature and the expiry without
    looking at the type.  The signature is kept as the key that produced it:
    it verifies exactly under that key. *)
Record SignedToken := {
  subject : Z;
  type : string;
  issued_at : Z;
  expires_at : Z;
  signed_with : string
}.

Section Service.
Variable secret_key : string.
Variable now : Z.
Variable cfg : Config.Settings.

(** Modelled from the spec: [issueToken(subjectId, type, ttl)]. *)
Definition issueToken (subject_id : Z) (type_ : string) (ttl : Z) : SignedToken := {|
  subject := subject_id;
  type := type_;
  issued_at := now;
  expires_at := now + ttl;
  signed_with := secret_key
|}.

(** Modelled from the spec: [decodeToken(signedToken)]; every failure
    reaches the gate as the Unauthorized outcome. *)
Definition decode_token (t : SignedToken) : result (gmap string json) :=
  if negb (String.eqb (signed_with t) secret_key)
  then Raise (HTTPException HTTP_401_UNAUTHORIZED "Could not validate credentials")
  else if expires_at t <=? now
  then Raise (HTTPException HTTP_401_UNAUTHORIZED "Could not validate credentials")
  else Ok (<["sub" := JInt (subject t)]>
           (<["type" := JStr (type t)]>
            (<["iat" := JInt (issued_at t)]>
             (<["exp" := JInt (expires_at t)]> ∅)))).

(** Modelled from the spec: access tokens live about 30 minutes, refresh
    tokens about 7 days. *)
Definition create_access_token (subject_id : Z) : SignedToken :=
  issueToken subject_id "access" (Config.access_token_expire_minutes cfg * 60).
Definition create_refresh_token (subject_id : Z) : SignedToken :=
  issueToken subject_id "refresh" (Config.refresh_token_expire_days cfg * 86400).
End Service.

(** Modelled from the spec: [hashPassword] and [verifyPassword]; the hash is
    kept symbolic. *)
Definition get_password_hash (plaintext : string) : string := "hash$" ++ plaintext.
Definition verify_password (plaintext hashed : string) : bool :=
  String.eqb (get_password_hash plaintext) hashed.

End TokenService.

(** ** A small deployment used on concrete inputs *)

Module Deployment.

Definition secret_key : string := "your-secret-key-change-in-production".

(** Tokens are issued at [issued] and presented one minute later. *)
Definition issued : Z := 1000.
Definition presented : Z := 1060.

Definition decode_token : TokenService.SignedToken -> result (gmap string json) :=
  TokenService.decode_token secret_key presented.
Definition create_access_token : Z -> TokenService.SignedToken :=
  TokenService.create_access_token secret_key issued Config.settings.
Definition create_refresh_token : Z -> TokenService.SignedToken :=
  TokenService.create_refresh_token secret_key issued Config.settings.

Definition principal (id_ : Z) (name : string) (active admin moderator : bool)
  : Auth.User := {|
  Auth.id := id_;
  Auth.username := name;
  Auth.email := name ++ "@tmsiti.uz";
  Auth.full_name := name;
  Auth.hashed_password := TokenService.get_password_hash (name ++ "-pw");
  Auth.phone := None;
  Auth.is_active := active;
  Auth.is_admin := admin;
  Auth.is_moderator := moderator;
  Auth.updated_at := None;
  Auth.last_login := None;
  Auth.bio := None;
  Auth.avatar := None
|}.

Definition reader : Auth.User := principal 1 "reader" true false false.
Definition editor : Auth.User := principal 2 "editor" true false true.
Definition chief : Auth.User := principal 3 "chief" true true false.
Definition retired : Auth.User := principal 4 "retired" false true true.

Definition users : Auth.Table := [reader; editor; chief; retired].

Definition get_current_user :=
  Auth.get_current_user TokenService.SignedToken decode_token Builtins.int.
Definition get_admin_user :=
  Auth.get_admin_user TokenService.SignedToken decode_token Builtins.int.
Definition get_moderator_user :=
  Auth.get_moderator_user TokenService.SignedToken decode_token Builtins.int.
Definition refresh_token :=
  Auth.refresh_token TokenService.SignedToken decode_token
    create_access_token create_refresh_token Builtins.int.
Definition login :=
  Auth.login TokenService.SignedToken TokenService.verify_password
    create_access_token create_refresh_token.
Definition authenticate_user :=
  Auth.authenticate_user TokenService.verify_password.

(** The cache when only the Uzbek phrase file has entries, and an entity
    whose content exists in English only. *)
Definition phrases : gmap string json :=
  <["uz" := JObj [("welcome", JStr "Xush kelibsiz, {name}!")]]>
    (<["ru" := JObj []]> ∅).

(** A request with an override outside the configured set. *)
Definition browser_header : string := "en-GB;q=0.8, RU;q=0.9, uz ;q=0.9, fr".
Definition browser_request : Language.Request := {|
  Language.query_lang := Some "de";
  Language.accept_language_header := Some browser_header
|}.

Definition english_only : gmap string json :=
  <["content_uz" := JStr ""]>
    (<["content_ru" := JNull]> (<["content_en" := JStr "X"]> ∅)).

End Deployment.

(** ** [app/middlewares/language.py]: the helpers around the negotiator *)

Module Helper.
Import Config.

(** The name of the field of one language: [f"{field_prefix}_{lang}"] *)
Definition field_of (field_prefix lang : string) : string :=
  field_prefix ++ "_" ++ lang.

(** [LocalizationHelper.get_multilingual_dict]: [getattr(obj, field_name, "")]
    for every configured language, a later language overwriting an earlier
    one of the same code. *)
Definition get_multilingual_dict (cfg : Settings)
  (obj : gmap string json) (field_prefix : string) : gmap string json :=
  fold_left
    (fun result lang =>
       let field_name := field_of field_prefix lang in
       let value := default (JStr "") (obj !! field_name) in
       <[lang := value]> result)
    (supported_languages cfg) ∅.

(** One turn of the loop of [set_multilingual_field]:
    [if lang in values and hasattr(obj, field_name)] *)
Definition set_one (field_prefix : string) (values : gmap string json)
  (obj : gmap string json) (lang : string) : gmap string json :=
  let field_name := field_of field_prefix lang in
  match values !! lang, obj !! field_name with
  | Some v, Some _ => <[field_name := v]> obj
  | _, _ => obj
  end.

(** [LocalizationHelper.set_multilingual_field]: the object after the loop. *)
Definition set_multilingual_field (cfg : Settings)
  (obj : gmap string json) (field_prefix : string) (values : gmap string json)
  : gmap string json :=
  fold_left (set_one field_prefix values) (supported_languages cfg) obj.

End Helper.

Module Middleware.
Import Config.

(** [request.state]: the three attributes [dispatch] sets; each is missing
    until it is set. *)
Record State := {
  language : option string;
  localize : option (string -> gmap string json -> result json);
  available_languages : option (list string)
}.

Definition empty_state : State := {|
  language := None;
  localize := None;
  available_languages := None
|}.

(** A response: its status and its headers, keyed by lower-cased name as
    Starlette compares them. *)
Record Response := {
  status_code : Z;
  headers : gmap string string;
  body : string
}.

(** [response.headers[name] = value] *)
Definition set_header (name value : string) (response : Response) : Response := {|
  status_code := status_code response;
  headers := <[Py.lower name := value]> (headers response);
  body := body response
|}.

Section WithBuiltins.
Variable float : string -> option Py.float64.
Variable format : string -> gmap string json -> result string.
Variable cfg : Settings.
(** [self.localization_cache], filled once by [__init__]. *)
Variable localization_cache : gmap string json.

(** The state [dispatch] hands to the rest of the application; the closure
    [localize(key, **kwargs)] binds [key] itself. *)
Definition state_for (request : Language.Request) : State :=
  let detected_language := Language._detect_language float cfg request in
  {| language := Some detected_language;
     localize := Some (fun key kwargs =>
                         if Language.binds ["key"] kwargs then Raise TypeError
                         else Language._get_localized_text format localization_cache
                                key detected_language kwargs);
     available_languages := Some (supported_languages cfg) |}.

(** [LanguageMiddleware.dispatch]: [call_next] runs the rest of the
    application on the request and its state. *)
Definition dispatch (request : Language.Request)
  (call_next : Language.Request -> State -> result Response) : result Response :=
  let detected_language := Language._detect_language float cfg request in
  match call_next request (state_for request) with
  | Ok response => Ok (set_header "Content-Language" detected_language response)
  | Raise e => Raise e
  end.

(** [get_language_from_request] *)
Definition get_language_from_request (state : State) : string :=
  default (default_language cfg) (language state).

(** [localize_text(request, key, **kwargs)] *)
Definition localize_text (state : State) (key : string) (kwargs : gmap string json)
  : result json :=
  if Language.binds ["request"; "key"] kwargs then Raise TypeError else
  match localize state with
  | Some localize_func => localize_func key kwargs
  | None => Ok (JStr key)
  end.

End WithBuiltins.
End Middleware.

(** ** [app/services/utils.py]: texts, paths and uploads *)

Module Text.

(** [len(s)] *)
Definition len (s : string) : Z := Z.of_nat (String.length s).

(** The first [n] characters of [s], and what follows them. *)
Fixpoint take (n : nat) (s : string) : string :=
  match n, s with
  | S n', String c s' => String c (take n' s')
  | _, _ => EmptyString
  end.

Fixpoint drop (n : nat) (s : string) : string :=
  match n, s with
  | S n', String _ s' => drop n' s'
  | _, _ => s
  end.

(** [s[:k]]: a negative [k] counts from the end, and both ends are clamped. *)
Definition slice_to (s : string) (k : Z) : string :=
  if 0 <=? k then take (Z.to_nat k) s else take (Z.to_nat (len s + k)) s.

Definition truncate_text (text : string) (max_length : Z) (suffix : string) : string :=
  if len text <=? max_length then text
  else slice_to text (max_length - len suffix) ++ suffix.

Definition get_file_url (file_path : option string) (request_base_url : string)
  : option string :=
  match file_path with
  | None => None
  | Some file_path =>
      if negb (Py.truthy file_path) then None
      else
        let file_path :=
          match file_path with
          | String "/" rest => rest
          | _ => file_path
          end in
        Some (request_base_url ++ "/" ++ file_path)
  end.

Definition get_default_image_url (request_base_url : string) : string :=
  request_base_url ++ "/static/default/no-image.svg".

End Text.

Module Path.

(** [s.rfind(c)] counted from [i]: the position of the last [c], or -1. *)
Fixpoint rfind_from (c : ascii) (s : string) (i : Z) : Z :=
  match s with
  | EmptyString => -1
  | String d s' =>
      let later := rfind_from c s' (i + 1) in
      if 0 <=? later then later
      else if Ascii.eqb d c then i else -1
  end.

Definition rfind (c : ascii) (s : string) : Z := rfind_from c s 0.

(** The loop of [splitext] over the leading dots of the file name: whether
    a character other than a dot comes before the last dot. *)
Fixpoint has_name (s : string) : bool :=
  match s with
  | EmptyString => false
  | String c s' => if negb (Ascii.eqb c ".") then true else has_name s'
  end.

(** [os.path.splitext] on a POSIX path. *)
Definition splitext (p : string) : string * string :=
  let sepIndex := rfind "/" p in
  let dotIndex := rfind "." p in
  if sepIndex <? dotIndex then
    let filenameIndex := sepIndex + 1 in
    if has_name (Text.take (Z.to_nat (dotIndex - filenameIndex))
                   (Text.drop (Z.to_nat filenameIndex) p))
    then (Text.take (Z.to_nat dotIndex) p, Text.drop (Z.to_nat dotIndex) p)
    else (p, EmptyString)
  else (p, EmptyString).

End Path.

Module Storage.

(** Files and directories by path. *)
Inductive node :=
| File (content : string)
| Dir.

Section WithPermissions.
(** Whether the process may unlink the entry at a path. *)
Variable may_unlink : string -> bool.

(** [os.path.exists] *)
Definition path_exists (path : string) (fs : gmap string node) : bool :=
  bool_decide (is_Some (fs !! path)).

(** [os.remove]: a directory and a protected file are refused. *)
Definition remove (path : string) (fs : gmap string node)
  : result unit * gmap string node :=
  match fs !! path with
  | None => (Raise FileNotFoundError, fs)
  | Some Dir => (Raise OSError, fs)
  | Some (File _) =>
      if may_unlink path then (Ok tt, delete path fs) else (Raise OSError, fs)
  end.

(** [delete_file]: every exception ends in [False]. *)
Definition delete_file (file_path : string) (fs : gmap string node)
  : bool * gmap string node :=
  if path_exists file_path fs then
    match remove file_path fs with
    | (Ok _, fs') => (true, fs')
    | (Raise _, fs') => (false, fs')
    end
  else (false, fs).

End WithPermissions.
End Storage.

Module Upload.

(** The upload fields of [Settings] in [app/core/config.py]. *)
Record UploadSettings := {
  max_file_size : Z;
  allowed_image_extensions : list string;
  allowed_document_extensions : list string
}.

Definition settings : UploadSettings := {|
  max_file_size := 10 * 1024 * 1024;
  allowed_image_extensions := [".jpg"; ".jpeg"; ".png"; ".gif"; ".webp"];
  allowed_document_extensions := [".pdf"; ".doc"; ".docx"]
|}.

(** What [save_uploaded_file] reads of an [UploadFile]. *)
Record UploadFile := {
  filename : option string;
  content : string
}.

Definition HTTP_413_REQUEST_ENTITY_TOO_LARGE : Z := 413.
Definition HTTP_500_INTERNAL_SERVER_ERROR : Z := 500.

(** [', '.join(xs)] *)
Fixpoint join (sep : string) (xs : list string) : string :=
  match xs with
  | [] => EmptyString
  | [x] => x
  | x :: rest => x ++ sep ++ join sep rest
  end.

Definition image_mimes : list string :=
  ["image/jpeg"; "image/png"; "image/gif"; "image/webp"].
Definition document_mimes : list string :=
  ["application/pdf"; "application/msword";
   "application/vnd.openxmlformats-officedocument.wordprocessingml.document"].

Section WithStorage.
(** The storage and the libraries are taken as they are called: each
    operation returns its outcome and the storage it leaves. *)
Variable Store : Type.
Variable cfg : UploadSettings.
Variable guess_type : string -> option string.
Variable uuid4 : string.
Variable str_int : Z -> string.
Variable str_exn : exn -> string.
Variable makedirs : string -> Store -> result unit * Store.
Variable write_file : string -> string -> Store -> result unit * Store.
Variable validate_and_resize_image : string -> Store -> result unit * Store.
Variable path_exists : string -> Store -> bool.
Variable remove : string -> Store -> result unit * Store.

Definition bad_request {A} (detail : string) (st : Store) : result A * Store :=
  (Raise (HTTPException HTTP_400_BAD_REQUEST detail), st).

(** The extension test: [is_valid_file] after the two [if]s. *)
Definition is_valid_file (allowed_types : list string) (file_extension : string)
  : bool :=
  (Py.str_in "image" allowed_types
   && Py.str_in file_extension (allowed_image_extensions cfg))
  || (Py.str_in "document" allowed_types
      && Py.str_in file_extension (allowed_document_extensions cfg)).

Definition allowed_extensions (allowed_types : list string) : list string :=
  ((if Py.str_in "image" allowed_types then allowed_image_extensions cfg else [])
   ++ (if Py.str_in "document" allowed_types then allowed_document_extensions cfg
       else []))%list.

Definition allowed_mimes (allowed_types : list string) : list string :=
  ((if Py.str_in "image" allowed_types then image_mimes else [])
   ++ (if Py.str_in "document" allowed_types then document_mimes else []))%list.

(** The MIME test: [true] when the upload goes on. *)
Definition mime_accepted (allowed_types : list string) (mime_type : option string)
  : bool :=
  match mime_type with
  | None => true
  | Some mime_type =>
      if negb (Py.truthy mime_type) then true
      else if Py.str_in "image" allowed_types && String.prefix "image/" mime_type
      then true
      else if Py.str_in "document" allowed_types
              && (String.prefix "application/" mime_type
                  || String.prefix "text/" mime_type)
      then true
      else Py.str_in mime_type (allowed_mimes allowed_types)
  end.

Definition save_uploaded_file (file : UploadFile) (folder : string)
  (allowed_types : list string) (st : Store) : result string * Store :=
  match filename file with
  | None => bad_request "No file provided" st
  | Some name =>
      if negb (Py.truthy name) then bad_request "No file provided" st
      else
        let file_size := Text.len (content file) in
        if max_file_size cfg <? file_size then
          (Raise (HTTPException HTTP_413_REQUEST_ENTITY_TOO_LARGE
                    ("File size exceeds maximum allowed size of "
                     ++ str_int (max_file_size cfg) ++ " bytes")), st)
        else
          let file_extension := Py.lower (snd (Path.splitext name)) in
          if negb (is_valid_file allowed_types file_extension) then
            bad_request ("File type not allowed. Allowed extensions: "
                         ++ join ", " (allowed_extensions allowed_types)) st
          else if negb (mime_accepted allowed_types (guess_type name)) then
            bad_request ("Invalid file type. MIME type: "
                         ++ default EmptyString (guess_type name)) st
          else
            let unique_filename := uuid4 ++ file_extension in
            let upload_dir := "static/uploads/" ++ folder in
            match makedirs upload_dir st with
            | (Raise e, st) => (Raise e, st)
            | (Ok _, st) =>
                let file_path := upload_dir ++ "/" ++ unique_filename in
                match write_file file_path (content file) st with
                | (Raise e, st) =>
                    (Raise (HTTPException HTTP_500_INTERNAL_SERVER_ERROR
                              ("Failed to save file: " ++ str_exn e)), st)
                | (Ok _, st) =>
                    if Py.str_in "image" allowed_types
                       && Py.str_in file_extension (allowed_image_extensions cfg)
                    then
                      match validate_and_resize_image file_path st with
                      | (Ok _, st) => (Ok file_path, st)
                      | (Raise e, st) =>
                          if path_exists file_path st then
                            match remove file_path st with
                            | (Raise e', st) => (Raise e', st)
                            | (Ok _, st) =>
                                bad_request ("Invalid image file: " ++ str_exn e) st
                            end
                          else bad_request ("Invalid image file: " ++ str_exn e) st
                      end
                    else (Ok file_path, st)
                end
            end
  end.

End WithStorage.
End Upload.

(** ** [app/api/v1/auth.py], [app/api/v1/user.py] and
       [app/services/auth_service.py]: creating, changing and deleting users *)

Module Accounts.
Import Auth.

Definition HTTP_404_NOT_FOUND : Z := 404.

#[local] Instance user_eq_dec : EqDecision User.
Proof. solve_decision. Defined.

(** The schema [UserCreate] *)
Record UserCreate := {
  new_username : string;
  new_email : string;
  new_full_name : string;
  new_phone : option string;
  new_bio : option string;
  new_password : string
}.

(** The schema [ModeratorCreate] *)
Record ModeratorCreate := {
  moderator_username : string;
  moderator_email : string;
  moderator_full_name : string;
  moderator_password : string;
  moderator_phone : option string
}.

(** A row as the store completes it on insert: [new_id] is the primary key
    it assigns, the three flags take their column defaults unless the
    constructor set them, the other columns start empty. *)
Definition new_row (new_id : Z) (username_ email_ full_name_ hashed : string)
  (phone_ bio_ : option string) (moderator : bool) : User := {|
  id := new_id;
  username := username_;
  email := email_;
  full_name := full_name_;
  hashed_password := hashed;
  phone := phone_;
  is_active := true;
  is_admin := false;
  is_moderator := moderator;
  updated_at := None;
  last_login := None;
  bio := bio_;
  avatar := None
|}.

(** [db.add(row); db.commit(); db.refresh(row)] *)
Definition insert_user (row : User) : Handler User :=
  fun db => (Ok row, (db ++ [row])%list).

(** [db.delete(user); db.commit()] for the row found at [i] *)
Definition delete_row (i : nat) : Handler unit :=
  fun db => (Ok tt, delete i db).

(** What a commit leaves of a row [u] whose columns were assigned to give
    [u']: an UPDATE is issued, and [updated_at] stamped by the column's
    [onupdate], only when a column changed. *)
Definition flushed (db_now : Z) (u u' : User) : User :=
  if decide (u' = u) then u
  else {| id := id u'; username := username u'; email := email u';
          full_name := full_name u';
          hashed_password := hashed_password u'; phone := phone u';
          is_active := is_active u'; is_admin := is_admin u';
          is_moderator := is_moderator u';
          updated_at := Some db_now; last_login := last_login u';
          bio := bio u'; avatar := avatar u' |}.

(** Assignments to the row found at [i] followed by [db.commit()]. *)
Definition commit_change (i : nat) (change : User -> User) (db_now : Z)
  : Handler unit :=
  fun db => (Ok tt, alter (fun u => flushed db_now u (change u)) i db).

Definition set_is_active (b : bool) (u : User) : User := {|
  id := id u; username := username u; email := email u;
  full_name := full_name u; hashed_password := hashed_password u;
  phone := phone u; is_active := b; is_admin := is_admin u;
  is_moderator := is_moderator u; updated_at := updated_at u;
  last_login := last_login u; bio := bio u; avatar := avatar u
|}.

Definition set_is_moderator (b : bool) (u : User) : User := {|
  id := id u; username := username u; email := email u;
  full_name := full_name u; hashed_password := hashed_password u;
  phone := phone u; is_active := is_active u; is_admin := is_admin u;
  is_moderator := b; updated_at := updated_at u;
  last_login := last_login u; bio := bio u; avatar := avatar u
|}.

Definition set_hashed_password (h : string) (u : User) : User := {|
  id := id u; username := username u; email := email u;
  full_name := full_name u; hashed_password := h;
  phone := phone u; is_active := is_active u; is_admin := is_admin u;
  is_moderator := is_moderator u; updated_at := updated_at u;
  last_login := last_login u; bio := bio u; avatar := avatar u
|}.

(** [AuthService.deactivate_user] and its three siblings: [i] is where the
    row of the [user] object sits. *)
Definition deactivate_user (i : nat) (db_now : Z) : Handler bool :=
  let* _ := commit_change i (set_is_active false) db_now in ret true.
Definition activate_user (i : nat) (db_now : Z) : Handler bool :=
  let* _ := commit_change i (set_is_active true) db_now in ret true.
Definition promote_to_moderator (i : nat) (db_now : Z) : Handler bool :=
  let* _ := commit_change i (set_is_moderator true) db_now in ret true.
Definition demote_from_moderator (i : nat) (db_now : Z) : Handler bool :=
  let* _ := commit_change i (set_is_moderator false) db_now in ret true.

(** The store is SQLite ([database_url] in [app/core/config.py]), whose
    integers are signed and 64 bits wide: a query that binds a Python [int]
    outside that range raises [OverflowError] when it runs. *)
Definition sqlite_int (n : Z) : bool := (- 2 ^ 63 <=? n) && (n <? 2 ^ 63).

(** [db.query(User).filter(p).first()] for a filter that binds [n] *)
Definition query_first_binding (n : Z) (p : User -> bool)
  : Handler (option (nat * User)) :=
  if sqlite_int n then query_first p else raise OverflowError.

(** [AuthService.is_username_available] and [is_email_available]:
    [if exclude_user_id:] is false for [None] and for 0, and then the
    second filter is not added. *)
Definition excluding (exclude_user_id : option Z) : option Z :=
  match exclude_user_id with
  | Some x => if x =? 0 then None else Some x
  | None => None
  end.

Definition is_username_available (username_ : string) (exclude_user_id : option Z)
  : Handler bool :=
  let* found :=
    match excluding exclude_user_id with
    | Some x =>
        query_first_binding x
          (fun u => String.eqb (username u) username_ && negb (id u =? x))
    | None => query_first (fun u => String.eqb (username u) username_)
    end in
  ret (match found with None => true | Some _ => false end).

Definition is_email_available (email_ : string) (exclude_user_id : option Z)
  : Handler bool :=
  let* found :=
    match excluding exclude_user_id with
    | Some x =>
        query_first_binding x
          (fun u => String.eqb (email u) email_ && negb (id u =? x))
    | None => query_first (fun u => String.eqb (email u) email_)
    end in
  ret (match found with None => true | Some _ => false end).

Section WithSecurity.
Variable Token : Type.
Variable decode_token : Token -> result (gmap string json).
Variable get_password_hash : string -> string.
Variable int : json -> result Z.

(** [AuthService.update_user_password] *)
Definition update_user_password (i : nat) (new_password : string) (db_now : Z)
  : Handler bool :=
  let* _ := commit_change i (set_hashed_password (get_password_hash new_password))
              db_now in
  ret true.

(** [register]: [new_id] is the id the store gives the new row. *)
Definition register (user_data : UserCreate) (new_id : Z) : Handler User :=
  let* by_name := get_user_by_username (new_username user_data) in
  match by_name with
  | Some _ =>
      raise (HTTPException HTTP_400_BAD_REQUEST "Username already registered")
  | None =>
      let* by_email :=
        query_first (fun u => String.eqb (email u) (new_email user_data)) in
      match by_email with
      | Some _ =>
          raise (HTTPException HTTP_400_BAD_REQUEST "Email already registered")
      | None =>
          let hashed_password := get_password_hash (new_password user_data) in
          insert_user
            (new_row new_id (new_username user_data) (new_email user_data)
               (new_full_name user_data) hashed_password
               (new_phone user_data) (new_bio user_data) false)
      end
  end.

(** [create_moderator] *)
Definition create_moderator (token : Token) (moderator_data : ModeratorCreate)
  (new_id : Z) : Handler User :=
  let* current_user := get_admin_user Token decode_token int token in
  let* by_name :=
    query_first (fun u => String.eqb (username u) (moderator_username moderator_data)) in
  match by_name with
  | Some _ =>
      raise (HTTPException HTTP_400_BAD_REQUEST "Username already registered")
  | None =>
      let* by_email :=
        query_first (fun u => String.eqb (email u) (moderator_email moderator_data)) in
      match by_email with
      | Some _ =>
          raise (HTTPException HTTP_400_BAD_REQUEST "Email already registered")
      | None =>
          let hashed_password :=
            get_password_hash (moderator_password moderator_data) in
          insert_user
            (new_row new_id (moderator_username moderator_data)
               (moderator_email moderator_data)
               (moderator_full_name moderator_data) hashed_password
               (moderator_phone moderator_data) None true)
      end
  end.

(** [get_user] *)
Definition get_user (token : Token) (user_id : Z) : Handler User :=
  let* current_user := get_moderator_user Token decode_token int token in
  let* user := query_first_binding user_id (fun u => id u =? user_id) in
  match user with
  | None => raise (HTTPException HTTP_404_NOT_FOUND "User not found")
  | Some (_, user) => ret user
  end.

(** [delete_user] *)
Definition delete_user (token : Token) (user_id : Z) : Handler string :=
  let* current_user := get_admin_user Token decode_token int token in
  let* user := query_first_binding user_id (fun u => id u =? user_id) in
  match user with
  | None => raise (HTTPException HTTP_404_NOT_FOUND "User not found")
  | Some (i, user) =>
      if id user =? id current_user
      then raise (HTTPException HTTP_400_BAD_REQUEST "Cannot delete your own account")
      else
        let* _ := delete_row i in
        ret "User deleted successfully"
  end.

End WithSecurity.
End Accounts.

(** ** More concrete inputs *)

Module Samples.

(** A news entity with the three title fields, and a payload for them. *)
Definition news : gmap string json :=
  <["title_uz" := JStr "Eski"]>
    (<["title_ru" := JNull]>
       (<["title_en" := JStr ""]> (<["image_path" := JNull]> ∅))).

Definition titles : gmap string json :=
  <["uz" := JStr "Yangilik"]>
    (<["ru" := JStr "Novost"]> (<["en" := JStr " News "]> ∅)).

(** The phrase files on disk: Uzbek is there, Russian is missing, English
    is not JSON. *)
Definition load_json (path : string) : result json :=
  if String.eqb path "app/localization/uz.json"
  then Ok (JObj [("welcome", JStr "Xush kelibsiz"); ("bye", JStr "Xayr")])
  else if String.eqb path "app/localization/en.json" then Raise JSONDecodeError
  else Raise FileNotFoundError.

(** The same files when the Russian one is not UTF-8: reading it raises
    [UnicodeDecodeError], which is a [ValueError] and not a
    [JSONDecodeError]. *)
Definition load_json_undecodable (path : string) : result json :=
  if String.eqb path "app/localization/ru.json" then Raise ValueError
  else load_json path.

(** The rest of the application: answers 200 and sets a header of its own. *)
Definition call_next (request : Language.Request) (state : Middleware.State)
  : result Middleware.Response :=
  Ok {| Middleware.status_code := 200;
        Middleware.headers := <["content-language" := "xx"]>
                                (<["content-type" := "application/json"]> ∅);
        Middleware.body := Middleware.get_language_from_request Config.settings state |}.

(** A visitor who registers, and the moderator an admin creates. *)
Definition guest : Accounts.UserCreate := {|
  Accounts.new_username := "guest";
  Accounts.new_email := "guest@tmsiti.uz";
  Accounts.new_full_name := "Guest";
  Accounts.new_phone := None;
  Accounts.new_bio := None;
  Accounts.new_password := "guest-pw"
|}.

Definition deputy : Accounts.ModeratorCreate := {|
  Accounts.moderator_username := "deputy";
  Accounts.moderator_email := "deputy@tmsiti.uz";
  Accounts.moderator_full_name := "Deputy";
  Accounts.moderator_password := "deputy-pw";
  Accounts.moderator_phone := None
|}.

End Samples.

Module UploadSamples.

(** A storage in which directories are made and files written as asked.  The
    samples upload documents only; the check of an image is the imaging
    library's, and the stand-in for it accepts no file. *)
Definition makedirs (path : string) (fs : gmap string Storage.node)
  : result unit * gmap string Storage.node :=
  (Ok tt, <[path := Storage.Dir]> fs).

Definition write_file (path content : string) (fs : gmap string Storage.node)
  : result unit * gmap string Storage.node :=
  (Ok tt, <[path := Storage.File content]> fs).

Definition validate_and_resize_image (path : string) (fs : gmap string Storage.node)
  : result unit * gmap string Storage.node :=
  match fs !! path with
  | Some (Storage.File content) => (Raise ValueError, fs)
  | _ => (Raise FileNotFoundError, fs)
  end.

Definition guess_type (name : string) : option string :=
  let ext := Py.lower (snd (Path.splitext name)) in
  if String.eqb ext ".png" then Some "image/png"
  else if String.eqb ext ".pdf" then Some "application/pdf"
  else if String.eqb ext ".exe" then Some "application/x-msdownload"
  else None.

Definition save_uploaded_file :=
  Upload.save_uploaded_file (gmap string Storage.node) Upload.settings guess_type
    "0b0e7a52" (fun _ => "10485760") (fun _ => "error")
    makedirs write_file validate_and_resize_image
    (Storage.path_exists) (Storage.remove (fun _ => true)).

Definition report : Upload.UploadFile :=
  {| Upload.filename := Some "Report.PDF"; Upload.content := "%PDF-1.4" |}.

Definition disk : gmap string Storage.node :=
  <["static/uploads" := Storage.Dir]>
    (<["static/uploads/old.pdf" := Storage.File "old"]> ∅).

End UploadSamples.

(** * Properties *)

Import Config.

(** ** Pagination *)

(** C10: for every pair of integers, the validated skip is [max(0, skip)]
    and the validated limit is [max(1, min(limit, max_page_size))]; so the
    skip is never negative and, the configured maximum page size being at
    least 1, the limit lies between 1 and that maximum inclusive. *)
Theorem validate_pagination_params_range (cfg : Settings) (skip limit : Z) :
  1 <= max_page_size cfg ->
  Utils.validate_pagination_params cfg skip limit
    = (Z.max 0 skip, Z.max 1 (Z.min limit (max_page_size cfg)))
  /\ 0 <= fst (Utils.validate_pagination_params cfg skip limit)
  /\ 1 <= snd (Utils.validate_pagination_params cfg skip limit) <= max_page_size cfg.
Proof.
  intros Hmax. unfold Utils.validate_pagination_params. cbn [fst snd].
  split; [reflexivity | lia].
Qed.

Lemma validate_pagination_params_range_witness :
  1 <= max_page_size settings
  /\ Utils.validate_pagination_params settings (-5) 500 = (0, 100)
  /\ 0 <= fst (Utils.validate_pagination_params settings (-5) 500)
  /\ 1 <= snd (Utils.validate_pagination_params settings (-5) 500) <= max_page_size settings.
Proof.
  split; [vm_compute; discriminate |].
  apply (validate_pagination_params_range settings (-5) 500).
  vm_compute; discriminate.
Defined.

(** ** The multilingual payload validator *)

Lemma validate_loop_true (data : gmap string json) (required : list string) :
  Language.validate_loop data required = Ok true <->
  (forall lang, lang ∈ required ->
     exists s, data !! lang = Some (JStr s) /\ Py.strip s <> "").
Proof.
  induction required as [|lang rest IH]; simpl.
  - split; [intros _ lang H; inversion H | reflexivity].
  - destruct (data !! lang) as [v|] eqn:Hv.
    + destruct v as [ | | | |s| | ];
        try (split; [discriminate | intros H;
               destruct (H lang) as (s' & Hs & _); [left | congruence]]).
      destruct (Py.strip s) as [|c t] eqn:Hs; simpl.
      * split; [discriminate |].
        intros H. destruct (H lang) as (s' & Hs' & Hne); [left |].
        rewrite Hv in Hs'. injection Hs' as <-. congruence.
      * rewrite IH. split.
        -- intros H l Hl. apply elem_of_cons in Hl as [-> | Hl]; [| auto].
           exists s. rewrite Hs. split; [assumption | discriminate].
        -- intros H l Hl. apply H. now right.
    + split; [discriminate |].
      intros H. destruct (H lang) as (s' & Hs' & _); [left | congruence].
Qed.

Lemma validate_loop_strings (data : gmap string json) (required : list string) :
  (forall lang v, data !! lang = Some v -> exists s, v = JStr s) ->
  exists b, Language.validate_loop data required = Ok b.
Proof.
  intros Hstr. induction required as [|lang rest IH]; simpl; [eauto |].
  destruct (data !! lang) as [v|] eqn:Hv; [| eauto].
  destruct (Hstr _ _ Hv) as [s ->].
  destruct (negb _); eauto.
Qed.

(** C7: the validator returns success exactly when every required language
    has a value in the payload that is a string and is not empty once
    stripped, where the required languages are the list given or, when none
    is given, the configured languages.  A payload that misses this for one
    required language is not accepted, whatever it holds for the others; a
    payload holding strings only is answered with one boolean for the whole
    of it, which is [False] as soon as one required language is missing. *)
Theorem validate_multilingual_data_accepts_iff
  (cfg : Settings) (data : gmap string json)
  (required_languages : option (list string)) :
  let required :=
    match required_languages with
    | None => supported_languages cfg
    | Some languages => languages
    end in
  let complete lang :=
    exists s, data !! lang = Some (JStr s) /\ Py.strip s <> "" in
  let missing lang :=
    data !! lang = None
    \/ exists s, data !! lang = Some (JStr s) /\ Py.strip s = "" in
  (Language.validate_multilingual_data cfg data required_languages = Ok true <->
   forall lang, lang ∈ required -> complete lang)
  /\ (forall lang, lang ∈ required -> missing lang ->
        Language.validate_multilingual_data cfg data required_languages <> Ok true)
  /\ ((forall lang v, data !! lang = Some v -> exists s, v = JStr s) ->
      (exists b, Language.validate_multilingual_data cfg data required_languages = Ok b)
      /\ ((exists lang, lang ∈ required /\ missing lang) ->
          Language.validate_multilingual_data cfg data required_languages = Ok false)).
Proof.
  intros required complete missing.
  assert (Hreq : Language.validate_multilingual_data cfg data required_languages
                 = Language.validate_loop data required).
  { unfold Language.validate_multilingual_data, Language.required_of, required.
    now destruct required_languages. }
  rewrite Hreq.
  assert (Hbad : forall lang, lang ∈ required -> missing lang ->
                   Language.validate_loop data required <> Ok true).
  { intros lang Hin Hmiss Hok.
    destruct (proj1 (validate_loop_true _ _) Hok lang Hin) as (s & Hs & Hne).
    destruct Hmiss as [Hnone | (s' & Hs' & He)]; congruence. }
  split; [apply validate_loop_true | split; [exact Hbad |]].
  intros Hstr. pose proof (validate_loop_strings data required Hstr) as [b Hb].
  split; [eauto |]. intros (lang & Hin & Hmiss).
  destruct b; [| exact Hb]. exfalso. exact (Hbad lang Hin Hmiss Hb).
Qed.

(** ** The localized field resolver *)

Section Resolver.
Variables (obj : gmap string json) (field_prefix language : string).

(** The value of the field of one language, and whether it counts. *)
Let field (l : string) : json := getattr obj (field_prefix ++ "_" ++ l).
Let filled (l : string) : Prop := truthy_value (field l) = true.

Lemma try_fallbacks_find (languages : list string) :
  Language.try_fallbacks obj field_prefix language languages
  = match list_find filled (filter (fun l => l <> language) languages) with
    | Some (_, l) => field l
    | None => JStr ""
    end.
Proof.
  induction languages as [|l rest IH]; [reflexivity |].
  cbn [Language.try_fallbacks]. rewrite filter_cons.
  destruct (String.eqb_spec l language) as [-> | Hne]; cbn [negb].
  - rewrite decide_False by (intros H; now apply H). exact IH.
  - rewrite decide_True by assumption. cbn [list_find].
    fold (field l). destruct (decide (filled l)) as [Hl | Hl].
    + unfold filled in Hl. rewrite Hl. reflexivity.
    + unfold filled in Hl. apply not_true_is_false in Hl. rewrite Hl.
      rewrite IH. destruct (list_find _ _) as [[? ?]|]; reflexivity.
Qed.

Lemma fallback_loop_find (content : json) (languages : list string) :
  Utils.fallback_loop obj field_prefix language content languages
  = match list_find filled (filter (fun l => l <> language) languages) with
    | Some (_, l) => field l
    | None =>
        match last (filter (fun l => l <> language) languages) with
        | Some l => field l
        | None => content
        end
    end.
Proof.
  revert content. induction languages as [|l rest IH]; intros content;
    [reflexivity |].
  cbn [Utils.fallback_loop]. rewrite filter_cons.
  destruct (String.eqb_spec l language) as [-> | Hne]; cbn [negb].
  - rewrite decide_False by (intros H; now apply H). apply IH.
  - rewrite decide_True by assumption. cbn [list_find].
    fold (field l). destruct (decide (filled l)) as [Hl | Hl].
    + unfold filled in Hl. rewrite Hl. reflexivity.
    + unfold filled in Hl. apply not_true_is_false in Hl. rewrite Hl.
      rewrite IH. rewrite last_cons.
      destruct (list_find _ _) as [[? ?]|]; [reflexivity |].
      cbn. destruct (last _); reflexivity.
Qed.
End Resolver.

Lemma get_localized_content_agrees
  (obj : gmap string json) (field_prefix language : string) :
  Utils.get_localized_content obj field_prefix language
  = Language.get_localized_model_field settings obj field_prefix language.
Proof.
  unfold Utils.get_localized_content, Language.get_localized_model_field.
  destruct (truthy_value (getattr obj (field_prefix ++ "_" ++ language))) eqn:Hv;
    cbn [negb].
  - rewrite Hv. reflexivity.
  - rewrite fallback_loop_find, try_fallbacks_find.
    change (supported_languages settings) with ["uz"; "ru"; "en"].
    destruct (list_find _ _) as [[i l]|] eqn:Hfind.
    + apply list_find_Some in Hfind as (_ & Hl & _). rewrite Hl. reflexivity.
    + pose proof (proj1 (list_find_None _ _) Hfind) as Hnone.
      destruct (last _) as [l|] eqn:Hlast.
      * apply last_Some_elem_of in Hlast.
        rewrite Forall_forall in Hnone. specialize (Hnone l Hlast).
        apply not_true_is_false in Hnone. rewrite Hnone. reflexivity.
      * rewrite Hv. reflexivity.
Qed.

Lemma resolver_order_find
  (cfg : Settings) (obj : gmap string json) (field_prefix language : string) :
  Language.get_localized_model_field cfg obj field_prefix language
  = match list_find
            (fun l => truthy_value (getattr obj (field_prefix ++ "_" ++ l)) = true)
            (language :: filter (fun l => l <> language) (supported_languages cfg)) with
    | Some (_, l) => getattr obj (field_prefix ++ "_" ++ l)
    | None => JStr ""
    end.
Proof.
  unfold Language.get_localized_model_field. cbn [list_find].
  destruct (decide _) as [Hv | Hv].
  - rewrite Hv. reflexivity.
  - apply not_true_is_false in Hv. rewrite Hv, try_fallbacks_find.
    destruct (list_find _ _) as [[? ?]|]; reflexivity.
Qed.

(** C5: the resolver returns the first non-empty value met in the order
    "the requested language, then the configured languages in their declared
    order without the requested one", and the empty string when there is
    none; so its result is either the empty string or the non-empty value of
    one of these fields, never a language code or a field name standing in
    for a value.  [get_localized_content] computes the same under the
    configured languages.  When [content_en] holds X and the Uzbek and
    Russian fields are empty, resolving for [ru] and for [en] both give X. *)
Theorem get_localized_model_field_resolves
  (cfg : Settings) (obj : gmap string json) (field_prefix language : string) :
  let field l := getattr obj (field_prefix ++ "_" ++ l) in
  let order := language :: filter (fun l => l <> language) (supported_languages cfg) in
  let resolved := Language.get_localized_model_field cfg obj field_prefix language in
  resolved = match list_find (fun l => truthy_value (field l) = true) order with
             | Some (_, l) => field l
             | None => JStr ""
             end
  /\ (resolved = JStr ""
      \/ exists l, l ∈ order /\ resolved = field l /\ truthy_value resolved = true)
  /\ Utils.get_localized_content obj field_prefix language
     = Language.get_localized_model_field settings obj field_prefix language
  /\ (forall X,
        getattr obj "content_en" = JStr X ->
        truthy_value (getattr obj "content_uz") = false ->
        truthy_value (getattr obj "content_ru") = false ->
        Language.get_localized_model_field settings obj "content" "ru" = JStr X
        /\ Language.get_localized_model_field settings obj "content" "en" = JStr X).
Proof.
  intros field order resolved.
  assert (Hfind : resolved
                  = match list_find (fun l => truthy_value (field l) = true) order with
                    | Some (_, l) => field l
                    | None => JStr ""
                    end) by apply resolver_order_find.
  split; [exact Hfind | split; [| split]].
  - rewrite Hfind. destruct (list_find _ _) as [[i l]|] eqn:Hl; [right | now left].
    apply list_find_Some in Hl as (Hi & Hl & _).
    exists l. split; [| split; [reflexivity | exact Hl]].
    apply list_elem_of_lookup. eauto.
  - apply get_localized_content_agrees.
  - intros X Hen Huz Hru.
    unfold Language.get_localized_model_field.
    cbn -[getattr truthy_value].
    change ("content" ++ "_" ++ "ru") with "content_ru".
    change ("content" ++ "_" ++ "uz") with "content_uz".
    change ("content" ++ "_" ++ "en") with "content_en".
    rewrite Hru, Huz, Hen.
    destruct X as [|c X']; split; reflexivity.
Qed.

Lemma get_localized_model_field_resolves_witness :
  Language.get_localized_model_field settings Deployment.english_only "content" "ru"
  = JStr "X"
  /\ Language.get_localized_model_field settings Deployment.english_only "content" "en"
     = JStr "X"
  /\ Utils.get_localized_content Deployment.english_only "content" "ru" = JStr "X".
Proof.
  destruct (get_localized_model_field_resolves settings Deployment.english_only
              "content" "ru") as (_ & _ & Hagree & Hexample).
  destruct (Hexample "X") as [Hru Hen]; [reflexivity | reflexivity | reflexivity |].
  split; [exact Hru | split; [exact Hen |]].
  rewrite Hagree. exact Hru.
Defined.

(** ** Sorting: what holds for every comparison *)

Section SortPermutation.
Context {A : Type} (lt : A -> A -> bool).

Lemma insert_stable_perm (x : A) (l : list A) :
  Py.insert_stable lt x l ≡ₚ x :: l.
Proof.
  induction l as [|y l IH]; cbn; [reflexivity |].
  destruct (lt x y); [reflexivity |].
  rewrite IH. apply Permutation_swap.
Qed.

Lemma stable_sort_from_perm (l acc : list A) :
  fold_left (fun acc x => Py.insert_stable lt x acc) l acc ≡ₚ acc ++ l.
Proof.
  revert acc. induction l as [|x l IH]; intros acc; cbn.
  - now rewrite app_nil_r.
  - rewrite IH, insert_stable_perm.
    now rewrite (Permutation_middle acc l x).
Qed.

Lemma sort_perm (l : list A) : Py.sort lt l ≡ₚ l.
Proof.
  unfold Py.sort. destruct (Py.is_run lt l); [reflexivity |].
  apply (stable_sort_from_perm l []).
Qed.

Lemma sort_reverse_perm (l : list A) : Py.sort_reverse lt l ≡ₚ l.
Proof.
  unfold Py.sort_reverse.
  now rewrite <- Permutation_rev, sort_perm, <- Permutation_rev.
Qed.
End SortPermutation.

(** ** The language negotiator *)

Section Negotiator.
Variable float : string -> option Py.float64.
Variable cfg : Settings.

Let supported (e : string * Py.float64) : Prop :=
  fst e ∈ supported_languages cfg.

(** The loop keeps, in the order of the header, the tags whose language is
    configured. *)
Lemma collect_filter (tags : list string) :
  Language.collect float cfg tags
  = filter supported (map (Language.parse_tag float) tags).
Proof.
  unfold Language.collect.
  enough (H : forall acc,
    fold_left
      (fun languages lang_tag =>
         let '(lang, quality_value) := Language.parse_tag float lang_tag in
         if Py.str_in lang (supported_languages cfg)
         then (languages ++ [(lang, quality_value)])%list
         else languages) tags acc
    = (acc ++ filter supported (map (Language.parse_tag float) tags))%list)
    by apply (H []).
  induction tags as [|tag tags IH]; intros acc; cbn [fold_left map].
  - cbn. now rewrite app_nil_r.
  - rewrite IH, filter_cons.
    destruct (Language.parse_tag float tag) as [lang q] eqn:Htag.
    unfold Py.str_in, supported at 2. cbn [fst].
    destruct (decide (lang ∈ supported_languages cfg)) as [Hin | Hin].
    + rewrite bool_decide_eq_true_2 by assumption.
      now rewrite <- app_assoc.
    + rewrite bool_decide_eq_false_2 by assumption. reflexivity.
Qed.

Lemma collect_supported (tags : list string) (e : string * Py.float64) :
  e ∈ Language.collect float cfg tags -> fst e ∈ supported_languages cfg.
Proof.
  rewrite collect_filter. intros H.
  apply list_elem_of_filter in H as [H _]. exact H.
Qed.

Lemma detect_from_header_cases (request : Language.Request) :
  let languages :=
    Language.collect float cfg
      (Py.split "," (default "" (Language.accept_language_header request))) in
  (languages = [] /\
   Language.detect_from_header float cfg request = default_language cfg)
  \/ (exists e, e ∈ languages /\
      Language.detect_from_header float cfg request = fst e).
Proof.
  intros languages. unfold Language.detect_from_header. fold languages.
  pose proof (sort_reverse_perm Language.weight_lt languages) as Hperm.
  destruct (Py.sort_reverse Language.weight_lt languages) as [|e sorted].
  - left. split; [| reflexivity].
    now apply Permutation_nil in Hperm.
  - right. exists e. split; [| reflexivity].
    rewrite <- Hperm. left.
Qed.
End Negotiator.

(** C4: when the override parameter is present and is one of the configured
    language codes, the negotiator returns it, whatever the header says. *)
Theorem detect_language_override
  (float : string -> option Py.float64) (cfg : Settings)
  (l : string) (header : option string) :
  l ∈ supported_languages cfg ->
  l <> "" ->
  Language._detect_language float cfg
    {| Language.query_lang := Some l; Language.accept_language_header := header |} = l.
Proof.
  intros Hin Hne. unfold Language._detect_language. cbn.
  unfold Py.str_in. rewrite bool_decide_eq_true_2 by assumption.
  destruct l; [congruence | reflexivity].
Qed.

Lemma detect_language_override_witness :
  "en" ∈ supported_languages settings
  /\ Language._detect_language Py.float settings
       {| Language.query_lang := Some "en";
          Language.accept_language_header := Some "ru;q=1.0, uz;q=0.9" |} = "en".
Proof.
  assert (Hin : "en" ∈ supported_languages settings)
    by (refine (bool_decide_unpack _ _); vm_compute; exact I).
  split; [exact Hin |].
  apply (detect_language_override Py.float settings "en"); [exact Hin | discriminate].
Defined.

(** C6: the configured default being one of the configured languages, the
    negotiated language is always one of the configured languages, whatever
    the override parameter and the header hold; and when the override is not
    a configured code and no entry of the header survives the filter, the
    result is the configured default. *)
Theorem detect_language_in_configured_set
  (float : string -> option Py.float64) (cfg : Settings)
  (request : Language.Request) :
  default_language cfg ∈ supported_languages cfg ->
  Language._detect_language float cfg request ∈ supported_languages cfg
  /\ ((forall l, Language.query_lang request = Some l -> l ∉ supported_languages cfg) ->
      Language.collect float cfg
        (Py.split "," (default "" (Language.accept_language_header request))) = [] ->
      Language._detect_language float cfg request = default_language cfg).
Proof.
  intros Hdefault.
  assert (Hheader :
    Language.detect_from_header float cfg request ∈ supported_languages cfg).
  { destruct (detect_from_header_cases float cfg request)
      as [[_ ->] | (e & He & ->)]; [exact Hdefault |].
    eapply collect_supported, He. }
  split.
  - unfold Language._detect_language.
    destruct (Language.query_lang request) as [l|]; [| exact Hheader].
    destruct (Py.truthy l); cbn [andb]; [| exact Hheader].
    unfold Py.str_in. case_bool_decide; [assumption | exact Hheader].
  - intros Hoverride Hnone. unfold Language._detect_language.
    assert (Hh : Language.detect_from_header float cfg request = default_language cfg).
    { destruct (detect_from_header_cases float cfg request)
        as [[_ H] | (e & He & _)]; [exact H |].
      rewrite Hnone in He. inversion He. }
    destruct (Language.query_lang request) as [l|]; [| exact Hh].
    unfold Py.str_in. rewrite bool_decide_eq_false_2 by (now apply Hoverride).
    rewrite andb_false_r. exact Hh.
Qed.

Lemma detect_language_in_configured_set_witness :
  default_language settings ∈ supported_languages settings
  /\ Language._detect_language Py.float settings
       {| Language.query_lang := None; Language.accept_language_header := Some "" |}
     = "uz"
  /\ Language._detect_language Py.float settings
       {| Language.query_lang := Some "de"; Language.accept_language_header := Some "fr, xx;q=0.8" |}
     ∈ supported_languages settings.
Proof.
  assert (Hin : default_language settings ∈ supported_languages settings)
    by (refine (bool_decide_unpack _ _); vm_compute; exact I).
  split; [exact Hin | split].
  - apply (detect_language_in_configured_set Py.float settings
             {| Language.query_lang := None;
                Language.accept_language_header := Some "" |} Hin).
    + intros l Hl. discriminate Hl.
    + reflexivity.
  - apply (detect_language_in_configured_set Py.float settings
             {| Language.query_lang := Some "de";
                Language.accept_language_header := Some "fr, xx;q=0.8" |} Hin).
Defined.

(** ** The authorization gate *)

Section Gate.
Context {Token : Type}.
Variable decode_token : Token -> result (gmap string json).
Variable int : json -> result Z.

Let get_current_user := Auth.get_current_user Token decode_token int.
Let get_admin_user := Auth.get_admin_user Token decode_token int.
Let get_moderator_user := Auth.get_moderator_user Token decode_token int.

Let reaches := Auth.reaches Token decode_token int.

Lemma get_current_user_reached (token : Token) (db : Auth.Table) (u : Auth.User) :
  reaches token db u ->
  get_current_user token db
  = (if Auth.is_active u then Ok u
     else Raise (HTTPException HTTP_401_UNAUTHORIZED "User not found or inactive"),
     db).
Proof.
  intros (payload & sub & n & i & Hdec & Hsub & Hnull & Hint & Hfind).
  unfold get_current_user, Auth.get_current_user, Auth.bind, Auth.lift.
  rewrite Hdec, Hsub. unfold default, from_option, Datatypes.id.
  destruct sub; try congruence;
    cbv beta iota zeta; rewrite Hint; unfold Auth.query_first; rewrite Hfind;
    destruct (Auth.is_active u); reflexivity.
Qed.

(** No gate writes to the table. *)
Lemma get_current_user_reads (token : Token) (db : Auth.Table) :
  snd (get_current_user token db) = db.
Proof.
  unfold get_current_user, Auth.get_current_user, Auth.bind, Auth.lift.
  destruct (decode_token token) as [payload|e]; [| reflexivity].
  destruct (default JNull (payload !! "sub")); try reflexivity;
    (destruct (int _); [| reflexivity]);
    unfold Auth.query_first;
    (destruct (list_find _ db) as [[i u]|]; [| reflexivity]);
    destruct (Auth.is_active u); reflexivity.
Qed.

Lemma get_admin_user_reads (token : Token) (db : Auth.Table) :
  snd (get_admin_user token db) = db.
Proof.
  unfold get_admin_user, Auth.get_admin_user, Auth.bind.
  pose proof (get_current_user_reads token db) as H.
  unfold get_current_user in H.
  destruct (Auth.get_current_user Token decode_token int token db) as [[u|e] db'];
    cbn in H; subst db'; [| reflexivity].
  destruct (Auth.is_admin u); reflexivity.
Qed.

Lemma get_moderator_user_reads (token : Token) (db : Auth.Table) :
  snd (get_moderator_user token db) = db.
Proof.
  unfold get_moderator_user, Auth.get_moderator_user, Auth.bind.
  pose proof (get_current_user_reads token db) as H.
  unfold get_current_user in H.
  destruct (Auth.get_current_user Token decode_token int token db) as [[u|e] db'];
    cbn in H; subst db'; [| reflexivity].
  destruct (Auth.is_admin u || Auth.is_moderator u); reflexivity.
Qed.

(** C2: for a principal reached through a valid token.  When it is
    active, the admin check returns it exactly when its admin flag is set
    and the moderator check exactly when its admin or moderator flag is
    set, and each fails with Forbidden otherwise; in particular both fail
    with Forbidden when neither flag is set.  When it is not active, the
    three checks fail with Unauthorized whatever the two flags are.
    [verify_user_permissions] answers the same questions. *)
Theorem gate_checks (token : Token) (db : Auth.Table) (u : Auth.User) :
  reaches token db u ->
  (Auth.is_active u = true ->
     get_current_user token db = (Ok u, db)
     /\ get_admin_user token db
        = (if Auth.is_admin u then Ok u
           else Raise (HTTPException HTTP_403_FORBIDDEN
                         "Not enough permissions. Admin access required."), db)
     /\ get_moderator_user token db
        = (if Auth.is_admin u || Auth.is_moderator u then Ok u
           else Raise (HTTPException HTTP_403_FORBIDDEN
                         "Not enough permissions. Moderator or Admin access required."), db)
     /\ (Auth.is_admin u = false -> Auth.is_moderator u = false ->
         Forbidden (fst (get_admin_user token db))
         /\ Forbidden (fst (get_moderator_user token db))))
  /\ (Auth.is_active u = false ->
        Unauthorized (fst (get_current_user token db))
        /\ Unauthorized (fst (get_admin_user token db))
        /\ Unauthorized (fst (get_moderator_user token db)))
  /\ Auth.verify_user_permissions u "admin" = Auth.is_active u && Auth.is_admin u
  /\ Auth.verify_user_permissions u "moderator"
     = Auth.is_active u && (Auth.is_admin u || Auth.is_moderator u)
  /\ Auth.verify_user_permissions u "user" = Auth.is_active u.
Proof.
  intros Hreach.
  pose proof (get_current_user_reached token db u Hreach) as Hcur.
  unfold get_current_user in Hcur.
  split; [| split].
  - intros Hactive. rewrite Hactive in Hcur.
    unfold get_current_user, get_admin_user, get_moderator_user,
      Auth.get_admin_user, Auth.get_moderator_user, Auth.bind.
    rewrite Hcur.
    split; [reflexivity | split; [| split]].
    + destruct (Auth.is_admin u); reflexivity.
    + destruct (Auth.is_admin u || Auth.is_moderator u); reflexivity.
    + intros Hadmin Hmod. rewrite Hadmin, Hmod. cbn. split; eexists; reflexivity.
  - intros Hactive. rewrite Hactive in Hcur.
    unfold get_current_user, get_admin_user, get_moderator_user,
      Auth.get_admin_user, Auth.get_moderator_user, Auth.bind.
    rewrite Hcur. cbn. repeat split; eexists; reflexivity.
  - unfold Auth.verify_user_permissions.
    destruct (Auth.is_active u); cbn; repeat split; reflexivity.
Qed.
End Gate.

Lemma gate_checks_witness :
  Auth.reaches TokenService.SignedToken Deployment.decode_token Builtins.int
    (Deployment.create_access_token 3) Deployment.users Deployment.chief
  /\ Deployment.get_admin_user (Deployment.create_access_token 3) Deployment.users
     = (Ok Deployment.chief, Deployment.users)
  /\ Deployment.get_moderator_user (Deployment.create_access_token 3) Deployment.users
     = (Ok Deployment.chief, Deployment.users).
Proof.
  assert (Hreach :
    Auth.reaches TokenService.SignedToken Deployment.decode_token Builtins.int
      (Deployment.create_access_token 3) Deployment.users Deployment.chief).
  { eexists _, (JInt 3), 3, 2%nat.
    split; [reflexivity | split; [reflexivity | split; [discriminate |]]].
    split; reflexivity. }
  split; [exact Hreach |].
  destruct (gate_checks Deployment.decode_token Builtins.int
              (Deployment.create_access_token 3) Deployment.users Deployment.chief Hreach)
    as (Hactive & _).
  destruct (Hactive eq_refl) as (_ & Hadmin & Hmoderator & _).
  split; [exact Hadmin | exact Hmoderator].
Defined.

(** ** Token types *)

Section TokenTypes.
Context {Token : Type}.
Variable decode_token : Token -> result (gmap string json).
Variable create_access_token create_refresh_token : Z -> Token.
Variable int : json -> result Z.

Let get_current_user := Auth.get_current_user Token decode_token int.
Let refresh_token :=
  Auth.refresh_token Token decode_token create_access_token create_refresh_token int.

(** The refresh endpoint turns away every token whose type claim is not
    ["refresh"]. *)
Lemma refresh_token_requires_refresh_type
  (token : Token) (db : Auth.Table) (payload : gmap string json) :
  decode_token token = Ok payload ->
  payload !! "type" <> Some (JStr "refresh") ->
  refresh_token token db
  = (Raise (HTTPException HTTP_401_UNAUTHORIZED "Invalid token type"), db).
Proof.
  intros Hdec Htype.
  unfold refresh_token, Auth.refresh_token, Auth.bind, Auth.lift.
  rewrite Hdec.
  assert (Hno : is_str (payload !! "type") "refresh" = false).
  { destruct (payload !! "type") as [[ | | | |s| | ]|]; try reflexivity.
    cbn. destruct (String.eqb_spec s "refresh"); [subst; congruence | reflexivity]. }
  rewrite Hno. reflexivity.
Qed.

(** [get_current_user] never reads the type claim: a token that the
    refresh endpoint accepts is accepted as an access token as well. *)
Lemma refresh_token_accepted_by_get_current_user
  (token : Token) (db : Auth.Table) (pair : Auth.TokenPair Token) :
  (forall n, int JNull <> Ok n) ->
  fst (refresh_token token db) = Ok pair ->
  exists payload u,
    decode_token token = Ok payload
    /\ payload !! "type" = Some (JStr "refresh")
    /\ get_current_user token db = (Ok u, db).
Proof.
  intros Hnull.
  unfold refresh_token, get_current_user, Auth.refresh_token,
    Auth.get_current_user, Auth.bind, Auth.lift.
  destruct (decode_token token) as [payload|e]; [| discriminate].
  destruct (is_str (payload !! "type") "refresh") eqn:Htype; [| discriminate].
  cbn [negb].
  assert (Ht : payload !! "type" = Some (JStr "refresh")).
  { destruct (payload !! "type") as [[ | | | |s| | ]|]; try discriminate.
    cbn in Htype. apply String.eqb_eq in Htype. now subst. }
  unfold Auth.query_first.
  destruct (default JNull (payload !! "sub")) eqn:Hsub;
    match goal with
    | |- context [int ?v] => destruct (int v) as [n|e] eqn:Hint; [| discriminate]
    end;
    try (exfalso; now apply (Hnull n));
    (destruct (list_find _ db) as [[i u]|]; [| discriminate]);
    (destruct (Auth.is_active u) eqn:Hactive; [| discriminate]);
    intros _; exists payload, u;
    (split; [reflexivity | split; [exact Ht | reflexivity]]).
Qed.
End TokenTypes.

(** C1, at the input where the source departs from it: a token issued with
    type ["refresh"] passes [get_current_user] and the two gates built on
    it, which return the principal instead of the Unauthorized outcome; the
    refresh endpoint does turn away the access token of the same principal. *)
Theorem get_current_user_accepts_refresh_token :
  TokenService.type (Deployment.create_refresh_token 3) = "refresh"
  /\ Deployment.get_current_user (Deployment.create_refresh_token 3) Deployment.users
     = (Ok Deployment.chief, Deployment.users)
  /\ Deployment.get_admin_user (Deployment.create_refresh_token 3) Deployment.users
     = (Ok Deployment.chief, Deployment.users)
  /\ Deployment.get_moderator_user (Deployment.create_refresh_token 3) Deployment.users
     = (Ok Deployment.chief, Deployment.users)
  /\ Unauthorized
       (fst (Deployment.refresh_token (Deployment.create_access_token 3) Deployment.users)).
Proof.
  repeat split; try reflexivity.
  eexists. reflexivity.
Qed.

(** ** Login and the last-login timestamp *)

Section Login.
Context {Token : Type}.
Variable decode_token : Token -> result (gmap string json).
Variable verify_password : string -> string -> bool.
Variable create_access_token create_refresh_token : Z -> Token.
Variable int : json -> result Z.

Let login := Auth.login Token verify_password create_access_token create_refresh_token.
Let authenticate_user := Auth.authenticate_user verify_password.
Let get_current_user := Auth.get_current_user Token decode_token int.
Let get_admin_user := Auth.get_admin_user Token decode_token int.
Let get_moderator_user := Auth.get_moderator_user Token decode_token int.

Let stamped := Auth.stamped.

Lemma commit_stamps (utcnow db_now : Z) (i : nat) (user : Auth.User) (db : Auth.Table) :
  db !! i = Some user ->
  stamped utcnow db_now i user db (alter (Auth.touch_login utcnow db_now) i db).
Proof.
  intros Hi. unfold stamped, Auth.stamped. split; [| split; [reflexivity | split]].
  - rewrite list_lookup_alter_eq, Hi. reflexivity.
  - apply length_alter.
  - intros j Hj. now apply list_lookup_alter_ne.
Qed.

(** C8: [login] succeeds exactly when the username is found, the password
    verifies and the principal is active; then the table it leaves is the
    table it found with that row's last-login set to the time of the login.
    Every failed login is answered Unauthorized and leaves the table as it
    was, and so does [authenticate_user], which returns [None].  The gate
    checks leave the table as it was, and running one again on the table
    it left gives the same outcome. *)
Theorem login_stamps_exactly_on_success
  (username_ password : string) (utcnow db_now : Z) (db : Auth.Table) :
  (match list_find (fun u => String.eqb (Auth.username u) username_ = true) db with
   | Some (i, user) =>
       if verify_password password (Auth.hashed_password user) && Auth.is_active user
       then fst (login username_ password utcnow db_now db)
            = Ok {| Auth.access_token := create_access_token (Auth.id user);
                    Auth.refresh_token_ := create_refresh_token (Auth.id user);
                    Auth.token_type := "bearer" |}
            /\ stamped utcnow db_now i user db
                 (snd (login username_ password utcnow db_now db))
       else Unauthorized (fst (login username_ password utcnow db_now db))
            /\ snd (login username_ password utcnow db_now db) = db
   | None => Unauthorized (fst (login username_ password utcnow db_now db))
             /\ snd (login username_ password utcnow db_now db) = db
   end)
  /\ (match list_find (fun u => (String.eqb (Auth.username u) username_
                                 || String.eqb (Auth.email u) username_) = true) db with
      | Some (i, user) =>
          if verify_password password (Auth.hashed_password user) && Auth.is_active user
          then fst (authenticate_user username_ password utcnow db_now db)
               = Ok (Some (Auth.touch_login utcnow db_now user))
               /\ stamped utcnow db_now i user db
                    (snd (authenticate_user username_ password utcnow db_now db))
          else authenticate_user username_ password utcnow db_now db = (Ok None, db)
      | None => authenticate_user username_ password utcnow db_now db = (Ok None, db)
      end)
  /\ (forall token,
        snd (get_current_user token db) = db
        /\ snd (get_admin_user token db) = db
        /\ snd (get_moderator_user token db) = db
        /\ get_current_user token (snd (get_current_user token db))
           = get_current_user token db).
Proof.
  split; [| split].
  - unfold login, Auth.login, Auth.bind, Auth.get_user_by_username, Auth.query_first.
    destruct (list_find _ db) as [[i user]|] eqn:Hfind.
    + apply list_find_Some in Hfind as (Hi & _ & _).
      destruct (verify_password password (Auth.hashed_password user)); cbn.
      * destruct (Auth.is_active user); cbn.
        -- split; [reflexivity | now apply commit_stamps].
        -- split; [eexists |]; reflexivity.
      * split; [eexists |]; reflexivity.
    + cbn. split; [eexists |]; reflexivity.
  - unfold authenticate_user, Auth.authenticate_user, Auth.bind, Auth.query_first.
    destruct (list_find _ db) as [[i user]|] eqn:Hfind; [| reflexivity].
    apply list_find_Some in Hfind as (Hi & _ & _).
    destruct (verify_password password (Auth.hashed_password user)); cbn;
      [| reflexivity].
    destruct (Auth.is_active user); cbn; [| reflexivity].
    split; [reflexivity | now apply commit_stamps].
  - intros token.
    pose proof (get_current_user_reads decode_token int token db) as Hread.
    split; [exact Hread | split; [| split]].
    + apply get_admin_user_reads.
    + apply get_moderator_user_reads.
    + unfold get_current_user. rewrite Hread. reflexivity.
Qed.
End Login.

(** ** The phrase tables *)

(** Which substitution arguments a call refuses. *)
Lemma binds_true (parameters : list string) (kwargs : gmap string json) :
  (exists name, name ∈ parameters /\ is_Some (kwargs !! name)) <->
  Language.binds parameters kwargs = true.
Proof.
  unfold Language.binds. rewrite existsb_exists. split.
  - intros (name & Hin & Hsome). exists name.
    split; [now apply list_elem_of_In | now apply bool_decide_eq_true_2].
  - intros (name & Hin & Hsome). exists name.
    split; [now apply list_elem_of_In | now apply bool_decide_eq_true_1 in Hsome].
Qed.

Lemma binds_false (parameters : list string) (kwargs : gmap string json) :
  (forall name, name ∈ parameters -> kwargs !! name = None) <->
  Language.binds parameters kwargs = false.
Proof.
  split.
  - intros Hfree. apply not_true_is_false. intros Hb.
    apply binds_true in Hb as (name & Hin & Hsome).
    rewrite (Hfree name Hin) in Hsome. now destruct Hsome.
  - intros Hb name Hin. destruct (kwargs !! name) as [v|] eqn:Hv; [| reflexivity].
    exfalso. apply not_true_iff_false in Hb. apply Hb, binds_true.
    exists name. split; [exact Hin | rewrite Hv; eauto].
Qed.

Section Phrases.
Variable format : string -> gmap string json -> result string.
Variable load_json : string -> result json.
Variable cfg : Settings.

Let path (language : string) : string :=
  Language.path_join Language.localization_dir (language ++ ".json").

(** The table a language gets: the document read, or the empty table when
    the file is missing or is not JSON. *)
Let table (language : string) : json :=
  match load_json (path language) with
  | Ok doc => doc
  | Raise _ => JObj []
  end.

Let loadable (language : string) : Prop :=
  match load_json (path language) with
  | Ok _ | Raise FileNotFoundError | Raise JSONDecodeError => True
  | Raise _ => False
  end.

Lemma load_all_tables (languages : list string) (cache : gmap string json) :
  (forall language, language ∈ languages -> loadable language) ->
  exists cache',
    Language.load_all load_json cache languages = Ok cache'
    /\ forall language,
         cache' !! language
         = if decide (language ∈ languages) then Some (table language)
           else cache !! language.
Proof.
  revert cache. induction languages as [|l rest IH]; intros cache Hload.
  - exists cache. split; [reflexivity |]. intros language.
    rewrite decide_False by apply not_elem_of_nil. reflexivity.
  - cbn [Language.load_all].
    assert (Hone : Language.load_one load_json cache l = Ok (<[l := table l]> cache)).
    { specialize (Hload l ltac:(left)). unfold loadable in Hload.
      unfold Language.load_one, table. fold (path l).
      destruct (load_json (path l)) as [doc|[]]; try reflexivity; contradiction. }
    rewrite Hone.
    destruct (IH (<[l := table l]> cache)) as (cache' & Hall & Hlook).
    { intros language Hin. apply Hload. now right. }
    exists cache'. split; [exact Hall |]. intros language. rewrite Hlook.
    destruct (decide (language ∈ rest)) as [Hin | Hin].
    + rewrite decide_True by (now right). reflexivity.
    + destruct (decide (language = l)) as [-> | Hne].
      * rewrite decide_True by left. apply lookup_insert_eq.
      * rewrite decide_False by (rewrite elem_of_cons; tauto).
        now apply lookup_insert_ne.
Qed.

(** The first file that fails otherwise stops the loading. *)
Lemma load_all_fatal (languages : list string) (cache : gmap string json) :
  (exists language, language ∈ languages /\ ~ loadable language) ->
  exists e, Language.load_all load_json cache languages = Raise e
            /\ e <> FileNotFoundError /\ e <> JSONDecodeError.
Proof.
  revert cache. induction languages as [|l rest IH]; intros cache (bad & Hin & Hbad).
  - inversion Hin.
  - cbn [Language.load_all]. unfold Language.load_one. fold (path l).
    assert (Hrest : loadable l ->
                    exists language, language ∈ rest /\ ~ loadable language).
    { intros Hl. exists bad. split; [| exact Hbad].
      apply elem_of_cons in Hin as [-> | Hin]; [contradiction | exact Hin]. }
    unfold loadable in Hrest at 1.
    destruct (load_json (path l)) as [doc|[]];
      try (apply IH, Hrest; exact I);
      (eexists; split; [reflexivity | split; discriminate]).
Qed.

(** Past the binding of its parameters the lookup always returns. *)
Lemma localized_text_returns
  (localization_cache : gmap string json) (key language : string)
  (kwargs : gmap string json) :
  Language.binds ["self"; "key"; "language"] kwargs = false ->
  exists text,
    Language._get_localized_text format localization_cache key language kwargs
    = Ok text.
Proof.
  intros Hfree. unfold Language._get_localized_text. rewrite Hfree.
  unfold try_except_Exception.
  destruct (match default (JObj []) (localization_cache !! language) with
            | JObj _ => _ | _ => _ end); eauto.
Qed.

(** C9 as the source has it.  The lookup returns for every key, language and
    substitution arguments none of which is named [self], [key] or
    [language]; an argument of one of these names makes the call raise
    [TypeError].  When the key is absent from the table of the language, the
    lookup returns the key itself if no substitution argument is given, and
    otherwise the key formatted with the arguments, or the key itself if
    that formatting fails.  A language whose file is missing or is read but
    is not JSON gets the empty table and loading goes on; a file that fails
    in any other way stops the loading with an exception. *)
Theorem localized_text_total
  (localization_cache : gmap string json) (key language : string)
  (kwargs : gmap string json) :
  let own := ["self"; "key"; "language"] in
  ((forall name, name ∈ own -> kwargs !! name = None) ->
   (exists text,
      Language._get_localized_text format localization_cache key language kwargs
      = Ok text)
   /\ (Language.absent localization_cache language key ->
       Language._get_localized_text format localization_cache key language kwargs
       = Ok (JStr (if decide (kwargs = ∅) then key
                   else match format key kwargs with
                        | Ok formatted => formatted
                        | Raise _ => key
                        end))))
  /\ ((exists name, name ∈ own /\ is_Some (kwargs !! name)) ->
      Language._get_localized_text format localization_cache key language kwargs
      = Raise TypeError)
  /\ ((forall l, l ∈ supported_languages cfg -> loadable l) ->
      exists cache,
        Language._load_localization_files load_json cfg = Ok cache
        /\ forall l, l ∈ supported_languages cfg ->
             cache !! l = Some (table l)
             /\ (load_json (path l) = Raise FileNotFoundError
                 \/ load_json (path l) = Raise JSONDecodeError ->
                 cache !! l = Some (JObj [])))
  /\ ((exists l, l ∈ supported_languages cfg /\ ~ loadable l) ->
      exists e, Language._load_localization_files load_json cfg = Raise e
                /\ e <> FileNotFoundError /\ e <> JSONDecodeError).
Proof.
  intros own. split; [| split; [| split]].
  - intros Hfree. apply binds_false in Hfree. split.
    + now apply localized_text_returns.
    + unfold Language._get_localized_text. fold own. rewrite Hfree.
      intros Habsent.
      assert (Hfields : exists fields,
                default (JObj []) (localization_cache !! language) = JObj fields
                /\ dict_get fields key = None).
      { destruct Habsent as [-> | (fields & -> & Hget)]; eauto. }
      destruct Hfields as (fields & -> & ->). cbn [default from_option].
      case_bool_decide; case_decide; try contradiction; [reflexivity |].
      cbn. destruct (format key kwargs); reflexivity.
  - intros Hbound. apply binds_true in Hbound.
    unfold Language._get_localized_text. fold own. now rewrite Hbound.
  - intros Hload.
    destruct (load_all_tables (supported_languages cfg) ∅ Hload)
      as (cache & Hall & Hlook).
    exists cache. split; [exact Hall |]. intros l Hl.
    assert (Hc : cache !! l = Some (table l)).
    { rewrite Hlook. now rewrite decide_True. }
    split; [exact Hc |].
    intros Hfail. rewrite Hc. unfold table.
    destruct Hfail as [-> | ->]; reflexivity.
  - apply load_all_fatal.
Qed.
End Phrases.

(** C9 as stated fails: the key [{name}] has no entry in the empty Russian
    table, and with a substitution argument the lookup returns the formatted
    text [X], not the key; a substitution argument named [language] makes
    the lookup raise; and a phrase file that is not UTF-8 stops the loading. *)
Lemma localized_text_formats_absent_key :
  Language.absent Deployment.phrases "ru" "{name}"
  /\ Language._get_localized_text Builtins.format Deployment.phrases
       "{name}" "ru" {[ "name" := JStr "X" ]} = Ok (JStr "X")
  /\ Language._get_localized_text Builtins.format Deployment.phrases
       "{name}" "ru" {[ "name" := JStr "X" ]} <> Ok (JStr "{name}")
  /\ Language._get_localized_text Builtins.format Deployment.phrases
       "welcome" "uz" {[ "language" := JStr "uz" ]} = Raise TypeError
  /\ Language._load_localization_files Samples.load_json_undecodable settings
     = Raise ValueError.
Proof.
  split; [right; exists []; split; vm_compute; reflexivity |].
  split; [vm_compute; reflexivity |].
  split; [| split; vm_compute; reflexivity].
  intros H. vm_compute in H. discriminate H.
Qed.

(** ** Sorting: which entry comes first *)

Section FloatOrder.
(** Comparison of floats is a strict weak order away from NaN. *)

Ltac order_cases :=
  repeat match goal with
  | |- context [Z.compare ?a ?b] => destruct (Z.compare_spec a b)
  | |- context [Pos.compare ?a ?b] => destruct (Pos.compare_spec a b)
  end; cbn; try reflexivity; try discriminate; try lia.

Lemma SFltb_trans (a b c : spec_float) :
  SFltb a b = true -> SFltb b c = true -> SFltb a c = true.
Proof.
  unfold SFltb, SFcompare.
  destruct a as [[]|[]| |[] ma ea], b as [[]|[]| |[] mb eb],
           c as [[]|[]| |[] mc ec];
    cbn; try reflexivity; try discriminate;
    change (Pos.compare_cont Eq) with Pos.compare; order_cases.
Qed.

Lemma SFltb_negtrans (a b c : spec_float) :
  Py.is_nan a = false -> Py.is_nan b = false -> Py.is_nan c = false ->
  SFltb a b = false -> SFltb b c = false -> SFltb a c = false.
Proof.
  unfold SFltb, SFcompare.
  destruct a as [[]|[]| |[] ma ea], b as [[]|[]| |[] mb eb],
           c as [[]|[]| |[] mc ec];
    cbn; try reflexivity; try discriminate;
    change (Pos.compare_cont Eq) with Pos.compare; order_cases.
Qed.

Lemma SFltb_irrefl (a : spec_float) : SFltb a a = false.
Proof.
  unfold SFltb, SFcompare.
  destruct a as [[]|[]| |[] ma ea]; cbn; try reflexivity;
    change (Pos.compare_cont Eq) with Pos.compare;
    rewrite Z.compare_refl, Pos.compare_refl; reflexivity.
Qed.
End FloatOrder.

Section SortHead.
Local Open Scope list_scope.
Context {A : Type} (lt : A -> A -> bool) (comparable : A -> Prop).

Hypothesis lt_trans : forall a b c,
  comparable a -> comparable b -> comparable c ->
  lt a b = true -> lt b c = true -> lt a c = true.
Hypothesis lt_negtrans : forall a b c,
  comparable a -> comparable b -> comparable c ->
  lt a b = false -> lt b c = false -> lt a c = false.

(** [m] is the first of the greatest elements of [l]: what stands before
    it is smaller, what stands after it is not greater. *)
Definition first_greatest (l pre : list A) (m : A) (post : list A) : Prop :=
  l = pre ++ m :: post
  /\ Forall (fun y => lt y m = true) pre
  /\ Forall (fun y => lt m y = false) post.

Lemma first_greatest_exists (l : list A) :
  Forall comparable l -> l <> [] ->
  exists pre m post, first_greatest l pre m post.
Proof.
  induction l as [|x l IH]; intros Hc Hne; [congruence |].
  apply Forall_cons in Hc as [Hx Hc].
  destruct l as [|x' l'].
  { exists [], x, []. repeat split; constructor. }
  destruct (IH Hc ltac:(discriminate)) as (pre & m & post & Hl & Hpre & Hpost).
  assert (Hm : comparable m).
  { rewrite Forall_forall in Hc. apply Hc. rewrite Hl.
    apply elem_of_app. right. left. }
  destruct (lt x m) eqn:Hxm.
  - exists (x :: pre), m, post. split; [now rewrite Hl | split; [| exact Hpost]].
    now constructor.
  - exists [], x, (x' :: l'). split; [reflexivity | split; [constructor |]].
    rewrite Hl. rewrite Forall_forall in *. intros y Hy.
    assert (Hyc : comparable y) by (apply Hc; now rewrite Hl).
    apply elem_of_app in Hy as [Hy | Hy].
    + destruct (lt x y) eqn:Hxy; [| reflexivity].
      rewrite <- Hxm. symmetry. eapply lt_trans; eauto.
    + apply elem_of_cons in Hy as [-> | Hy]; [exact Hxm |].
      eapply lt_negtrans; [| | | exact Hxm | apply Hpost]; auto.
Qed.

Lemma insert_stable_last (m : A) (l : list A) :
  Forall (fun y => lt m y = false) l -> Py.insert_stable lt m l = l ++ [m].
Proof.
  induction 1 as [|y l Hy _ IH]; cbn; [reflexivity |].
  now rewrite Hy, IH.
Qed.

Lemma insert_stable_before_last (x m : A) (init : list A) :
  lt x m = true ->
  exists init', Py.insert_stable lt x (init ++ [m]) = init' ++ [m].
Proof.
  intros Hxm. induction init as [|y init IH]; cbn.
  - rewrite Hxm. now exists [x].
  - destruct (lt x y).
    + now exists (x :: y :: init).
    + destruct IH as [init' ->]. now exists (y :: init').
Qed.

Lemma stable_sort_rev (l : list A) :
  Py.stable_sort lt (rev l) = fold_right (Py.insert_stable lt) [] l.
Proof.
  unfold Py.stable_sort. induction l as [|x l IH]; cbn; [reflexivity |].
  now rewrite fold_left_app, IH.
Qed.

(** Sorting the reversed list in ascending order leaves the first of the
    greatest elements at the end. *)
Lemma stable_sort_rev_last (l pre : list A) (m : A) (post : list A) :
  first_greatest l pre m post ->
  exists init, Py.stable_sort lt (rev l) = init ++ [m].
Proof.
  intros (-> & Hpre & Hpost). rewrite stable_sort_rev.
  induction Hpre as [|x pre Hx _ IH]; cbn.
  - exists (fold_right (Py.insert_stable lt) [] post).
    apply insert_stable_last.
    assert (Hperm : fold_right (Py.insert_stable lt) [] post ≡ₚ post).
    { clear. induction post as [|y post IH]; cbn; [reflexivity |].
      now rewrite insert_stable_perm, IH. }
    now rewrite Hperm.
  - destruct IH as [init ->]. now apply insert_stable_before_last.
Qed.

Lemma is_run_adjacent (xs ys : list A) (a b : A) :
  Py.is_run lt (xs ++ a :: b :: ys) = true -> lt b a = false.
Proof.
  induction xs as [|x xs IH].
  - cbn. intros H. apply andb_true_iff in H as [H _].
    now apply negb_true_iff in H.
  - intros H. apply IH.
    change ((x :: xs) ++ a :: b :: ys) with (x :: (xs ++ a :: b :: ys)) in H.
    destruct xs; cbn in H |- *; apply andb_true_iff in H as [_ H]; exact H.
Qed.

(** [sort(reverse=True)] puts the first of the greatest elements first. *)
Lemma sort_reverse_head (l pre : list A) (m : A) (post : list A) :
  first_greatest l pre m post ->
  exists rest, Py.sort_reverse lt l = m :: rest.
Proof.
  intros Hfg. unfold Py.sort_reverse, Py.sort.
  destruct (Py.is_run lt (rev l)) eqn:Hrun.
  - rewrite rev_involutive.
    destruct Hfg as (-> & Hpre & _).
    destruct pre as [|p pre _] using rev_ind; [now eexists |].
    exfalso. apply Forall_app in Hpre as [_ Hp].
    rewrite Forall_singleton in Hp.
    assert (Hrev : rev ((pre ++ [p]) ++ m :: post)
                   = rev post ++ m :: p :: rev pre).
    { rewrite !rev_app_distr. cbn. now rewrite <- !app_assoc. }
    rewrite Hrev in Hrun.
    apply is_run_adjacent in Hrun. congruence.
  - destruct (stable_sort_rev_last l pre m post Hfg) as [init ->].
    rewrite rev_app_distr. now eexists.
Qed.
End SortHead.

(** ** Reading one entry of the header *)

Section Splitting.
Variable sep : ascii.

Lemma contains_app_sep (a b : string) :
  Py.contains sep (a ++ String sep b) = true.
Proof.
  induction a as [|c a IH]; simpl.
  - now rewrite Ascii.eqb_refl.
  - rewrite IH. apply orb_true_r.
Qed.

Lemma split_without (a : string) :
  Py.contains sep a = false -> Py.split sep a = [a].
Proof.
  induction a as [|c a IH]; simpl; [reflexivity |].
  intros H. apply orb_false_iff in H as [Hc Ha].
  rewrite Hc, (IH Ha). reflexivity.
Qed.

Lemma split_app (a b : string) :
  Py.contains sep a = false ->
  Py.split sep (a ++ String sep b) = a :: Py.split sep b.
Proof.
  induction a as [|c a IH]; simpl.
  - now rewrite Ascii.eqb_refl.
  - intros H. apply orb_false_iff in H as [Hc Ha].
    rewrite Hc, (IH Ha). reflexivity.
Qed.

Lemma split1_without (a : string) :
  Py.contains sep a = false -> Py.split1 sep a = [a].
Proof.
  induction a as [|c a IH]; simpl; [reflexivity |].
  intros H. apply orb_false_iff in H as [Hc Ha].
  rewrite Hc, (IH Ha). reflexivity.
Qed.

Lemma split1_app (a b : string) :
  Py.contains sep a = false ->
  Py.split1 sep (a ++ String sep b) = [a; b].
Proof.
  induction a as [|c a IH]; simpl.
  - now rewrite Ascii.eqb_refl.
  - intros H. apply orb_false_iff in H as [Hc Ha].
    rewrite Hc, (IH Ha). reflexivity.
Qed.

(** Where the source unpacks [lang_tag.split(';', 1)] into two names, the
    list has two elements. *)
Lemma split1_two (s : string) :
  Py.contains sep s = true -> exists a b, Py.split1 sep s = [a; b].
Proof.
  induction s as [|c s IH]; simpl; [discriminate |].
  destruct (Ascii.eqb c sep); [eauto |].
  cbn [orb]. intros H. destruct (IH H) as (a & b & ->). eauto.
Qed.
End Splitting.

Section ParseTag.
Variable float : string -> option Py.float64.

Let normal (lang : string) : string :=
  Language.primary_subtag (Py.lower (Py.strip lang)).

Lemma primary_subtag_region (a b : string) :
  Py.contains "-" a = false ->
  Language.primary_subtag (a ++ String "-" b) = a
  /\ Language.primary_subtag a = a.
Proof.
  intros Ha. unfold Language.primary_subtag.
  rewrite contains_app_sep, split_app, Ha by assumption. split; reflexivity.
Qed.

Lemma parse_tag_bare (lang : string) :
  Py.contains ";" lang = false ->
  Language.parse_tag float lang = (normal lang, Py.one).
Proof. intros H. unfold Language.parse_tag. now rewrite H. Qed.

Lemma parse_tag_parameters (lang quality : string) :
  Py.contains ";" lang = false ->
  Language.parse_tag float (lang ++ String ";" quality)
  = (normal lang, Language.quality_of float quality).
Proof.
  intros Hl. unfold Language.parse_tag.
  now rewrite contains_app_sep, split1_app.
Qed.

Lemma quality_of_value (name w : string) :
  Py.contains "=" name = false ->
  Py.contains "=" w = false ->
  Language.quality_of float (name ++ String "=" w) = default Py.one (float w)
  /\ forall tail,
       Language.quality_of float (name ++ String "=" (w ++ String "=" tail))
       = default Py.one (float w).
Proof.
  intros Hn Hw. unfold Language.quality_of. split; [| intros tail].
  - rewrite split_app, split_without by assumption.
    destruct (float w); reflexivity.
  - rewrite !split_app by assumption.
    destruct (float w); reflexivity.
Qed.

Lemma quality_of_no_value (quality : string) :
  Py.contains "=" quality = false ->
  Language.quality_of float quality = Py.one.
Proof.
  intros H. unfold Language.quality_of. now rewrite split_without.
Qed.
End ParseTag.

(** ** The language negotiator: which entry of the header wins *)

(** C3 as the source has it.  With no configured code in the override
    parameter, each entry of the comma-separated header gives a language (the
    text before the first [;], stripped, lower-cased and cut at its first
    [-]) and a weight: 1.0 without a [;]; otherwise the text after the first
    [;] is cut at every [=], and the weight is the float its second piece
    reads as, whatever the first piece is, or 1.0 when there is no second
    piece or it does not read as a float.  The entries whose language is configured
    survive, in the order of the header.  When no surviving weight is NaN
    the result is the language of the first surviving entry of greatest
    weight: every survivor before it weighs less, no survivor after it
    weighs more; with no survivor it is the configured default.  The header
    [fr;q=0.5, ru;q=0.9, xx;q=1.0] gives [ru] under the configured set. *)
Theorem detect_language_highest_weight
  (float : string -> option Py.float64) (cfg : Settings)
  (request : Language.Request) :
  let entries :=
    map (Language.parse_tag float)
        (Py.split "," (default "" (Language.accept_language_header request))) in
  let survivors := filter (fun e => fst e ∈ supported_languages cfg) entries in
  let normal lang := Language.primary_subtag (Py.lower (Py.strip lang)) in
  (forall l, Language.query_lang request = Some l -> l ∉ supported_languages cfg) ->
  Forall (fun e => Py.is_nan (snd e) = false) survivors ->
  ((survivors = []
    /\ Language._detect_language float cfg request = default_language cfg)
   \/ exists pre sel post,
        survivors = (pre ++ sel :: post)%list
        /\ Forall (fun e => SFltb (snd e) (snd sel) = true) pre
        /\ Forall (fun e => SFltb (snd sel) (snd e) = false) post
        /\ Language._detect_language float cfg request = fst sel)
  /\ (forall lang, Py.contains ";" lang = false ->
        Language.parse_tag float lang = (normal lang, Py.one))
  /\ (forall lang quality, Py.contains ";" lang = false ->
        Language.parse_tag float (lang ++ String ";" quality)
        = (normal lang, Language.quality_of float quality))
  /\ (forall quality, Py.contains "=" quality = false ->
        Language.quality_of float quality = Py.one)
  /\ (forall name w,
        Py.contains "=" name = false ->
        Py.contains "=" w = false ->
        Language.quality_of float (name ++ String "=" w) = default Py.one (float w)
        /\ forall tail,
             Language.quality_of float (name ++ String "=" (w ++ String "=" tail))
             = default Py.one (float w))
  /\ (forall a b, Py.contains "-" a = false ->
        Language.primary_subtag (a ++ String "-" b) = a
        /\ Language.primary_subtag a = a)
  /\ Language._detect_language float settings
       {| Language.query_lang := None;
          Language.accept_language_header := Some "fr;q=0.5, ru;q=0.9, xx;q=1.0" |}
     = "ru".
Proof.
  intros entries survivors normal Hoverride Hnan.
  split; [| split; [| split; [| split; [| split; [| split]]]]].
  - assert (Hdetect : Language._detect_language float cfg request
                      = Language.detect_from_header float cfg request).
    { unfold Language._detect_language.
      destruct (Language.query_lang request) as [l|]; [| reflexivity].
      unfold Py.str_in. rewrite bool_decide_eq_false_2 by (now apply Hoverride).
      now rewrite andb_false_r. }
    rewrite Hdetect. unfold Language.detect_from_header.
    rewrite collect_filter. fold entries. fold survivors.
    destruct survivors as [|e rest] eqn:Hs; [left; split; reflexivity |].
    right.
    destruct (first_greatest_exists Language.weight_lt
                (fun e => Py.is_nan (snd e) = false)) with (l := e :: rest)
      as (pre & sel & post & Hfg); [| | exact Hnan | discriminate |].
    + intros a b c _ _ _. apply SFltb_trans.
    + intros a b c Ha Hb Hc. now apply SFltb_negtrans.
    + destruct (sort_reverse_head Language.weight_lt _ _ _ _ Hfg) as [sorted ->].
      destruct Hfg as (Hl & Hpre & Hpost).
      exists pre, sel, post. repeat split; assumption.
  - apply parse_tag_bare.
  - apply parse_tag_parameters.
  - apply quality_of_no_value.
  - apply quality_of_value.
  - apply primary_subtag_region.
  - vm_compute. reflexivity.
Qed.

Lemma detect_language_highest_weight_witness :
  Language._detect_language Py.float settings Deployment.browser_request = "ru"
  /\ exists pre sel post,
       filter (fun e => fst e ∈ supported_languages settings)
         (map (Language.parse_tag Py.float) (Py.split "," Deployment.browser_header))
       = (pre ++ sel :: post)%list
       /\ Forall (fun e => SFltb (snd e) (snd sel) = true) pre
       /\ Forall (fun e => SFltb (snd sel) (snd e) = false) post
       /\ Language._detect_language Py.float settings Deployment.browser_request
          = fst sel.
Proof.
  split; [vm_compute; reflexivity |].
  destruct (detect_language_highest_weight Py.float settings Deployment.browser_request)
    as ([[Hnone _] | Hsel] & _).
  - intros l Hl. injection Hl as <-.
    refine (bool_decide_unpack _ _). vm_compute. exact I.
  - vm_compute. repeat constructor.
  - vm_compute in Hnone. discriminate Hnone.
  - exact Hsel.
Defined.

(** C3 as stated fails on two counts.  In the header
    [ru;q=0.5, en;q=nan, uz;q=0.9] the three entries survive and [ru] is
    selected although [uz] weighs more.  In the header [uz;v=0.1, ru;q=0.5]
    the entry [uz] has no [q], yet its weight is 0.1 and not 1.0, and [ru]
    is selected. *)
Lemma detect_language_not_highest_weight :
  (Language.collect Py.float settings (Py.split "," "ru;q=0.5, en;q=nan, uz;q=0.9")
   = [("ru", S754_finite false 4503599627370496 (-53));
      ("en", S754_nan);
      ("uz", S754_finite false 8106479329266893 (-53))]
   /\ SFltb (S754_finite false 4503599627370496 (-53))
            (S754_finite false 8106479329266893 (-53)) = true
   /\ Language._detect_language Py.float settings
        {| Language.query_lang := None;
           Language.accept_language_header := Some "ru;q=0.5, en;q=nan, uz;q=0.9" |}
      = "ru")
  /\ (Language.parse_tag Py.float "uz;v=0.1"
      = ("uz", S754_finite false 7205759403792794 (-56))
      /\ SFltb (S754_finite false 7205759403792794 (-56)) Py.one = true
      /\ Language._detect_language Py.float settings
           {| Language.query_lang := None;
              Language.accept_language_header := Some "uz;v=0.1, ru;q=0.5" |}
         = "ru").
Proof. vm_compute. repeat split; reflexivity. Qed.

(** * Further properties of the source *)

(** ** The multilingual dictionary of an entity *)

Section MultilingualDict.
Variables (obj : gmap string json) (field_prefix : string).

Lemma field_of_inj (l1 l2 : string) :
  Helper.field_of field_prefix l1 = Helper.field_of field_prefix l2 -> l1 = l2.
Proof.
  unfold Helper.field_of. induction field_prefix as [|c p IH]; simpl.
  - intros H. now injection H.
  - intros H. injection H as H. auto.
Qed.

Lemma get_fold_lookup (languages : list string) (acc : gmap string json) (lang : string) :
  fold_left
    (fun result l =>
       <[l := default (JStr "") (obj !! Helper.field_of field_prefix l)]> result)
    languages acc !! lang
  = if decide (lang ∈ languages)
    then Some (default (JStr "") (obj !! Helper.field_of field_prefix lang))
    else acc !! lang.
Proof.
  revert acc. induction languages as [|l rest IH]; intros acc; cbn [fold_left].
  - rewrite decide_False by apply not_elem_of_nil. reflexivity.
  - rewrite IH. destruct (decide (lang ∈ rest)) as [Hin | Hin].
    + rewrite decide_True by (now right). reflexivity.
    + destruct (decide (lang = l)) as [-> | Hne].
      * rewrite decide_True by left. apply lookup_insert_eq.
      * rewrite decide_False by (rewrite elem_of_cons; tauto).
        now apply lookup_insert_ne.
Qed.
End MultilingualDict.

(** X1: the dictionary built for an entity has exactly the configured
    language codes as keys, and under each the raw value of that language's
    field, the empty string when the entity has no such field; no fallback
    to another language takes place. *)
Theorem get_multilingual_dict_lookup
  (cfg : Settings) (obj : gmap string json) (field_prefix lang : string) :
  Helper.get_multilingual_dict cfg obj field_prefix !! lang
  = if decide (lang ∈ supported_languages cfg)
    then Some (default (JStr "") (obj !! Helper.field_of field_prefix lang))
    else None.
Proof.
  unfold Helper.get_multilingual_dict. rewrite get_fold_lookup.
  destruct (decide _); [reflexivity | apply lookup_empty].
Qed.

Section SetFields.
Variables (field_prefix : string) (values : gmap string json).

(** What the field of [lang] holds once it has been offered [values]. *)
Let offered (obj : gmap string json) (lang : string) : option json :=
  match obj !! Helper.field_of field_prefix lang with
  | Some old => Some (default old (values !! lang))
  | None => None
  end.

Lemma set_one_lookup (obj : gmap string json) (lang name : string) :
  Helper.set_one field_prefix values obj lang !! name
  = if decide (name = Helper.field_of field_prefix lang)
    then offered obj lang else obj !! name.
Proof.
  unfold Helper.set_one, offered.
  destruct (decide (name = _)) as [-> | Hne].
  - destruct (values !! lang) as [v|], (obj !! Helper.field_of field_prefix lang)
      as [old|] eqn:Hold; cbn; try (now rewrite Hold); try reflexivity.
    apply lookup_insert_eq.
  - destruct (values !! lang) as [v|], (obj !! Helper.field_of field_prefix lang);
      try reflexivity.
    now apply lookup_insert_ne.
Qed.

Lemma set_fold_lookup (languages : list string) (obj : gmap string json) :
  let result := fold_left (Helper.set_one field_prefix values) languages obj in
  (forall lang, lang ∈ languages ->
     result !! Helper.field_of field_prefix lang = offered obj lang)
  /\ (forall name,
        (forall lang, lang ∈ languages -> name <> Helper.field_of field_prefix lang) ->
        result !! name = obj !! name).
Proof.
  revert obj. induction languages as [|l rest IH]; intros obj; simpl.
  - split; [intros lang H; inversion H | reflexivity].
  - destruct (IH (Helper.set_one field_prefix values obj l)) as [IHin IHout].
    split.
    + intros lang Hin.
      destruct (decide (lang ∈ rest)) as [Hrest | Hrest].
      * rewrite (IHin lang Hrest). unfold offered at 1.
        rewrite set_one_lookup.
        destruct (decide (_ = _)) as [Heq | Hne]; [| reflexivity].
        apply field_of_inj in Heq. subst l. unfold offered.
        destruct (obj !! Helper.field_of field_prefix lang) as [old|]; [| reflexivity].
        destruct (values !! lang); reflexivity.
      * apply elem_of_cons in Hin as [-> | Hin]; [| contradiction].
        rewrite IHout.
        -- rewrite set_one_lookup. now rewrite decide_True.
        -- intros lang Hl Heq. apply field_of_inj in Heq. now subst.
    + intros name Hname. rewrite IHout.
      * rewrite set_one_lookup. rewrite decide_False; [reflexivity |].
        apply Hname. left.
      * intros lang Hl. apply Hname. now right.
Qed.
End SetFields.

(** X2: setting a multilingual field writes, for each configured language
    present in the payload, the field of that language if the entity has
    it, and nothing else: a field the entity lacks is not created, a
    language missing from the payload keeps its value, and every other
    attribute is left as it was. *)
Theorem set_multilingual_field_frame
  (cfg : Settings) (obj : gmap string json) (field_prefix : string)
  (values : gmap string json) :
  let result := Helper.set_multilingual_field cfg obj field_prefix values in
  (forall lang, lang ∈ supported_languages cfg ->
     result !! Helper.field_of field_prefix lang
     = match obj !! Helper.field_of field_prefix lang with
       | Some old => Some (default old (values !! lang))
       | None => None
       end)
  /\ (forall name,
        (forall lang, lang ∈ supported_languages cfg ->
           name <> Helper.field_of field_prefix lang) ->
        result !! name = obj !! name)
  /\ dom result = dom obj.
Proof.
  intros result.
  destruct (set_fold_lookup field_prefix values (supported_languages cfg) obj)
    as [Hin Hout].
  split; [exact Hin | split; [exact Hout |]].
  apply set_eq. intros name. rewrite !elem_of_dom.
  destruct (decide (Exists (fun lang => name = Helper.field_of field_prefix lang)
                      (supported_languages cfg))) as [Hyes | Hno];
    rewrite Exists_exists in *; [destruct Hyes as (lang & Hl & ->) |].
  - unfold result, Helper.set_multilingual_field. rewrite (Hin lang Hl).
    destruct (obj !! _); [| reflexivity].
    split; eauto.
  - unfold result, Helper.set_multilingual_field. rewrite Hout; [reflexivity |].
    intros lang Hl ->. apply Hno. eauto.
Qed.

(** X3: reading the dictionary back after setting a field gives, for each
    configured language, the payload's value when the payload has one and
    the entity has the field, the old value when the payload has none, and
    the empty string when the entity lacks the field. *)
Theorem get_after_set_multilingual_field
  (cfg : Settings) (obj : gmap string json) (field_prefix : string)
  (values : gmap string json) (lang : string) :
  lang ∈ supported_languages cfg ->
  Helper.get_multilingual_dict cfg
    (Helper.set_multilingual_field cfg obj field_prefix values) field_prefix !! lang
  = Some match obj !! Helper.field_of field_prefix lang with
         | Some old => default old (values !! lang)
         | None => JStr ""
         end.
Proof.
  intros Hin. unfold Helper.get_multilingual_dict. rewrite get_fold_lookup.
  rewrite decide_True by assumption.
  destruct (set_fold_lookup field_prefix values (supported_languages cfg) obj)
    as [Hset _].
  unfold Helper.set_multilingual_field. rewrite (Hset lang Hin).
  destruct (obj !! _); reflexivity.
Qed.

Lemma get_after_set_multilingual_field_witness :
  "ru" ∈ supported_languages settings
  /\ Helper.get_multilingual_dict settings
       (Helper.set_multilingual_field settings Samples.news "title" Samples.titles)
       "title" !! "ru" = Some (JStr "Novost").
Proof.
  assert (Hin : "ru" ∈ supported_languages settings)
    by (refine (bool_decide_unpack _ _); vm_compute; exact I).
  split; [exact Hin |].
  rewrite (get_after_set_multilingual_field settings Samples.news "title"
             Samples.titles "ru" Hin).
  vm_compute. reflexivity.
Defined.

Lemma set_fold_own_values (cfg : Settings) (obj : gmap string json)
  (field_prefix : string) (languages : list string) :
  (forall lang, lang ∈ languages -> lang ∈ supported_languages cfg) ->
  fold_left
    (Helper.set_one field_prefix (Helper.get_multilingual_dict cfg obj field_prefix))
    languages obj = obj.
Proof.
  induction languages as [|l rest IH]; intros Hsub; [reflexivity |].
  cbn [fold_left].
  assert (Hone : Helper.set_one field_prefix
                   (Helper.get_multilingual_dict cfg obj field_prefix) obj l = obj).
  { unfold Helper.set_one, Helper.get_multilingual_dict. rewrite get_fold_lookup.
    rewrite decide_True by (apply Hsub; left).
    destruct (obj !! Helper.field_of field_prefix l) as [old|] eqn:Hold;
      [| reflexivity].
    now apply insert_id. }
  rewrite Hone. apply IH. intros lang Hl. apply Hsub. now right.
Qed.

(** X4: writing back the dictionary that was read from an entity changes
    nothing. *)
Theorem set_multilingual_field_of_own_dict
  (cfg : Settings) (obj : gmap string json) (field_prefix : string) :
  Helper.set_multilingual_field cfg obj field_prefix
    (Helper.get_multilingual_dict cfg obj field_prefix) = obj.
Proof.
  unfold Helper.set_multilingual_field. apply set_fold_own_values. auto.
Qed.

Lemma strip_nonempty_truthy (s : string) : Py.strip s <> "" -> Py.truthy s = true.
Proof. destruct s; [intros H; now contradiction H | reflexivity]. Qed.

(** X5: a payload accepted by the validator for the configured languages,
    once set on an entity that has the field of every configured language,
    is what the resolver returns in each configured language: no fallback to
    another language is needed. *)
Theorem validated_payload_resolves
  (cfg : Settings) (obj : gmap string json) (field_prefix : string)
  (values : gmap string json) (lang : string) :
  Language.validate_multilingual_data cfg values None = Ok true ->
  (forall l, l ∈ supported_languages cfg ->
     is_Some (obj !! Helper.field_of field_prefix l)) ->
  lang ∈ supported_languages cfg ->
  exists s,
    values !! lang = Some (JStr s)
    /\ Language.get_localized_model_field cfg
         (Helper.set_multilingual_field cfg obj field_prefix values)
         field_prefix lang = JStr s.
Proof.
  intros Hvalid Hfields Hin.
  destruct (proj1 (validate_loop_true values (supported_languages cfg)) Hvalid lang Hin)
    as (s & Hs & Hne).
  exists s. split; [exact Hs |].
  destruct (set_fold_lookup field_prefix values (supported_languages cfg) obj)
    as [Hset _].
  unfold Language.get_localized_model_field, getattr.
  change (field_prefix ++ "_" ++ lang) with (Helper.field_of field_prefix lang).
  unfold Helper.set_multilingual_field. rewrite (Hset lang Hin).
  destruct (Hfields lang Hin) as [old ->]. rewrite Hs. cbn.
  now rewrite (strip_nonempty_truthy s Hne).
Qed.

Lemma validated_payload_resolves_witness :
  Language.validate_multilingual_data settings Samples.titles None = Ok true
  /\ exists s,
       Samples.titles !! "en" = Some (JStr s)
       /\ Language.get_localized_model_field settings
            (Helper.set_multilingual_field settings Samples.news "title" Samples.titles)
            "title" "en" = JStr s.
Proof.
  assert (Hvalid : Language.validate_multilingual_data settings Samples.titles None
                   = Ok true) by (vm_compute; reflexivity).
  split; [exact Hvalid |].
  apply (validated_payload_resolves settings Samples.news "title" Samples.titles "en"
           Hvalid).
  - intros l Hl. change (supported_languages settings) with ["uz"; "ru"; "en"] in Hl.
    repeat (apply elem_of_cons in Hl as [-> | Hl]; [vm_compute; eauto |]).
    inversion Hl.
  - refine (bool_decide_unpack _ _). vm_compute. exact I.
Defined.

(** ** The middleware around a request *)

Lemma detect_language_member
  (float : string -> option Py.float64) (cfg : Settings) (request : Language.Request) :
  default_language cfg ∈ supported_languages cfg ->
  Language._detect_language float cfg request ∈ supported_languages cfg.
Proof.
  intros Hdefault.
  assert (Hheader :
    Language.detect_from_header float cfg request ∈ supported_languages cfg).
  { destruct (detect_from_header_cases float cfg request)
      as [[_ ->] | (e & He & ->)]; [exact Hdefault |].
    eapply collect_supported, He. }
  unfold Language._detect_language.
  destruct (Language.query_lang request) as [l|]; [| exact Hheader].
  destruct (Py.truthy l); cbn [andb]; [| exact Hheader].
  unfold Py.str_in. case_bool_decide; [assumption | exact Hheader].
Qed.

(** X6: when the rest of the application answers, the middleware returns
    that response with its [Content-Language] header replaced by the
    negotiated language, which is a configured language, and with its
    status, body and other headers untouched; the application was run on a
    state from which [get_language_from_request] reads that same language,
    and from which [localize_text] returns what the lookup in that language
    returns, for substitution arguments none of which is named [request],
    [key], [self] or [language], and raises [TypeError] for the others.
    When the application raises, the middleware raises the same exception. *)
Theorem dispatch_content_language
  (float : string -> option Py.float64)
  (format : string -> gmap string json -> result string)
  (cfg : Settings) (localization_cache : gmap string json)
  (request : Language.Request)
  (call_next : Language.Request -> Middleware.State -> result Middleware.Response) :
  default_language cfg ∈ supported_languages cfg ->
  let detected := Language._detect_language float cfg request in
  let state := Middleware.state_for float format cfg localization_cache request in
  let refused := ["request"; "key"; "self"; "language"] in
  detected ∈ supported_languages cfg
  /\ Middleware.get_language_from_request cfg state = detected
  /\ (forall key kwargs,
        ((forall name, name ∈ refused -> kwargs !! name = None) ->
         Middleware.localize_text state key kwargs
         = Language._get_localized_text format localization_cache key detected kwargs
         /\ exists text, Middleware.localize_text state key kwargs = Ok text)
        /\ ((exists name, name ∈ refused /\ is_Some (kwargs !! name)) ->
            Middleware.localize_text state key kwargs = Raise TypeError))
  /\ match call_next request state with
     | Ok response =>
         exists response',
           Middleware.dispatch float format cfg localization_cache request call_next
           = Ok response'
           /\ Middleware.headers response' !! "content-language" = Some detected
           /\ (forall name, name <> "content-language" ->
                 Middleware.headers response' !! name
                 = Middleware.headers response !! name)
           /\ Middleware.status_code response' = Middleware.status_code response
           /\ Middleware.body response' = Middleware.body response
     | Raise e =>
         Middleware.dispatch float format cfg localization_cache request call_next
         = Raise e
     end.
Proof.
  intros Hdefault detected state refused.
  split; [now apply detect_language_member |].
  split; [reflexivity | split].
  - intros key kwargs.
    unfold Middleware.localize_text, state, Middleware.state_for.
    cbn [Middleware.localize]. fold detected. split.
    + intros Hfree.
      assert (H1 : Language.binds ["request"; "key"] kwargs = false).
      { apply binds_false. intros name Hin. apply Hfree. unfold refused.
        repeat (apply elem_of_cons in Hin as [-> | Hin]; [set_solver |]).
        inversion Hin. }
      assert (H2 : Language.binds ["key"] kwargs = false).
      { apply binds_false. intros name Hin. apply Hfree. unfold refused.
        repeat (apply elem_of_cons in Hin as [-> | Hin]; [set_solver |]).
        inversion Hin. }
      assert (H3 : Language.binds ["self"; "key"; "language"] kwargs = false).
      { apply binds_false. intros name Hin. apply Hfree. unfold refused.
        repeat (apply elem_of_cons in Hin as [-> | Hin]; [set_solver |]).
        inversion Hin. }
      rewrite H1, H2. split; [reflexivity |].
      now apply localized_text_returns.
    + intros (name & Hin & Hsome).
      destruct (Language.binds ["request"; "key"] kwargs) eqn:H1; [reflexivity |].
      destruct (Language.binds ["key"] kwargs) eqn:H2; [reflexivity |].
      rewrite <- binds_false in H1.
      assert (H3 : Language.binds ["self"; "key"; "language"] kwargs = true).
      { apply binds_true. exists name. split; [| exact Hsome].
        unfold refused in Hin.
        repeat (apply elem_of_cons in Hin as [-> | Hin];
                [first [ now (rewrite H1 in Hsome by set_solver; destruct Hsome)
                       | set_solver ] |]).
        inversion Hin. }
      unfold Language._get_localized_text. now rewrite H3.
  - unfold Middleware.dispatch. fold state.
    destruct (call_next request state) as [response|e]; [| reflexivity].
    eexists. split; [reflexivity |].
    cbn [Middleware.set_header Middleware.headers Middleware.status_code Middleware.body].
    change (Py.lower "Content-Language") with "content-language".
    split; [apply lookup_insert_eq | split; [| split; reflexivity]].
    intros name Hne. now apply lookup_insert_ne.
Qed.

Lemma dispatch_content_language_witness :
  default_language settings ∈ supported_languages settings
  /\ exists response,
       Middleware.dispatch Py.float Builtins.format settings Deployment.phrases
         Deployment.browser_request Samples.call_next = Ok response
       /\ Middleware.headers response !! "content-language" = Some "ru"
       /\ Middleware.body response = "ru".
Proof.
  assert (Hin : default_language settings ∈ supported_languages settings)
    by (refine (bool_decide_unpack _ _); vm_compute; exact I).
  split; [exact Hin |].
  destruct (dispatch_content_language Py.float Builtins.format settings
              Deployment.phrases Deployment.browser_request Samples.call_next Hin)
    as (_ & _ & _ & response & Hdispatch & Hheader & _ & _ & Hbody).
  exists response. split; [exact Hdispatch | split].
  - rewrite Hheader. vm_compute. reflexivity.
  - rewrite Hbody. vm_compute. reflexivity.
Defined.

(** ** Loading the phrase files and looking a phrase up *)

(** X7: when every phrase file is readable, missing or not JSON, loading
    succeeds, and a key that the file of a configured language binds is
    looked up, without substitution arguments, as the text the file gives
    it, whatever the other files are. *)
Theorem loaded_phrase_lookup
  (format : string -> gmap string json -> result string)
  (load_json : string -> result json) (cfg : Settings)
  (language key : string) (fields : list (string * json)) (text : json) :
  (forall l, l ∈ supported_languages cfg ->
     match load_json (Language.path_join Language.localization_dir (l ++ ".json")) with
     | Ok _ | Raise FileNotFoundError | Raise JSONDecodeError => True
     | Raise _ => False
     end) ->
  language ∈ supported_languages cfg ->
  load_json (Language.path_join Language.localization_dir (language ++ ".json"))
  = Ok (JObj fields) ->
  dict_get fields key = Some text ->
  exists cache,
    Language._load_localization_files load_json cfg = Ok cache
    /\ Language._get_localized_text format cache key language ∅ = Ok text.
Proof.
  intros Hload Hin Hfile Hkey.
  destruct (load_all_tables format load_json (supported_languages cfg) ∅ Hload)
    as (cache & Hall & Hlook).
  exists cache. split; [exact Hall |].
  unfold Language._get_localized_text.
  rewrite (proj1 (binds_false _ ∅)) by (intros name _; apply lookup_empty).
  rewrite Hlook, decide_True by assumption. cbv beta. rewrite Hfile.
  unfold default, from_option, Datatypes.id. cbv beta iota.
  rewrite Hkey. reflexivity.
Qed.

Lemma loaded_phrase_lookup_witness :
  exists cache,
    Language._load_localization_files Samples.load_json settings = Ok cache
    /\ Language._get_localized_text Builtins.format cache "bye" "uz" ∅
       = Ok (JStr "Xayr").
Proof.
  apply (loaded_phrase_lookup Builtins.format Samples.load_json settings "uz" "bye"
           [("welcome", JStr "Xush kelibsiz"); ("bye", JStr "Xayr")]).
  - intros l Hl. change (supported_languages settings) with ["uz"; "ru"; "en"] in Hl.
    repeat (apply elem_of_cons in Hl as [-> | Hl]; [vm_compute; exact I |]).
    inversion Hl.
  - refine (bool_decide_unpack _ _). vm_compute. exact I.
  - reflexivity.
  - reflexivity.
Defined.

(** ** Truncating a text *)

Section Slices.
Local Open Scope nat_scope.

Lemma length_take (n : nat) (s : string) :
  String.length (Text.take n s) = Nat.min n (String.length s).
Proof.
  revert s. induction n as [|n IH]; intros [|c s]; simpl; try reflexivity.
  now rewrite IH.
Qed.

Lemma length_append (a b : string) :
  String.length (a ++ b) = String.length a + String.length b.
Proof. induction a as [|c a IH]; simpl; [reflexivity | now rewrite IH]. Qed.

Lemma append_cons (c : ascii) (a b : string) :
  String c a ++ b = String c (a ++ b).
Proof. reflexivity. Qed.

Lemma take_drop (n : nat) (s : string) : Text.take n s ++ Text.drop n s = s.
Proof.
  revert s. induction n as [|n IH]; intros [|c s]; simpl; try reflexivity.
  rewrite append_cons. f_equal. apply IH.
Qed.

Lemma take_append_length (a b : string) : Text.take (String.length a) (a ++ b) = a.
Proof. induction a as [|c a IH]; simpl; [now destruct b | now rewrite IH]. Qed.

Lemma drop_append_length (a b : string) : Text.drop (String.length a) (a ++ b) = b.
Proof. induction a as [|c a IH]; simpl; [now destruct b | exact IH]. Qed.

Lemma drop_drop (n m : nat) (s : string) :
  Text.drop (n + m) s = Text.drop m (Text.drop n s).
Proof.
  revert s. induction n as [|n IH]; intros s; simpl; [reflexivity |].
  destruct s as [|c s]; [now destruct m | apply IH].
Qed.

Lemma contains_drop (c : ascii) (n : nat) (s : string) :
  Py.contains c s = false -> Py.contains c (Text.drop n s) = false.
Proof.
  revert s. induction n as [|n IH]; intros [|d s]; simpl; auto.
  intros H. apply orb_false_iff in H as [_ H]. auto.
Qed.
End Slices.

(** X8: when the suffix fits in the limit, the result of [truncate_text] is
    never longer than the limit: a text within the limit comes back as it
    is, and a longer one is cut to exactly the limit, the suffix included,
    and starts like the text. *)
Theorem truncate_text_within_limit (text : string) (max_length : Z) (suffix : string) :
  Text.len suffix <= max_length ->
  Text.len (Text.truncate_text text max_length suffix)
  = Z.min (Text.len text) max_length
  /\ (Text.len text <= max_length ->
      Text.truncate_text text max_length suffix = text)
  /\ (max_length < Text.len text ->
      Text.truncate_text text max_length suffix
      = Text.take (Z.to_nat (max_length - Text.len suffix)) text ++ suffix).
Proof.
  intros Hfit. unfold Text.truncate_text, Text.slice_to, Text.len in *.
  destruct (Z.leb_spec (Z.of_nat (String.length text)) max_length) as [Hle | Hgt].
  - split; [lia | split; [reflexivity | lia]].
  - destruct (Z.leb_spec 0 (max_length - Z.of_nat (String.length suffix))); [| lia].
    split; [| split; [lia | reflexivity]].
    rewrite length_append, length_take. lia.
Qed.

Lemma truncate_text_within_limit_witness :
  Text.len "..." <= 8
  /\ Text.truncate_text "abcdefghij" 8 "..." = "abcde..."
  /\ Text.len (Text.truncate_text "abcdefghij" 8 "...") = 8.
Proof.
  assert (Hfit : Text.len "..." <= 8) by (vm_compute; discriminate).
  split; [exact Hfit |].
  destruct (truncate_text_within_limit "abcdefghij" 8 "..." Hfit) as (Hlen & _ & Hcut).
  split; [| rewrite Hlen; reflexivity].
  rewrite Hcut by (vm_compute; reflexivity). reflexivity.
Defined.

(** X9: when the limit is shorter than both the text and the suffix, the
    slice index is negative and counts from the end of the text, so the
    result is longer than the limit: it keeps all but the last
    [len(suffix) - max_length] characters of the text and adds the suffix. *)
Theorem truncate_text_limit_below_suffix (text : string) (max_length : Z) (suffix : string) :
  max_length < Text.len text ->
  max_length < Text.len suffix ->
  Text.truncate_text text max_length suffix
  = Text.take (Z.to_nat (Text.len text - (Text.len suffix - max_length))) text ++ suffix
  /\ Text.len (Text.truncate_text text max_length suffix)
     = Z.max 0 (Text.len text - (Text.len suffix - max_length)) + Text.len suffix
  /\ max_length < Text.len (Text.truncate_text text max_length suffix).
Proof.
  intros Htext Hsuffix. unfold Text.truncate_text, Text.slice_to, Text.len in *.
  destruct (Z.leb_spec (Z.of_nat (String.length text)) max_length); [lia |].
  destruct (Z.leb_spec 0 (max_length - Z.of_nat (String.length suffix))); [lia |].
  replace (Z.of_nat (String.length text) + (max_length - Z.of_nat (String.length suffix)))
    with (Z.of_nat (String.length text) - (Z.of_nat (String.length suffix) - max_length))
    by lia.
  split; [reflexivity |].
  rewrite length_append, length_take. lia.
Qed.

Lemma truncate_text_limit_below_suffix_witness :
  Text.truncate_text "abcdef" 2 "..." = "abcde..."
  /\ 2 < Text.len (Text.truncate_text "abcdef" 2 "...").
Proof.
  destruct (truncate_text_limit_below_suffix "abcdef" 2 "...") as (Hcut & _ & Hlong);
    [vm_compute; reflexivity | vm_compute; reflexivity |].
  split; [rewrite Hcut; reflexivity | exact Hlong].
Defined.

(** ** Splitting a file name from its extension *)

Section LastOccurrence.
Variable c : ascii.

(** [rfind] answers -1 when the character is absent, and otherwise cuts the
    string at its last occurrence. *)
Lemma rfind_from_cut (s : string) (i : Z) :
  0 <= i ->
  (Path.rfind_from c s i = -1 /\ Py.contains c s = false)
  \/ exists pre post,
       s = pre ++ String c post
       /\ Path.rfind_from c s i = i + Text.len pre
       /\ Py.contains c post = false.
Proof.
  revert i. induction s as [|d s IH]; intros i Hi; simpl.
  - left. split; reflexivity.
  - destruct (IH (i + 1) ltac:(lia)) as [[Hnone Hno] | (pre & post & -> & Hpos & Hno)].
    + rewrite Hnone. simpl. destruct (Ascii.eqb_spec d c) as [-> | Hne].
      * right. exists EmptyString, s. unfold Text.len. simpl.
        split; [reflexivity | split; [lia | exact Hno]].
      * left. split; [reflexivity |]. exact Hno.
    + right. exists (String d pre), post. rewrite Hpos. unfold Text.len in *.
      destruct (Z.leb_spec 0 (i + 1 + Z.of_nat (String.length pre))); [| lia].
      split; [reflexivity | split; [simpl String.length; lia | exact Hno]].
Qed.
End LastOccurrence.

Lemma has_name_not_empty (s : string) : Path.has_name s = true -> s <> "".
Proof. destruct s; [discriminate | discriminate]. Qed.

Lemma append_empty (s : string) : s ++ "" = s.
Proof.
  induction s as [|c s IH]; [reflexivity |]. now rewrite append_cons, IH.
Qed.

Lemma contains_append (c : ascii) (a b : string) :
  Py.contains c (a ++ b) = Py.contains c a || Py.contains c b.
Proof.
  induction a as [|d a IH]; [reflexivity |].
  rewrite append_cons. simpl. now rewrite IH, orb_assoc.
Qed.

(** X10: [splitext] cuts a path in two parts that make up the path again;
    the extension is empty, or it is the last dot of the path followed by
    characters that hold neither a dot nor a slash, and then the part before
    it is not empty. *)
Theorem splitext_parts (p : string) :
  fst (Path.splitext p) ++ snd (Path.splitext p) = p
  /\ (snd (Path.splitext p) = ""
      \/ exists rest,
           snd (Path.splitext p) = String "." rest
           /\ Py.contains "." rest = false
           /\ Py.contains "/" rest = false
           /\ fst (Path.splitext p) <> "").
Proof.
  unfold Path.splitext, Path.rfind.
  pose proof (rfind_from_cut "/" p 0 ltac:(lia)) as Hsep.
  pose proof (rfind_from_cut "." p 0 ltac:(lia)) as Hdot.
  set (sepIndex := Path.rfind_from "/" p 0) in *.
  set (dotIndex := Path.rfind_from "." p 0) in *.
  clearbody sepIndex dotIndex.
  assert (Hnone : (p ++ "" = p) /\ ("" = "" \/ exists rest : string,
            "" = String "." rest /\ Py.contains "." rest = false
            /\ Py.contains "/" rest = false /\ p <> ""))
    by (split; [apply append_empty | now left]).
  destruct (Z.ltb_spec sepIndex dotIndex) as [Hlt | Hge]; [| exact Hnone].
  destruct (Path.has_name _) eqn:Hname; [| exact Hnone].
  cbn [fst snd]. split; [apply take_drop |]. right.
  assert (Hsep_low : -1 <= sepIndex).
  { destruct Hsep as [[-> _] | (pre & post & _ & -> & _)]; unfold Text.len; lia. }
  destruct Hdot as [[Hd _] | (pre & post & Hp & Hd & Hno_dot)]; [lia |].
  assert (Hdn : Z.to_nat dotIndex = String.length pre)
    by (unfold Text.len in Hd; lia).
  assert (Hdrop : Text.drop (Z.to_nat dotIndex) p = String "." post).
  { rewrite Hdn, Hp. apply drop_append_length. }
  assert (Hpost : post = Text.drop (String.length pre + 1) p).
  { rewrite drop_drop. rewrite Hp at 1. now rewrite drop_append_length. }
  exists post. split; [exact Hdrop | split; [exact Hno_dot | split]].
  - destruct Hsep as [[_ Hno] | (pre2 & post2 & Hp2 & Hs & Hno)].
    + rewrite Hp, contains_append in Hno. apply orb_false_iff in Hno as [_ Hno].
      simpl in Hno. exact Hno.
    + assert (Hlen : (String.length pre2 < String.length pre)%nat)
        by (unfold Text.len in *; lia).
      assert (Hpost2 : post2 = Text.drop (String.length pre2 + 1) p).
      { rewrite drop_drop. rewrite Hp2 at 1. now rewrite drop_append_length. }
      rewrite Hpost.
      replace (String.length pre + 1)%nat
        with ((String.length pre2 + 1) + (String.length pre - String.length pre2))%nat
        by lia.
      rewrite drop_drop, <- Hpost2. now apply contains_drop.
  - rewrite Hdn, Hp, take_append_length.
    intros ->. unfold Text.len in Hd. simpl in Hd.
    replace (Z.to_nat (dotIndex - (sepIndex + 1))) with 0%nat in Hname by lia.
    simpl in Hname. destruct (Text.drop _ p); discriminate.
Qed.

(** ** Uploads *)

Section UploadChecks.
Variable Store : Type.
Variable cfg : Upload.UploadSettings.
Variable guess_type : string -> option string.
Variable uuid4 : string.
Variable str_int : Z -> string.
Variable str_exn : exn -> string.
Variables makedirs : string -> Store -> result unit * Store.
Variable write_file : string -> string -> Store -> result unit * Store.
Variable validate_and_resize_image : string -> Store -> result unit * Store.
Variable path_exists : string -> Store -> bool.
Variable remove : string -> Store -> result unit * Store.

Let save_uploaded_file :=
  Upload.save_uploaded_file Store cfg guess_type uuid4 str_int str_exn
    makedirs write_file validate_and_resize_image path_exists remove.

(** The extension of a file name as the checks see it. *)
Let extension (name : string) : string := Py.lower (snd (Path.splitext name)).

(** An extension allowed for one of the requested kinds of file. *)
Let extension_allowed (allowed_types : list string) (ext : string) : Prop :=
  ("image" ∈ allowed_types /\ ext ∈ Upload.allowed_image_extensions cfg)
  \/ ("document" ∈ allowed_types /\ ext ∈ Upload.allowed_document_extensions cfg).

(** A MIME type of one of the requested kinds. *)
Let mime_allowed (allowed_types : list string) (mime : string) : Prop :=
  ("image" ∈ allowed_types /\ String.prefix "image/" mime = true)
  \/ ("document" ∈ allowed_types
      /\ (String.prefix "application/" mime = true
          \/ String.prefix "text/" mime = true)).

Lemma is_valid_file_allowed (allowed_types : list string) (ext : string) :
  Upload.is_valid_file cfg allowed_types ext = true <->
  extension_allowed allowed_types ext.
Proof.
  unfold Upload.is_valid_file, extension_allowed, Py.str_in.
  rewrite orb_true_iff, !andb_true_iff, !bool_decide_eq_true. reflexivity.
Qed.

(** The last resort of the MIME test never lets anything through that the
    two tests before it refused. *)
Lemma mime_accepted_allowed (allowed_types : list string) (mime : string) :
  mime <> "" ->
  Upload.mime_accepted allowed_types (Some mime) = true <->
  mime_allowed allowed_types mime.
Proof.
  intros Hne. unfold Upload.mime_accepted, mime_allowed, Py.str_in.
  assert (Htruthy : Py.truthy mime = true) by (destruct mime; [congruence | reflexivity]).
  rewrite Htruthy. cbn [negb].
  destruct (decide ("image" ∈ allowed_types)) as [Hi | Hi];
    [rewrite (bool_decide_eq_true_2 _ Hi) | rewrite (bool_decide_eq_false_2 _ Hi)];
    (destruct (decide ("document" ∈ allowed_types)) as [Hd | Hd];
     [rewrite (bool_decide_eq_true_2 _ Hd) | rewrite (bool_decide_eq_false_2 _ Hd)]);
    cbn [andb];
    destruct (String.prefix "image/" mime) eqn:Himg;
    destruct (String.prefix "application/" mime) eqn:Happ;
    destruct (String.prefix "text/" mime) eqn:Htxt;
    cbn [orb];
    try (split; [intros _ | reflexivity]; tauto);
    (split; [| intros [[? ?] | [? [? | ?]]]; try contradiction; discriminate]);
    rewrite bool_decide_eq_true; unfold Upload.allowed_mimes, Py.str_in;
    try rewrite (bool_decide_eq_true_2 _ Hi);
    try rewrite (bool_decide_eq_false_2 _ Hi);
    try rewrite (bool_decide_eq_true_2 _ Hd);
    try rewrite (bool_decide_eq_false_2 _ Hd);
    unfold Upload.image_mimes, Upload.document_mimes; cbn [app];
    intros Hin;
    repeat (apply elem_of_cons in Hin as [-> | Hin]; [discriminate |]);
    inversion Hin.
Qed.

(** X11: an upload is refused before the storage is touched, with the
    storage left as it was, when it has no file name (400), when it is
    larger than the configured maximum, whatever its name (413), when its
    lower-cased extension is not allowed for any requested kind (400), and
    when the MIME type guessed from its name is of no requested kind (400). *)
Theorem upload_refused_before_storage
  (file : Upload.UploadFile) (folder : string) (allowed_types : list string)
  (st : Store) :
  (Upload.filename file = None \/ Upload.filename file = Some "" ->
   save_uploaded_file file folder allowed_types st
   = (Raise (HTTPException HTTP_400_BAD_REQUEST "No file provided"), st))
  /\ (forall name,
        Upload.filename file = Some name -> name <> "" ->
        (Upload.max_file_size cfg < Text.len (Upload.content file) ->
         exists detail,
           save_uploaded_file file folder allowed_types st
           = (Raise (HTTPException Upload.HTTP_413_REQUEST_ENTITY_TOO_LARGE detail), st))
        /\ (Text.len (Upload.content file) <= Upload.max_file_size cfg ->
            ~ extension_allowed allowed_types (extension name)
            \/ (exists mime, guess_type name = Some mime /\ mime <> ""
                             /\ ~ mime_allowed allowed_types mime) ->
            exists detail,
              save_uploaded_file file folder allowed_types st
              = (Raise (HTTPException HTTP_400_BAD_REQUEST detail), st))).
Proof.
  unfold save_uploaded_file, Upload.save_uploaded_file, Upload.bad_request.
  split.
  - intros [-> | ->]; reflexivity.
  - intros name -> Hname.
    assert (Htruthy : Py.truthy name = true)
      by (destruct name; [congruence | reflexivity]).
    rewrite Htruthy. cbn [negb]. split.
    + intros Hbig.
      destruct (Z.ltb_spec (Upload.max_file_size cfg) (Text.len (Upload.content file)));
        [eauto | lia].
    + intros Hsmall Hbad.
      destruct (Z.ltb_spec (Upload.max_file_size cfg) (Text.len (Upload.content file)));
        [lia |].
      fold (extension name).
      destruct (Upload.is_valid_file cfg allowed_types (extension name)) eqn:Hvalid;
        cbn [negb]; [| eauto].
      apply is_valid_file_allowed in Hvalid.
      destruct Hbad as [Hext | (mime & Hguess & Hne & Hmime)]; [contradiction |].
      destruct (Upload.mime_accepted allowed_types (guess_type name)) eqn:Hacc;
        cbn [negb]; [| eauto].
      rewrite Hguess in Hacc. apply (mime_accepted_allowed _ _ Hne) in Hacc.
      contradiction.
Qed.

(** X12: an upload that is accepted has a non-empty name, a size within the
    configured maximum, a lower-cased extension allowed for one of the
    requested kinds and, when a MIME type is guessed from its name, one of a
    requested kind; the path returned is [static/uploads/], the folder, a
    slash, the fresh identifier and that extension. *)
Theorem upload_accepted_checked
  (file : Upload.UploadFile) (folder : string) (allowed_types : list string)
  (st st' : Store) (file_path : string) :
  save_uploaded_file file folder allowed_types st = (Ok file_path, st') ->
  exists name,
    Upload.filename file = Some name
    /\ name <> ""
    /\ Text.len (Upload.content file) <= Upload.max_file_size cfg
    /\ extension_allowed allowed_types (extension name)
    /\ (forall mime, guess_type name = Some mime -> mime <> "" ->
          mime_allowed allowed_types mime)
    /\ file_path = "static/uploads/" ++ folder ++ "/" ++ uuid4 ++ extension name.
Proof.
  unfold save_uploaded_file, Upload.save_uploaded_file, Upload.bad_request.
  destruct (Upload.filename file) as [name|]; [| discriminate].
  destruct (Py.truthy name) eqn:Htruthy; cbn [negb]; [| discriminate].
  destruct (Z.ltb_spec (Upload.max_file_size cfg) (Text.len (Upload.content file)));
    [discriminate |].
  fold (extension name).
  destruct (Upload.is_valid_file cfg allowed_types (extension name)) eqn:Hvalid;
    cbn [negb]; [| discriminate].
  destruct (Upload.mime_accepted allowed_types (guess_type name)) eqn:Hacc;
    cbn [negb]; [| discriminate].
  intros Hrun. exists name.
  assert (Hpath : file_path = "static/uploads/" ++ folder ++ "/" ++ uuid4 ++ extension name).
  { revert Hrun.
    destruct (makedirs _ st) as [[[]|e] st1]; [| discriminate].
    destruct (write_file _ _ st1) as [[[]|e] st2]; [| discriminate].
    destruct (_ && _).
    - destruct (validate_and_resize_image _ st2) as [[[]|e] st3].
      + intros Heq. injection Heq as <- _.
        reflexivity.
      + destruct (path_exists _ st3); [| discriminate].
        destruct (remove _ st3) as [[[]|e'] st4]; discriminate.
    - intros Heq. injection Heq as <- _. reflexivity. }
  split; [reflexivity | split; [destruct name; [discriminate | discriminate] |]].
  split; [lia | split; [now apply is_valid_file_allowed | split; [| exact Hpath]]].
  intros mime Hguess Hne. rewrite Hguess in Hacc.
  now apply (mime_accepted_allowed _ _ Hne).
Qed.
End UploadChecks.

Lemma upload_accepted_checked_witness :
  exists st',
    UploadSamples.save_uploaded_file UploadSamples.report "news" ["document"]
      UploadSamples.disk = (Ok "static/uploads/news/0b0e7a52.pdf", st')
    /\ ".pdf" ∈ Upload.allowed_document_extensions Upload.settings.
Proof.
  eexists. split; [vm_compute; reflexivity |].
  destruct (upload_accepted_checked (gmap string Storage.node) Upload.settings
              UploadSamples.guess_type "0b0e7a52" (fun _ => "10485760")
              (fun _ => "error") UploadSamples.makedirs UploadSamples.write_file
              UploadSamples.validate_and_resize_image Storage.path_exists
              (Storage.remove (fun _ => true))
              UploadSamples.report "news" ["document"] UploadSamples.disk _
              "static/uploads/news/0b0e7a52.pdf" ltac:(vm_compute; reflexivity))
    as (name & Hname & _ & _ & [[Himg _] | [_ Hext]] & _).
  - exfalso. apply elem_of_cons in Himg as [Hd | Hd]; [discriminate Hd | inversion Hd].
  - injection Hname as <-. exact Hext.
Defined.

(** ** Deleting a stored file *)

(** X13: [delete_file] answers [True] exactly when the path is a file that
    the process may unlink, and then that path is gone and every other path
    is as before; in every other case, a directory or a refused removal
    included, it answers [False] and the storage is as before.  No
    exception leaves it. *)
Theorem delete_file_outcome
  (may_unlink : string -> bool) (file_path : string) (fs : gmap string Storage.node) :
  let removable :=
    exists content, fs !! file_path = Some (Storage.File content)
                    /\ may_unlink file_path = true in
  (fst (Storage.delete_file may_unlink file_path fs) = true <-> removable)
  /\ (fst (Storage.delete_file may_unlink file_path fs) = true ->
      snd (Storage.delete_file may_unlink file_path fs) = delete file_path fs
      /\ Storage.path_exists file_path
           (snd (Storage.delete_file may_unlink file_path fs)) = false
      /\ forall other, other <> file_path ->
           snd (Storage.delete_file may_unlink file_path fs) !! other = fs !! other)
  /\ (fst (Storage.delete_file may_unlink file_path fs) = false ->
      snd (Storage.delete_file may_unlink file_path fs) = fs).
Proof.
  intros removable. unfold removable, Storage.delete_file, Storage.path_exists,
    Storage.remove.
  destruct (fs !! file_path) as [[content|]|] eqn:Hnode.
  - rewrite bool_decide_eq_true_2 by eauto.
    destruct (may_unlink file_path) eqn:Hmay; cbn [fst snd].
    + split; [split; eauto |]. split; [| discriminate].
      intros _. split; [reflexivity | split].
      * apply bool_decide_eq_false_2. rewrite lookup_delete_eq. now intros [? ?].
      * intros other Hne. now apply lookup_delete_ne.
    + split; [split; [discriminate | intros (? & _ & ?); discriminate] |].
      split; [discriminate | reflexivity].
  - rewrite bool_decide_eq_true_2 by eauto. cbn [fst snd].
    split; [split; [discriminate | intros (? & ? & _); discriminate] |].
    split; [discriminate | reflexivity].
  - rewrite bool_decide_eq_false_2 by (now intros [? ?]). cbn [fst snd].
    split; [split; [discriminate | intros (? & ? & _); discriminate] |].
    split; [discriminate | reflexivity].
Qed.

(** ** Registering a user *)

Section Register.
Variable get_password_hash : string -> string.
Variables (user_data : Accounts.UserCreate) (new_id : Z) (db : Auth.Table).

Let row : Auth.User :=
  Accounts.new_row new_id (Accounts.new_username user_data)
    (Accounts.new_email user_data) (Accounts.new_full_name user_data)
    (get_password_hash (Accounts.new_password user_data))
    (Accounts.new_phone user_data) (Accounts.new_bio user_data) false.

Let name_taken (u : Auth.User) : Prop :=
  String.eqb (Auth.username u) (Accounts.new_username user_data) = true.
Let email_taken (u : Auth.User) : Prop :=
  String.eqb (Auth.email u) (Accounts.new_email user_data) = true.

Lemma register_cases :
  (exists v, v ∈ db /\ Auth.username v = Accounts.new_username user_data
             /\ Accounts.register get_password_hash user_data new_id db
                = (Raise (HTTPException HTTP_400_BAD_REQUEST
                            "Username already registered"), db))
  \/ (exists v, v ∈ db /\ Auth.email v = Accounts.new_email user_data
                /\ Accounts.register get_password_hash user_data new_id db
                   = (Raise (HTTPException HTTP_400_BAD_REQUEST
                               "Email already registered"), db))
  \/ ((forall v, v ∈ db ->
         Auth.username v <> Accounts.new_username user_data
         /\ Auth.email v <> Accounts.new_email user_data)
      /\ list_find name_taken db = None
      /\ Accounts.register get_password_hash user_data new_id db
         = (Ok row, (db ++ [row])%list)).
Proof.
  unfold Accounts.register, Auth.bind, Auth.get_user_by_username, Auth.query_first.
  fold name_taken.
  destruct (list_find name_taken db) as [[i v]|] eqn:Hname.
  { left. apply list_find_Some in Hname as (Hi & Hv & _).
    exists v. split; [eapply list_elem_of_lookup_2, Hi |].
    split; [now apply String.eqb_eq | reflexivity]. }
  fold email_taken.
  destruct (list_find email_taken db) as [[i v]|] eqn:Hemail.
  { right; left. apply list_find_Some in Hemail as (Hi & Hv & _).
    exists v. split; [eapply list_elem_of_lookup_2, Hi |].
    split; [now apply String.eqb_eq | reflexivity]. }
  right; right. split; [| split; reflexivity].
  apply list_find_None in Hname, Hemail. rewrite Forall_forall in Hname, Hemail.
  intros v Hv. split; intros Heq.
  - apply (Hname v Hv). now apply String.eqb_eq.
  - apply (Hemail v Hv). now apply String.eqb_eq.
Qed.
End Register.

(** X14: a registration that succeeds appends one row and changes no other:
    the new row is active, is neither admin nor moderator, carries the
    submitted name and e-mail and the hash of the submitted password, and no
    earlier row had that name or that e-mail.  A registration that fails is
    answered 400 and leaves the table as it was. *)
Theorem register_creates_plain_user
  (get_password_hash : string -> string)
  (user_data : Accounts.UserCreate) (new_id : Z) (db : Auth.Table) :
  let out := Accounts.register get_password_hash user_data new_id db in
  (forall u, fst out = Ok u ->
     snd out = (db ++ [u])%list
     /\ Auth.is_active u = true
     /\ Auth.is_admin u = false
     /\ Auth.is_moderator u = false
     /\ Auth.id u = new_id
     /\ Auth.username u = Accounts.new_username user_data
     /\ Auth.email u = Accounts.new_email user_data
     /\ Auth.hashed_password u = get_password_hash (Accounts.new_password user_data)
     /\ forall v, v ∈ db ->
          Auth.username v <> Accounts.new_username user_data
          /\ Auth.email v <> Accounts.new_email user_data)
  /\ (forall e, fst out = Raise e ->
        snd out = db
        /\ (exists detail, e = HTTPException HTTP_400_BAD_REQUEST detail)
        /\ exists v, v ∈ db
             /\ (Auth.username v = Accounts.new_username user_data
                 \/ Auth.email v = Accounts.new_email user_data)).
Proof.
  intros out. unfold out.
  destruct (register_cases get_password_hash user_data new_id db)
    as [(v & Hv & Heq & ->) | [(v & Hv & Heq & ->) | (Hfree & _ & ->)]];
    cbn [fst snd].
  - split; [discriminate |]. intros e He.
    split; [reflexivity | split; [exists "Username already registered"; congruence |]].
    eauto.
  - split; [discriminate |]. intros e He.
    split; [reflexivity | split; [exists "Email already registered"; congruence |]].
    eauto.
  - split; [| discriminate]. intros u Hu.
    assert (Hrow : Accounts.new_row new_id (Accounts.new_username user_data)
              (Accounts.new_email user_data) (Accounts.new_full_name user_data)
              (get_password_hash (Accounts.new_password user_data))
              (Accounts.new_phone user_data) (Accounts.new_bio user_data) false = u)
      by congruence.
    rewrite <- Hrow. repeat (split; [reflexivity |]). exact Hfree.
Qed.

(** X15: registration keeps user names and e-mails unique: if no two rows
    share a name and no two rows share an e-mail, this still holds of the
    table a registration leaves, whether it succeeded or not. *)
Theorem register_keeps_unique
  (get_password_hash : string -> string)
  (user_data : Accounts.UserCreate) (new_id : Z) (db : Auth.Table) :
  NoDup (map Auth.username db) ->
  NoDup (map Auth.email db) ->
  NoDup (map Auth.username
           (snd (Accounts.register get_password_hash user_data new_id db)))
  /\ NoDup (map Auth.email
              (snd (Accounts.register get_password_hash user_data new_id db))).
Proof.
  intros Hnames Hemails.
  destruct (register_cases get_password_hash user_data new_id db)
    as [(v & _ & _ & ->) | [(v & _ & _ & ->) | (Hfree & _ & ->)]];
    cbn [snd]; [now split | now split |].
  rewrite !map_app. cbn [map].
  split; apply NoDup_app; (split; [assumption | split; [| apply NoDup_singleton]]);
    intros x Hx Hin; apply list_elem_of_singleton in Hin; subst x;
    apply list_elem_of_fmap in Hx as (v & Heq & Hv);
    destruct (Hfree v Hv) as [Hn He]; cbn in Heq; congruence.
Qed.

Lemma register_keeps_unique_witness :
  NoDup (map Auth.username Deployment.users)
  /\ NoDup (map Auth.email Deployment.users)
  /\ NoDup (map Auth.username
              (snd (Accounts.register TokenService.get_password_hash
                      Samples.guest 5 Deployment.users))).
Proof.
  assert (Hnames : NoDup (map Auth.username Deployment.users)).
  { refine (bool_decide_unpack _ _). vm_compute. exact I. }
  assert (Hemails : NoDup (map Auth.email Deployment.users)).
  { refine (bool_decide_unpack _ _). vm_compute. exact I. }
  split; [exact Hnames | split; [exact Hemails |]].
  exact (proj1 (register_keeps_unique TokenService.get_password_hash
                  Samples.guest 5 Deployment.users Hnames Hemails)).
Defined.

(** ** Rows changed in place *)

Section ChangedRows.
Context {A : Type} (P : A -> Prop) `{!forall x, Decision (P x)}.

(** A change that does not touch what a query filters on leaves the query
    pointing at the same place. *)
Lemma list_find_alter_stable (f : A -> A) (i : nat) (l : list A) :
  (forall x, P (f x) <-> P x) ->
  list_find P (alter f i l)
  = match list_find P l with
    | Some (j, x) => Some (j, if decide (j = i) then f x else x)
    | None => None
    end.
Proof.
  intros Hf. destruct (list_find P l) as [[j x]|] eqn:Hfind.
  - apply list_find_Some in Hfind as (Hj & HP & Hleast).
    apply list_find_Some. split; [| split].
    + case_decide as Hji.
      * subst j. now rewrite list_lookup_alter_eq, Hj.
      * rewrite list_lookup_alter_ne by congruence. exact Hj.
    + case_decide; [now apply Hf | exact HP].
    + intros k y Hk Hlt. destruct (decide (i = k)) as [->|Hne].
      * rewrite list_lookup_alter_eq in Hk.
        destruct (l !! k) as [z|] eqn:Hlk; [| discriminate Hk].
        injection Hk as <-. rewrite Hf. now apply (Hleast k z).
      * rewrite list_lookup_alter_ne in Hk by exact Hne. now apply (Hleast k y).
  - apply list_find_None in Hfind. apply list_find_None.
    rewrite Forall_forall in *. intros y Hy.
    apply list_elem_of_lookup in Hy as [k Hk].
    destruct (decide (i = k)) as [->|Hne].
    + rewrite list_lookup_alter_eq in Hk.
      destruct (l !! k) as [z|] eqn:Hlk; [| discriminate Hk].
      injection Hk as <-. rewrite Hf. apply Hfind.
      now apply list_elem_of_lookup_2 with k.
    + rewrite list_lookup_alter_ne in Hk by exact Hne. apply Hfind.
      now apply list_elem_of_lookup_2 with k.
Qed.
End ChangedRows.

(** A commit changes no column it was not asked to change, [updated_at]
    apart. *)
Lemma flushed_columns (db_now : Z) (u u' : Auth.User) :
  Auth.id (Accounts.flushed db_now u u') = Auth.id u'
  /\ Auth.username (Accounts.flushed db_now u u') = Auth.username u'
  /\ Auth.email (Accounts.flushed db_now u u') = Auth.email u'
  /\ Auth.hashed_password (Accounts.flushed db_now u u') = Auth.hashed_password u'
  /\ Auth.is_active (Accounts.flushed db_now u u') = Auth.is_active u'
  /\ Auth.is_admin (Accounts.flushed db_now u u') = Auth.is_admin u'
  /\ Auth.is_moderator (Accounts.flushed db_now u u') = Auth.is_moderator u'
  /\ Auth.last_login (Accounts.flushed db_now u u') = Auth.last_login u'.
Proof.
  unfold Accounts.flushed. case_decide as Heq; [subst u' |]; repeat split; reflexivity.
Qed.

(** In a table whose keys are unique, a row is where its key is. *)
Lemma unique_row {K : Type} (key : Auth.User -> K) (db : Auth.Table)
  (i j : nat) (u v : Auth.User) :
  NoDup (map key db) -> db !! i = Some u -> db !! j = Some v ->
  key u = key v -> i = j.
Proof.
  intros Hnd Hi Hj Heq.
  apply (NoDup_lookup (key <$> db) i j (key u)); [exact Hnd | |].
  - now rewrite list_lookup_fmap, Hi.
  - now rewrite list_lookup_fmap, Hj, Heq.
Qed.

Lemma unique_row_find {K : Type} `{EqDecision K} (key : Auth.User -> K)
  (db : Auth.Table) (i : nat) (u : Auth.User) :
  NoDup (map key db) -> db !! i = Some u ->
  list_find (fun v => key v = key u) db = Some (i, u).
Proof.
  intros Hnd Hi. apply list_find_Some. split; [exact Hi | split; [reflexivity |]].
  intros j y Hj Hlt Heq.
  assert (j = i) by (eapply (unique_row key); eauto). lia.
Qed.

Lemma find_by_id (db : Auth.Table) (i : nat) (u : Auth.User) :
  NoDup (map Auth.id db) -> db !! i = Some u ->
  list_find (fun v => (Auth.id v =? Auth.id u) = true) db = Some (i, u).
Proof.
  intros Hnd Hi. apply list_find_Some.
  split; [exact Hi | split; [apply Z.eqb_refl |]].
  intros j y Hj Hlt Heq. apply Z.eqb_eq in Heq.
  assert (j = i) by (eapply (unique_row Auth.id); eauto). lia.
Qed.

Lemma find_by_username (db : Auth.Table) (i : nat) (u : Auth.User) :
  NoDup (map Auth.username db) -> db !! i = Some u ->
  list_find (fun v => String.eqb (Auth.username v) (Auth.username u) = true) db
  = Some (i, u).
Proof.
  intros Hnd Hi. apply list_find_Some.
  split; [exact Hi | split; [apply String.eqb_refl |]].
  intros j y Hj Hlt Heq. apply String.eqb_eq in Heq.
  assert (j = i) by (eapply (unique_row Auth.username); eauto). lia.
Qed.

(** ** Accounts and access *)

Section AccountAccess.
Context {Token : Type}.
Variable decode_token : Token -> result (gmap string json).
Variable verify_password : string -> string -> bool.
Variable get_password_hash : string -> string.
Variable create_access_token create_refresh_token : Z -> Token.
Variable int : json -> result Z.

Let get_current_user := Auth.get_current_user Token decode_token int.
Let get_admin_user := Auth.get_admin_user Token decode_token int.
Let get_moderator_user := Auth.get_moderator_user Token decode_token int.
Let refresh_token :=
  Auth.refresh_token Token decode_token create_access_token create_refresh_token int.
Let login := Auth.login Token verify_password create_access_token create_refresh_token.
Let reaches := Auth.reaches Token decode_token int.
Let update_user_password := Accounts.update_user_password get_password_hash.
Let register := Accounts.register get_password_hash.
Let create_moderator := Accounts.create_moderator Token decode_token get_password_hash int.
Let get_user := Accounts.get_user Token decode_token int.
Let delete_user := Accounts.delete_user Token decode_token int.

(** A token keeps reaching the row it reached when that row is changed in
    place without touching its id. *)
Lemma reaches_alter (token : Token) (db : Auth.Table) (u : Auth.User)
  (i : nat) (f : Auth.User -> Auth.User) :
  reaches token db u -> NoDup (map Auth.id db) -> db !! i = Some u ->
  (forall x, Auth.id (f x) = Auth.id x) ->
  reaches token (alter f i db) (f u).
Proof.
  intros (payload & sub & n & i' & Hdec & Hsub & Hnull & Hint & Hfind) Hnd Hi Hid.
  exists payload, sub, n, i. repeat (split; [assumption |]).
  rewrite (list_find_alter_stable _ f i db) by (intros x; now rewrite Hid).
  rewrite Hfind.
  apply list_find_Some in Hfind as (Hi' & _ & _).
  assert (i' = i) by (eapply (unique_row Auth.id); eauto). subst i'.
  now rewrite decide_True.
Qed.

(** What a gate returns is an active row of the table. *)
Lemma get_current_user_member (token : Token) (db : Auth.Table) (u : Auth.User) :
  fst (get_current_user token db) = Ok u -> u ∈ db /\ Auth.is_active u = true.
Proof.
  unfold get_current_user, Auth.get_current_user, Auth.bind, Auth.lift.
  destruct (decode_token token) as [payload|e]; [| discriminate].
  unfold Auth.query_first.
  destruct (default JNull (payload !! "sub")); try discriminate;
    match goal with
    | |- context [int ?v] => destruct (int v) as [n|e]; [| discriminate]
    end;
    (destruct (list_find _ db) as [[i v]|] eqn:Hfind; [| discriminate]);
    (destruct (Auth.is_active v) eqn:Hactive; [| discriminate]);
    cbn; intros Heq; assert (v = u) by congruence; subst v;
    apply list_find_Some in Hfind as (Hi & _);
    (split; [now apply list_elem_of_lookup_2 with i | exact Hactive]).
Qed.

Lemma get_admin_user_cases (token : Token) (db : Auth.Table) :
  (exists e, get_admin_user token db = (Raise e, db))
  \/ (exists u, get_admin_user token db = (Ok u, db)
                /\ u ∈ db /\ Auth.is_active u = true /\ Auth.is_admin u = true).
Proof.
  unfold get_admin_user, Auth.get_admin_user, Auth.bind.
  pose proof (get_current_user_reads decode_token int token db) as Hread.
  pose proof (get_current_user_member token db) as Hmem.
  unfold get_current_user in Hmem.
  destruct (Auth.get_current_user Token decode_token int token db) as [[u|e] db'];
    cbn in Hread; subst db'; [| left; eauto].
  destruct (Hmem u eq_refl) as [Hin Hactive].
  destruct (Auth.is_admin u) eqn:Hadmin; cbn; [right; eauto 10 | left; eauto].
Qed.

Lemma get_moderator_user_cases (token : Token) (db : Auth.Table) :
  (exists e, get_moderator_user token db = (Raise e, db))
  \/ (exists u, get_moderator_user token db = (Ok u, db)
                /\ u ∈ db /\ Auth.is_active u = true
                /\ Auth.is_admin u || Auth.is_moderator u = true).
Proof.
  unfold get_moderator_user, Auth.get_moderator_user, Auth.bind.
  pose proof (get_current_user_reads decode_token int token db) as Hread.
  pose proof (get_current_user_member token db) as Hmem.
  unfold get_current_user in Hmem.
  destruct (Auth.get_current_user Token decode_token int token db) as [[u|e] db'];
    cbn in Hread; subst db'; [| left; eauto].
  destruct (Hmem u eq_refl) as [Hin Hactive].
  destruct (Auth.is_admin u || Auth.is_moderator u) eqn:Hrole; cbn;
    [right; eauto 10 | left; eauto].
Qed.

(** The gates, for a principal reached through a token. *)
Lemma gates_reached (token : Token) (db : Auth.Table) (u : Auth.User) :
  reaches token db u ->
  get_current_user token db
  = (if Auth.is_active u then Ok u
     else Raise (HTTPException HTTP_401_UNAUTHORIZED "User not found or inactive"), db)
  /\ (Auth.is_active u = false ->
      Unauthorized (fst (get_current_user token db))
      /\ Unauthorized (fst (get_admin_user token db))
      /\ Unauthorized (fst (get_moderator_user token db)))
  /\ (Auth.is_active u = true ->
      get_admin_user token db
      = (if Auth.is_admin u then Ok u
         else Raise (HTTPException HTTP_403_FORBIDDEN
                       "Not enough permissions. Admin access required."), db)
      /\ get_moderator_user token db
         = (if Auth.is_admin u || Auth.is_moderator u then Ok u
            else Raise (HTTPException HTTP_403_FORBIDDEN
                          "Not enough permissions. Moderator or Admin access required."),
            db)).
Proof.
  intros Hreach.
  pose proof (get_current_user_reached decode_token int token db u Hreach) as Hcur.
  split; [exact Hcur |].
  unfold get_current_user, get_admin_user, get_moderator_user,
    Auth.get_admin_user, Auth.get_moderator_user, Auth.bind.
  rewrite Hcur. split; intros Hactive; rewrite Hactive.
  - cbn. repeat split; eexists; reflexivity.
  - split.
    + destruct (Auth.is_admin u); reflexivity.
    + destruct (Auth.is_admin u || Auth.is_moderator u); reflexivity.
Qed.

Lemma refresh_token_inactive (token : Token) (db : Auth.Table) (u : Auth.User) :
  reaches token db u -> Auth.is_active u = false ->
  Unauthorized (fst (refresh_token token db)).
Proof.
  intros (payload & sub & n & i & Hdec & Hsub & Hnull & Hint & Hfind) Hactive.
  unfold refresh_token, Auth.refresh_token, Auth.bind, Auth.lift.
  rewrite Hdec. destruct (is_str (payload !! "type") "refresh"); cbn [negb];
    [| eexists; reflexivity].
  rewrite Hsub. unfold default, from_option, Datatypes.id; cbv beta iota.
  rewrite Hint. unfold Auth.query_first. rewrite Hfind, Hactive.
  eexists; reflexivity.
Qed.

(** X16: who has just registered can log in: when the password hash
    verifies against its own password, a login with the registered name and
    password on the table the registration left succeeds, issues tokens for
    the new id and stamps the new row's last login. *)
Theorem register_then_login
  (user_data : Accounts.UserCreate) (new_id : Z) (u : Auth.User)
  (utcnow db_now : Z) (db : Auth.Table) :
  verify_password (Accounts.new_password user_data)
    (get_password_hash (Accounts.new_password user_data)) = true ->
  fst (register user_data new_id db) = Ok u ->
  login (Accounts.new_username user_data) (Accounts.new_password user_data)
    utcnow db_now (snd (register user_data new_id db))
  = (Ok {| Auth.access_token := create_access_token new_id;
           Auth.refresh_token_ := create_refresh_token new_id;
           Auth.token_type := "bearer" |},
     (db ++ [Auth.touch_login utcnow db_now u])%list).
Proof.
  intros Hverify. unfold register.
  destruct (register_cases get_password_hash user_data new_id db)
    as [(v & _ & _ & ->) | [(v & _ & _ & ->) | (_ & Hnone & ->)]];
    cbn [fst snd]; [discriminate | discriminate |].
  intros Hu. assert (Hrow : Accounts.new_row new_id (Accounts.new_username user_data)
              (Accounts.new_email user_data) (Accounts.new_full_name user_data)
              (get_password_hash (Accounts.new_password user_data))
              (Accounts.new_phone user_data) (Accounts.new_bio user_data) false = u)
    by congruence.
  rewrite Hrow.
  unfold login, Auth.login, Auth.bind, Auth.get_user_by_username, Auth.query_first.
  rewrite list_find_app_r by exact Hnone.
  assert (Hname : Auth.username u = Accounts.new_username user_data)
    by (now rewrite <- Hrow).
  assert (Hhash : Auth.hashed_password u
                  = get_password_hash (Accounts.new_password user_data))
    by (now rewrite <- Hrow).
  assert (Hactive : Auth.is_active u = true) by (now rewrite <- Hrow).
  assert (Hid : Auth.id u = new_id) by (now rewrite <- Hrow).
  cbn [list_find]. rewrite decide_True by (rewrite Hname; apply String.eqb_refl).
  cbn [fmap option_fmap option_map prod_map fst snd Datatypes.id Nat.add].
  rewrite Hhash, Hverify, Hactive, Hid. cbn [negb].
  unfold Auth.commit_last_login, Auth.ret.
  f_equal. rewrite alter_app_r_alt by reflexivity.
  now rewrite Nat.sub_diag.
Qed.

(** A commit that keeps a column keeps the list of that column. *)
Lemma map_commit_change {K : Type} (key : Auth.User -> K) (i : nat)
  (change : Auth.User -> Auth.User) (db_now : Z) (db : Auth.Table) :
  (forall x, key (Accounts.flushed db_now x (change x)) = key x) ->
  map key (snd (Accounts.commit_change i change db_now db)) = map key db.
Proof.
  intros Hkey. unfold Accounts.commit_change. cbn [snd].
  revert i. induction db as [|x db IH]; intros [|i]; cbn; try reflexivity.
  - now rewrite Hkey.
  - f_equal. apply IH.
Qed.

(** The row a commit leaves at [i], and the rows it leaves alone. *)
Lemma commit_change_row (i : nat) (change : Auth.User -> Auth.User) (db_now : Z)
  (db : Auth.Table) (u : Auth.User) :
  db !! i = Some u ->
  snd (Accounts.commit_change i change db_now db) !! i
  = Some (Accounts.flushed db_now u (change u))
  /\ forall j, j <> i ->
       snd (Accounts.commit_change i change db_now db) !! j = db !! j.
Proof.
  intros Hi. unfold Accounts.commit_change. cbn [snd]. split.
  - now rewrite list_lookup_alter_eq, Hi.
  - intros j Hj. now apply list_lookup_alter_ne.
Qed.

(** A token reaches the changed row after a commit that keeps the id. *)
Lemma reaches_commit_change (token : Token) (db : Auth.Table) (u : Auth.User)
  (i : nat) (change : Auth.User -> Auth.User) (db_now : Z) :
  reaches token db u -> NoDup (map Auth.id db) -> db !! i = Some u ->
  (forall x, Auth.id (change x) = Auth.id x) ->
  reaches token (snd (Accounts.commit_change i change db_now db))
    (Accounts.flushed db_now u (change u)).
Proof.
  intros Hreach Hnd Hi Hid. unfold Accounts.commit_change. cbn [snd].
  apply (reaches_alter token db u i
           (fun u => Accounts.flushed db_now u (change u))); try assumption.
  intros x. destruct (flushed_columns db_now x (change x)) as (-> & _). apply Hid.
Qed.

(** A login by name finds the changed row after a commit that keeps the
    name. *)
Lemma find_name_commit_change (db : Auth.Table) (u : Auth.User)
  (i : nat) (change : Auth.User -> Auth.User) (db_now : Z) :
  NoDup (map Auth.username db) -> db !! i = Some u ->
  (forall x, Auth.username (change x) = Auth.username x) ->
  list_find (fun v => String.eqb (Auth.username v) (Auth.username u) = true)
    (snd (Accounts.commit_change i change db_now db))
  = Some (i, Accounts.flushed db_now u (change u)).
Proof.
  intros Hnd Hi Hname. unfold Accounts.commit_change. cbn [snd].
  rewrite (list_find_alter_stable _ (fun u => Accounts.flushed db_now u (change u)) i db).
  - rewrite (find_by_username db i u Hnd Hi). now rewrite decide_True.
  - intros x. destruct (flushed_columns db_now x (change x)) as (_ & -> & _).
    now rewrite Hname.
Qed.

(** X17: a deactivated account is locked out.  In a table with unique ids,
    after [deactivate_user] on the row a token reaches, the three gates and
    the refresh endpoint answer that token Unauthorized; when names are
    unique as well, no password logs that name in, and the failed login
    writes nothing.  Every other row is as before. *)
Theorem deactivate_user_locks_out
  (token : Token) (db : Auth.Table) (u : Auth.User) (i : nat) (db_now : Z) :
  reaches token db u -> NoDup (map Auth.id db) -> db !! i = Some u ->
  let db' := snd (Accounts.deactivate_user i db_now db) in
  fst (Accounts.deactivate_user i db_now db) = Ok true
  /\ Unauthorized (fst (get_current_user token db'))
  /\ Unauthorized (fst (get_admin_user token db'))
  /\ Unauthorized (fst (get_moderator_user token db'))
  /\ Unauthorized (fst (refresh_token token db'))
  /\ (NoDup (map Auth.username db) ->
      forall password utcnow now',
        Unauthorized (fst (login (Auth.username u) password utcnow now' db'))
        /\ snd (login (Auth.username u) password utcnow now' db') = db')
  /\ forall j, j <> i -> db' !! j = db !! j.
Proof.
  intros Hreach Hnd Hi db'.
  assert (Hdb' : db' = snd (Accounts.commit_change i (Accounts.set_is_active false)
                              db_now db)) by reflexivity.
  split; [reflexivity |].
  pose (u' := Accounts.flushed db_now u (Accounts.set_is_active false u)).
  assert (Hinactive : Auth.is_active u' = false).
  { unfold u'.
    now destruct (flushed_columns db_now u (Accounts.set_is_active false u))
      as (_ & _ & _ & _ & -> & _). }
  assert (Hreach' : reaches token db' u').
  { rewrite Hdb'. now apply reaches_commit_change. }
  destruct (gates_reached token db' u' Hreach') as (_ & Hgates & _).
  destruct (Hgates Hinactive) as (Hc & Ha & Hm).
  pose proof (refresh_token_inactive token db' u' Hreach' Hinactive) as Hr.
  repeat (split; [assumption |]). split.
  - intros Hnames password utcnow now'.
    unfold login, Auth.login, Auth.bind, Auth.get_user_by_username, Auth.query_first.
    rewrite Hdb', (find_name_commit_change db u i _ db_now Hnames Hi)
      by reflexivity.
    fold u'. rewrite Hinactive.
    destruct (verify_password password (Auth.hashed_password u')); cbn;
      (split; [eexists; reflexivity | reflexivity]).
  - intros j Hj. rewrite Hdb'.
    now apply (commit_change_row i (Accounts.set_is_active false) db_now db u Hi).
Qed.

(** X18: [activate_user] undoes [deactivate_user]: in a table with unique
    ids, after the two in a row on the row a token reaches, that token
    passes [get_current_user] again, whatever the account was before, and
    the principal returned has the id, name, password hash and the two role
    flags of the row it started from. *)
Theorem activate_user_restores_access
  (token : Token) (db : Auth.Table) (u : Auth.User) (i : nat) (t1 t2 : Z) :
  reaches token db u -> NoDup (map Auth.id db) -> db !! i = Some u ->
  let db' := snd (Accounts.deactivate_user i t1 db) in
  let db'' := snd (Accounts.activate_user i t2 db') in
  exists u'',
    get_current_user token db'' = (Ok u'', db'')
    /\ db'' !! i = Some u''
    /\ Auth.is_active u'' = true
    /\ Auth.id u'' = Auth.id u
    /\ Auth.username u'' = Auth.username u
    /\ Auth.hashed_password u'' = Auth.hashed_password u
    /\ Auth.is_admin u'' = Auth.is_admin u
    /\ Auth.is_moderator u'' = Auth.is_moderator u.
Proof.
  intros Hreach Hnd Hi db' db''.
  assert (Hdb' : db' = snd (Accounts.commit_change i (Accounts.set_is_active false)
                              t1 db)) by reflexivity.
  assert (Hdb'' : db'' = snd (Accounts.commit_change i (Accounts.set_is_active true)
                                t2 db')) by reflexivity.
  pose (u' := Accounts.flushed t1 u (Accounts.set_is_active false u)).
  pose (u'' := Accounts.flushed t2 u' (Accounts.set_is_active true u')).
  assert (Hreach' : reaches token db' u').
  { rewrite Hdb'. now apply reaches_commit_change. }
  assert (Hi' : db' !! i = Some u').
  { rewrite Hdb'.
    now apply (commit_change_row i (Accounts.set_is_active false) t1 db u Hi). }
  assert (Hnd' : NoDup (map Auth.id db')).
  { rewrite Hdb', (map_commit_change Auth.id); [exact Hnd |].
    intros x. now destruct (flushed_columns t1 x (Accounts.set_is_active false x))
      as (-> & _). }
  assert (Hreach'' : reaches token db'' u'').
  { rewrite Hdb''. now apply reaches_commit_change. }
  destruct (flushed_columns t1 u (Accounts.set_is_active false u))
    as (H1 & H2 & _ & H4 & _ & H6 & H7 & _).
  destruct (flushed_columns t2 u' (Accounts.set_is_active true u'))
    as (G1 & G2 & _ & G4 & G5 & G6 & G7 & _).
  fold u' in H1, H2, H4, H6, H7. fold u'' in G1, G2, G4, G5, G6, G7.
  cbn in H1, H2, H4, H6, H7, G1, G2, G4, G5, G6, G7.
  exists u''. split.
  - destruct (gates_reached token db'' u'' Hreach'') as (Hcur & _).
    now rewrite Hcur, G5.
  - split.
    { rewrite Hdb''.
      now apply (commit_change_row i (Accounts.set_is_active true) t2 db' u' Hi'). }
    repeat split; congruence.
Qed.

(** X19: the moderator flag decides the moderator gate and nothing else.
    For an active principal reached through a token, in a table with
    unique ids: after [promote_to_moderator] the moderator gate returns the
    principal, with the admin flag it had; a promotion does not open the
    admin gate to who is not admin; after [demote_from_moderator] the
    moderator gate answers Forbidden unless the principal is admin. *)
Theorem moderator_flag_controls_gate
  (token : Token) (db : Auth.Table) (u : Auth.User) (i : nat) (db_now : Z) :
  reaches token db u -> NoDup (map Auth.id db) -> db !! i = Some u ->
  Auth.is_active u = true ->
  let promoted := snd (Accounts.promote_to_moderator i db_now db) in
  let demoted := snd (Accounts.demote_from_moderator i db_now db) in
  (exists u', get_moderator_user token promoted = (Ok u', promoted)
              /\ promoted !! i = Some u'
              /\ Auth.is_moderator u' = true
              /\ Auth.id u' = Auth.id u
              /\ Auth.is_admin u' = Auth.is_admin u)
  /\ (Auth.is_admin u = false ->
      Forbidden (fst (get_admin_user token promoted))
      /\ Forbidden (fst (get_moderator_user token demoted)))
  /\ (Auth.is_admin u = true ->
      exists u', get_moderator_user token demoted = (Ok u', demoted)
                 /\ Auth.is_moderator u' = false).
Proof.
  intros Hreach Hnd Hi Hactive promoted demoted.
  assert (Hp : promoted = snd (Accounts.commit_change i (Accounts.set_is_moderator true)
                                 db_now db)) by reflexivity.
  assert (Hd : demoted = snd (Accounts.commit_change i (Accounts.set_is_moderator false)
                                db_now db)) by reflexivity.
  pose (up := Accounts.flushed db_now u (Accounts.set_is_moderator true u)).
  pose (ud := Accounts.flushed db_now u (Accounts.set_is_moderator false u)).
  assert (Hrp : reaches token promoted up).
  { rewrite Hp. now apply reaches_commit_change. }
  assert (Hrd : reaches token demoted ud).
  { rewrite Hd. now apply reaches_commit_change. }
  destruct (flushed_columns db_now u (Accounts.set_is_moderator true u))
    as (P1 & _ & _ & _ & P5 & P6 & P7 & _).
  destruct (flushed_columns db_now u (Accounts.set_is_moderator false u))
    as (D1 & _ & _ & _ & D5 & D6 & D7 & _).
  fold up in P1, P5, P6, P7. fold ud in D1, D5, D6, D7.
  cbn in P1, P5, P6, P7, D1, D5, D6, D7.
  rewrite Hactive in P5, D5.
  destruct (gates_reached token promoted up Hrp) as (_ & _ & Hgp).
  destruct (gates_reached token demoted ud Hrd) as (_ & _ & Hgd).
  destruct (Hgp P5) as (Hap & Hmp). destruct (Hgd D5) as (_ & Hmd).
  split; [| split].
  - exists up. rewrite Hmp, P7, orb_true_r. split; [reflexivity |].
    split; [| repeat split; assumption].
    rewrite Hp.
    now apply (commit_change_row i (Accounts.set_is_moderator true) db_now db u Hi).
  - intros Hadmin. rewrite Hap, Hmd, P6, D6, D7, Hadmin. cbn.
    split; eexists; reflexivity.
  - intros Hadmin. exists ud. rewrite Hmd, D6, Hadmin. cbn. now split.
Qed.

(** X20: after [update_user_password] the new password logs in and
    nothing else does.  For an active row of a table with unique names,
    when the hash of the new password verifies against it: a login with
    the row's name and the new password succeeds with tokens for the row's
    id; a login with a password that does not verify against the new hash
    is answered Unauthorized and writes nothing. *)
Theorem update_user_password_then_login
  (db : Auth.Table) (u : Auth.User) (i : nat) (password : string)
  (db_now utcnow now' : Z) :
  NoDup (map Auth.username db) -> db !! i = Some u -> Auth.is_active u = true ->
  verify_password password (get_password_hash password) = true ->
  let db' := snd (update_user_password i password db_now db) in
  fst (update_user_password i password db_now db) = Ok true
  /\ fst (login (Auth.username u) password utcnow now' db')
     = Ok {| Auth.access_token := create_access_token (Auth.id u);
             Auth.refresh_token_ := create_refresh_token (Auth.id u);
             Auth.token_type := "bearer" |}
  /\ forall other,
       verify_password other (get_password_hash password) = false ->
       Unauthorized (fst (login (Auth.username u) other utcnow now' db'))
       /\ snd (login (Auth.username u) other utcnow now' db') = db'.
Proof.
  intros Hnames Hi Hactive Hverify db'.
  assert (Hdb' : db' = snd (Accounts.commit_change i
                              (Accounts.set_hashed_password (get_password_hash password))
                              db_now db)) by reflexivity.
  split; [reflexivity |].
  pose (u' := Accounts.flushed db_now u
                (Accounts.set_hashed_password (get_password_hash password) u)).
  destruct (flushed_columns db_now u
              (Accounts.set_hashed_password (get_password_hash password) u))
    as (F1 & _ & _ & F4 & F5 & _).
  fold u' in F1, F4, F5. cbn in F1, F4, F5. rewrite Hactive in F5.
  assert (Hfind : list_find
            (fun v => String.eqb (Auth.username v) (Auth.username u) = true) db'
          = Some (i, u')).
  { rewrite Hdb'. now apply find_name_commit_change. }
  unfold login, Auth.login, Auth.bind, Auth.get_user_by_username, Auth.query_first.
  rewrite Hfind, F4, F5, F1, Hverify. cbn [negb]. split; [reflexivity |].
  intros other Hother. rewrite Hother. cbn. split; [eexists |]; reflexivity.
Qed.

(** Rows of a table after one of them was deleted. *)
Lemma delete_keeps (db : Auth.Table) (i j : nat) (v : Auth.User) :
  db !! j = Some v -> j <> i -> v ∈ delete i db.
Proof.
  intros Hj Hne. destruct (lt_dec j i) as [Hlt|Hge].
  - apply list_elem_of_lookup_2 with j. now rewrite list_lookup_delete_lt.
  - apply list_elem_of_lookup_2 with (pred j).
    rewrite list_lookup_delete_ge by lia.
    replace (S (pred j)) with j by lia. exact Hj.
Qed.

Lemma delete_from (db : Auth.Table) (i : nat) (v : Auth.User) :
  v ∈ delete i db -> exists j, j <> i /\ db !! j = Some v.
Proof.
  intros Hin. apply list_elem_of_lookup in Hin as [k Hk].
  destruct (lt_dec k i) as [Hlt|Hge].
  - rewrite list_lookup_delete_lt in Hk by exact Hlt. exists k. split; [lia | exact Hk].
  - rewrite list_lookup_delete_ge in Hk by lia. exists (S k). split; [lia | exact Hk].
Qed.

(** What the queries by id find. *)
Lemma find_id_none (n : Z) (db : Auth.Table) :
  list_find (fun v => (Auth.id v =? n) = true) db = None <->
  forall v, v ∈ db -> Auth.id v <> n.
Proof.
  rewrite list_find_None, Forall_forall. split; intros H v Hv.
  - intros Heq. apply (H v Hv). now apply Z.eqb_eq.
  - intros Heq. apply (H v Hv). now apply Z.eqb_eq.
Qed.

(** X21: [delete_user] removes the row asked for and no other.  A failure
    of the admin gate is returned as it is.  For a caller that passed the
    gate: an id outside the 64 bits of the store is answered with
    [OverflowError]; an id that no row has with 404; the caller's own id
    with 400; and every other id of a row succeeds, leaving the table
    without the first row of that id, the caller's row still there and,
    when ids are unique, the row asked for gone and no row of that id left.
    It succeeds in no other case, and every failure leaves the table as it
    was. *)
Theorem delete_user_outcome (token : Token) (user_id : Z) (db : Auth.Table) :
  let out := delete_user token user_id db in
  (forall e, fst (get_admin_user token db) = Raise e -> out = (Raise e, db))
  /\ (forall admin, fst (get_admin_user token db) = Ok admin ->
        (Accounts.sqlite_int user_id = false -> out = (Raise OverflowError, db))
        /\ (Accounts.sqlite_int user_id = true ->
            ((forall v, v ∈ db -> Auth.id v <> user_id) ->
             out = (Raise (HTTPException Accounts.HTTP_404_NOT_FOUND "User not found"),
                    db))
            /\ (Auth.id admin = user_id ->
                out = (Raise (HTTPException HTTP_400_BAD_REQUEST
                                "Cannot delete your own account"), db))
            /\ (Auth.id admin <> user_id ->
                forall target, target ∈ db -> Auth.id target = user_id ->
                  exists i first,
                    db !! i = Some first
                    /\ Auth.id first = user_id
                    /\ (forall j v, db !! j = Some v -> (j < i)%nat ->
                          Auth.id v <> user_id)
                    /\ out = (Ok "User deleted successfully", delete i db)
                    /\ S (length (delete i db)) = length db
                    /\ admin ∈ delete i db
                    /\ (NoDup (map Auth.id db) ->
                        first = target
                        /\ forall v, v ∈ delete i db -> Auth.id v <> user_id))))
  /\ (forall message, fst out = Ok message ->
        exists admin target,
          fst (get_admin_user token db) = Ok admin
          /\ target ∈ db
          /\ Auth.id target = user_id
          /\ Auth.id admin <> user_id
          /\ Accounts.sqlite_int user_id = true)
  /\ (forall e, fst out = Raise e -> snd out = db).
Proof.
  intros out. unfold out, delete_user, Accounts.delete_user, Auth.bind.
  destruct (get_admin_user_cases token db)
    as [(e & Hgate) | (admin & Hgate & Hin & _ & _)];
    rewrite Hgate; unfold get_admin_user in Hgate; rewrite Hgate; cbn [fst snd].
  { split; [congruence |].
    split; [discriminate | split; [discriminate | reflexivity]]. }
  split; [discriminate |].
  unfold Accounts.query_first_binding, Auth.query_first, Auth.raise.
  destruct (Accounts.sqlite_int user_id) eqn:Hrange; cbn [fst snd].
  2:{ split; [| split; [discriminate | reflexivity]].
      intros admin' Hadmin'. split; [reflexivity | discriminate]. }
  destruct (list_find (fun v => (Auth.id v =? user_id) = true) db)
    as [[i first]|] eqn:Hfind.
  - pose proof Hfind as Hfirst.
    apply list_find_Some in Hfirst as (Hi & Hid & Hleast). apply Z.eqb_eq in Hid.
    assert (Hleast' : forall j v, db !! j = Some v -> (j < i)%nat ->
                        Auth.id v <> user_id).
    { intros j v Hj Hlt Heq. apply (Hleast j v Hj Hlt). now apply Z.eqb_eq. }
    destruct (Auth.id first =? Auth.id admin) eqn:Hself; cbn [fst snd].
    + apply Z.eqb_eq in Hself.
      split; [| split; [discriminate | reflexivity]].
      intros admin' Hadmin'. assert (admin' = admin) by congruence. subst admin'.
      split; [discriminate |]. intros _.
      split; [| split; [reflexivity |]].
      * intros Hnone. exfalso. apply (Hnone first); [| exact Hid].
        now apply list_elem_of_lookup_2 with i.
      * intros Hne. exfalso. congruence.
    + apply Z.eqb_neq in Hself. unfold Accounts.delete_row, Auth.ret. cbn [fst snd].
      split; [| split; [| discriminate]].
      * intros admin' Hadmin'. assert (admin' = admin) by congruence. subst admin'.
        split; [discriminate |]. intros _.
        split; [| split].
        -- intros Hnone. exfalso. apply (Hnone first); [| exact Hid].
           now apply list_elem_of_lookup_2 with i.
        -- intros Hown. exfalso. congruence.
        -- intros Hne target Htarget Htid. exists i, first.
           split; [exact Hi | split; [exact Hid | split; [exact Hleast' |]]].
           split; [reflexivity |].
           split.
           { rewrite length_delete by eauto. apply lookup_lt_Some in Hi. lia. }
           split.
           { apply list_elem_of_lookup in Hin as [j Hj].
             apply delete_keeps with j; [exact Hj |].
             intros ->. congruence. }
           intros Hnd. split.
           { apply list_elem_of_lookup in Htarget as [j Hj].
             assert (i = j)
               by (eapply (unique_row Auth.id); eauto; congruence).
             subst j. congruence. }
           intros v Hv Hvid. apply delete_from in Hv as (j & Hnej & Hj).
           apply Hnej. eapply (unique_row Auth.id); eauto. congruence.
      * intros message _. exists admin, first.
        split; [reflexivity |].
        split; [now apply list_elem_of_lookup_2 with i |].
        split; [exact Hid | split; [congruence | reflexivity]].
  - pose proof (proj1 (find_id_none _ _) Hfind) as Hnone; clear Hfind; rename Hnone into Hfind. cbn [fst snd].
    split; [| split; [discriminate | reflexivity]].
    intros admin' Hadmin'. assert (admin' = admin) by congruence. subst admin'.
    split; [discriminate |]. intros _.
    split; [reflexivity | split].
    + intros Hown. exfalso. now apply (Hfind admin Hin).
    + intros _ target Htarget Htid. exfalso. now apply (Hfind target Htarget).
Qed.

(** X22: [create_moderator] makes a moderator and never an admin.  A
    failure of the admin gate is returned as it is.  For a caller that
    passed the gate: a name that a row has is answered 400, and so is an
    e-mail that a row has; otherwise the call succeeds and the table is the
    table it found with one row appended: active, moderator, not admin,
    with the name and e-mail asked for and the hash of the password asked
    for.  Every failure leaves the table as it was. *)
Theorem create_moderator_outcome
  (token : Token) (moderator_data : Accounts.ModeratorCreate) (new_id : Z)
  (db : Auth.Table) :
  let out := create_moderator token moderator_data new_id db in
  let row :=
    Accounts.new_row new_id (Accounts.moderator_username moderator_data)
      (Accounts.moderator_email moderator_data)
      (Accounts.moderator_full_name moderator_data)
      (get_password_hash (Accounts.moderator_password moderator_data))
      (Accounts.moderator_phone moderator_data) None true in
  (forall e, fst (get_admin_user token db) = Raise e -> out = (Raise e, db))
  /\ (forall admin, fst (get_admin_user token db) = Ok admin ->
        ((exists v, v ∈ db
                    /\ Auth.username v = Accounts.moderator_username moderator_data) ->
         out = (Raise (HTTPException HTTP_400_BAD_REQUEST
                         "Username already registered"), db))
        /\ ((forall v, v ∈ db ->
               Auth.username v <> Accounts.moderator_username moderator_data) ->
            (exists v, v ∈ db
                       /\ Auth.email v = Accounts.moderator_email moderator_data) ->
            out = (Raise (HTTPException HTTP_400_BAD_REQUEST
                            "Email already registered"), db))
        /\ ((forall v, v ∈ db ->
               Auth.username v <> Accounts.moderator_username moderator_data
               /\ Auth.email v <> Accounts.moderator_email moderator_data) ->
            out = (Ok row, (db ++ [row])%list)))
  /\ Auth.is_moderator row = true
  /\ Auth.is_admin row = false
  /\ Auth.is_active row = true
  /\ Auth.username row = Accounts.moderator_username moderator_data
  /\ Auth.email row = Accounts.moderator_email moderator_data
  /\ Auth.hashed_password row
     = get_password_hash (Accounts.moderator_password moderator_data)
  /\ (forall u, fst out = Ok u ->
        u = row
        /\ snd out = (db ++ [row])%list
        /\ (exists admin, fst (get_admin_user token db) = Ok admin
                          /\ Auth.is_admin admin = true
                          /\ Auth.is_active admin = true)
        /\ forall v, v ∈ db ->
             Auth.username v <> Accounts.moderator_username moderator_data
             /\ Auth.email v <> Accounts.moderator_email moderator_data)
  /\ (forall e, fst out = Raise e -> snd out = db).
Proof.
  intros out row.
  assert (Hname_none :
    list_find (fun u => String.eqb (Auth.username u)
                          (Accounts.moderator_username moderator_data) = true) db = None
    <-> forall v, v ∈ db ->
          Auth.username v <> Accounts.moderator_username moderator_data).
  { rewrite list_find_None, Forall_forall. split; intros H v Hv Heq;
      apply (H v Hv); now apply String.eqb_eq. }
  assert (Hmail_none :
    list_find (fun u => String.eqb (Auth.email u)
                          (Accounts.moderator_email moderator_data) = true) db = None
    <-> forall v, v ∈ db ->
          Auth.email v <> Accounts.moderator_email moderator_data).
  { rewrite list_find_None, Forall_forall. split; intros H v Hv Heq;
      apply (H v Hv); now apply String.eqb_eq. }
  unfold out, create_moderator, Accounts.create_moderator, Auth.bind.
  destruct (get_admin_user_cases token db)
    as [(e & Hgate) | (admin & Hgate & Hin & Hactive & Hadmin)];
    rewrite Hgate; unfold get_admin_user in Hgate; rewrite Hgate; cbn [fst snd].
  { split; [congruence | split; [discriminate |]].
    repeat (split; [reflexivity |]). split; [discriminate | reflexivity]. }
  split; [discriminate |].
  unfold Auth.query_first, Auth.raise.
  destruct (list_find
              (fun u => String.eqb (Auth.username u)
                          (Accounts.moderator_username moderator_data) = true) db)
    as [[i v]|] eqn:Hname; cbn [fst snd].
  { apply list_find_Some in Hname as (Hi & Hv & _). apply String.eqb_eq in Hv.
    assert (Hv' : v ∈ db) by (now apply list_elem_of_lookup_2 with i).
    split; [| repeat (split; [reflexivity |]); split; [discriminate | reflexivity]].
    intros admin' _. split; [intros _; reflexivity | split].
    - intros Hfree. exfalso. now apply (Hfree v Hv').
    - intros Hfree. exfalso. now apply (proj1 (Hfree v Hv')). }
  destruct Hname_none as [Hname_free _]. specialize (Hname_free eq_refl).
  destruct (list_find
              (fun u => String.eqb (Auth.email u)
                          (Accounts.moderator_email moderator_data) = true) db)
    as [[i v]|] eqn:Hemail; cbn [fst snd].
  { apply list_find_Some in Hemail as (Hi & Hv & _). apply String.eqb_eq in Hv.
    assert (Hv' : v ∈ db) by (now apply list_elem_of_lookup_2 with i).
    split; [| repeat (split; [reflexivity |]); split; [discriminate | reflexivity]].
    intros admin' _. split; [| split; [intros _ _; reflexivity |]].
    - intros (w & Hw & Heq). exfalso. now apply (Hname_free w Hw).
    - intros Hfree. exfalso. now apply (proj2 (Hfree v Hv')). }
  destruct Hmail_none as [Hmail_free _]. specialize (Hmail_free eq_refl).
  unfold Accounts.insert_user. cbn [fst snd]. fold row.
  split; [| repeat (split; [reflexivity |]); split; [| discriminate]].
  - intros admin' _. split; [| split; [| intros _; reflexivity]].
    + intros (w & Hw & Heq). exfalso. now apply (Hname_free w Hw).
    + intros _ (w & Hw & Heq). exfalso. now apply (Hmail_free w Hw).
  - intros u Hu. split; [congruence | split; [reflexivity | split]].
    + exists admin. now repeat split.
    + intros w Hw. split; [now apply Hname_free | now apply Hmail_free].
Qed.

(** X25: [get_user] reads and never writes.  A failure of the moderator
    gate is returned as it is.  For a caller that passed the gate: an id
    outside the 64 bits of the store is answered with [OverflowError];
    otherwise the answer is 404 exactly when no row has that id, and when a
    row has it the first row of that id is returned, which is that row when
    ids are unique.  What it returns is always a row of the table with the
    id asked for. *)
Theorem get_user_outcome (token : Token) (user_id : Z) (db : Auth.Table) :
  let out := get_user token user_id db in
  snd out = db
  /\ (forall e, fst (get_moderator_user token db) = Raise e -> out = (Raise e, db))
  /\ (forall caller, fst (get_moderator_user token db) = Ok caller ->
        (Accounts.sqlite_int user_id = false -> out = (Raise OverflowError, db))
        /\ (Accounts.sqlite_int user_id = true ->
            (fst out = Raise (HTTPException Accounts.HTTP_404_NOT_FOUND "User not found")
             <-> forall v, v ∈ db -> Auth.id v <> user_id)
            /\ (forall target, target ∈ db -> Auth.id target = user_id ->
                  exists i u,
                    out = (Ok u, db)
                    /\ db !! i = Some u
                    /\ Auth.id u = user_id
                    /\ (forall j v, db !! j = Some v -> (j < i)%nat ->
                          Auth.id v <> user_id)
                    /\ (NoDup (map Auth.id db) -> u = target))))
  /\ (forall u, fst out = Ok u ->
        u ∈ db /\ Auth.id u = user_id
        /\ Accounts.sqlite_int user_id = true
        /\ exists caller, fst (get_moderator_user token db) = Ok caller
                          /\ Auth.is_active caller = true
                          /\ Auth.is_admin caller || Auth.is_moderator caller = true).
Proof.
  intros out. unfold out, get_user, Accounts.get_user, Auth.bind.
  destruct (get_moderator_user_cases token db)
    as [(e & Hgate) | (caller & Hgate & Hin & Hactive & Hrole)];
    rewrite Hgate; unfold get_moderator_user in Hgate; rewrite Hgate; cbn [fst snd].
  { split; [reflexivity | split; [congruence | split; discriminate]]. }
  unfold Accounts.query_first_binding, Auth.query_first, Auth.ret, Auth.raise.
  destruct (Accounts.sqlite_int user_id) eqn:Hrange; cbn [fst snd].
  2:{ split; [reflexivity | split; [discriminate | split; [| discriminate]]].
      intros caller' _. split; [reflexivity | discriminate]. }
  destruct (list_find (fun v => (Auth.id v =? user_id) = true) db)
    as [[i first]|] eqn:Hfind; cbn [fst snd].
  - apply list_find_Some in Hfind as (Hi & Hid & Hleast). apply Z.eqb_eq in Hid.
    assert (Hfirst : first ∈ db) by (now apply list_elem_of_lookup_2 with i).
    split; [reflexivity | split; [discriminate | split]].
    + intros caller' _. split; [discriminate |]. intros _. split.
      * split; [discriminate |]. intros Hnone. exfalso. now apply (Hnone first).
      * intros target Htarget Htid. exists i, first.
        split; [reflexivity | split; [exact Hi | split; [exact Hid | split]]].
        -- intros j v Hj Hlt Heq. apply (Hleast j v Hj Hlt). now apply Z.eqb_eq.
        -- intros Hnd. apply list_elem_of_lookup in Htarget as [j Hj].
           assert (i = j) by (eapply (unique_row Auth.id); eauto; congruence).
           subst j. congruence.
    + intros u Hu. assert (first = u) by congruence. subst u.
      split; [exact Hfirst | split; [exact Hid | split; [reflexivity |]]].
      exists caller. now repeat split.
  - pose proof (proj1 (find_id_none _ _) Hfind) as Hnone; clear Hfind; rename Hnone into Hfind.
    split; [reflexivity | split; [discriminate | split; [| discriminate]]].
    intros caller' _. split; [discriminate |]. intros _. split.
    + split; [intros _; exact Hfind | reflexivity].
    + intros target Htarget Htid. exfalso. now apply (Hfind target Htarget).
Qed.
End AccountAccess.

(** ** Availability of names and e-mails *)

(** X23: [is_username_available] never writes.  With no excluded id, or
    the id 0, it answers [True] exactly when no row has the name; with an
    excluded id other than 0 within the 64 bits of the store it answers
    [True] exactly when every row of that name has the excluded id; with an
    excluded id outside that range it raises [OverflowError].  An excluded
    id of 0 is the same as none. *)
Theorem username_availability
  (username_ : string) (exclude_user_id : option Z) (db : Auth.Table) :
  let out := Accounts.is_username_available username_ exclude_user_id db in
  snd out = db
  /\ (forall x, exclude_user_id = Some x -> x <> 0 ->
        Accounts.sqlite_int x = false -> fst out = Raise OverflowError)
  /\ ((forall x, exclude_user_id = Some x -> x <> 0 ->
         Accounts.sqlite_int x = true) ->
      (exists b, fst out = Ok b)
      /\ (fst out = Ok true
          <-> forall v, v ∈ db -> Auth.username v = username_ ->
                exists x, exclude_user_id = Some x /\ x <> 0 /\ Auth.id v = x))
  /\ Accounts.is_username_available username_ (Some 0) db
     = Accounts.is_username_available username_ None db.
Proof.
  intros out. unfold out, Accounts.is_username_available, Auth.bind,
    Accounts.query_first_binding, Auth.query_first, Auth.ret, Auth.raise,
    Accounts.excluding.
  destruct exclude_user_id as [x|].
  - destruct (x =? 0) eqn:Hzero.
    + apply Z.eqb_eq in Hzero. subst x.
      split; [now destruct (list_find _ db) |].
      split; [intros x [= <-] Hx; now destruct Hx |].
      split; [| reflexivity]. intros _.
      destruct (list_find _ db) as [[i v]|] eqn:Hfind; cbn [fst].
      * split; [eauto |]. split; [discriminate |]. intros Hall. exfalso.
        apply list_find_Some in Hfind as (Hi & Hv & _). apply String.eqb_eq in Hv.
        destruct (Hall v (list_elem_of_lookup_2 _ _ _ Hi) Hv) as (x & [= <-] & Hx & _).
        now apply Hx.
      * split; [eauto |]. split; [| reflexivity]. intros _ v Hv Hname. exfalso.
        apply list_find_None in Hfind. rewrite Forall_forall in Hfind.
        apply (Hfind v Hv). now apply String.eqb_eq.
    + apply Z.eqb_neq in Hzero.
      destruct (Accounts.sqlite_int x) eqn:Hrange.
      * split; [now destruct (list_find _ db) |].
        split; [intros y [= <-] _ Hy; congruence |].
        split; [| reflexivity]. intros _.
        destruct (list_find _ db) as [[i v]|] eqn:Hfind; cbn [fst].
        -- split; [eauto |]. split; [discriminate |]. intros Hall. exfalso.
           apply list_find_Some in Hfind as (Hi & Hv & _).
           apply andb_true_iff in Hv as [Hname Hother].
           apply String.eqb_eq in Hname.
           destruct (Hall v (list_elem_of_lookup_2 _ _ _ Hi) Hname)
             as (y & [= <-] & _ & Hid).
           apply negb_true_iff, Z.eqb_neq in Hother. contradiction.
        -- split; [eauto |]. split; [| reflexivity]. intros _ v Hv Hname.
           exists x. split; [reflexivity | split; [exact Hzero |]].
           apply list_find_None in Hfind. rewrite Forall_forall in Hfind.
           specialize (Hfind v Hv). apply not_true_is_false in Hfind.
           apply String.eqb_eq in Hname. rewrite Hname in Hfind. cbn in Hfind.
           apply negb_false_iff in Hfind. now apply Z.eqb_eq.
      * cbn [fst snd]. split; [reflexivity |].
        split; [reflexivity | split; [| reflexivity]].
        intros Hall. specialize (Hall x eq_refl Hzero). congruence.
  - split; [now destruct (list_find _ db) |].
    split; [discriminate |].
    split; [| reflexivity]. intros _.
    destruct (list_find _ db) as [[i v]|] eqn:Hfind; cbn [fst].
    + split; [eauto |]. split; [discriminate |]. intros Hall. exfalso.
      apply list_find_Some in Hfind as (Hi & Hv & _). apply String.eqb_eq in Hv.
      destruct (Hall v (list_elem_of_lookup_2 _ _ _ Hi) Hv) as (x & Hx & _).
      discriminate Hx.
    + split; [eauto |]. split; [| reflexivity]. intros _ v Hv Hname. exfalso.
      apply list_find_None in Hfind. rewrite Forall_forall in Hfind.
      apply (Hfind v Hv). now apply String.eqb_eq.
Qed.

(** X24: [register] succeeds exactly when [is_username_available] and
    [is_email_available], asked without an excluded id, both answer
    [True] for the submitted name and e-mail. *)
Theorem register_succeeds_iff_available
  (get_password_hash : string -> string)
  (user_data : Accounts.UserCreate) (new_id : Z) (db : Auth.Table) :
  (exists u, fst (Accounts.register get_password_hash user_data new_id db) = Ok u)
  <-> fst (Accounts.is_username_available (Accounts.new_username user_data) None db)
      = Ok true
      /\ fst (Accounts.is_email_available (Accounts.new_email user_data) None db)
         = Ok true.
Proof.
  unfold Accounts.register, Accounts.is_username_available,
    Accounts.is_email_available, Auth.get_user_by_username, Auth.bind,
    Auth.query_first, Auth.ret, Accounts.excluding.
  destruct (list_find
              (fun u => String.eqb (Auth.username u)
                          (Accounts.new_username user_data) = true) db)
    as [[i v]|]; cbn [fst snd].
  { split; [intros [u Hu]; discriminate Hu | intros [Hn _]; discriminate Hn]. }
  destruct (list_find
              (fun u => String.eqb (Auth.email u)
                          (Accounts.new_email user_data) = true) db)
    as [[i v]|]; cbn [fst snd].
  { split; [intros [u Hu]; discriminate Hu | intros [_ He]; discriminate He]. }
  split; [now split | intros _; eexists; reflexivity].
Qed.

(** ** The properties above on the sample deployment *)

Lemma register_then_login_witness :
  TokenService.verify_password "guest-pw" (TokenService.get_password_hash "guest-pw")
  = true
  /\ fst (Deployment.login "guest" "guest-pw" 2000 2001
            (snd (Accounts.register TokenService.get_password_hash Samples.guest 5
                    Deployment.users)))
     = Ok {| Auth.access_token := Deployment.create_access_token 5;
             Auth.refresh_token_ := Deployment.create_refresh_token 5;
             Auth.token_type := "bearer" |}.
Proof.
  split; [vm_compute; reflexivity |].
  exact (f_equal fst
           (register_then_login TokenService.verify_password
              TokenService.get_password_hash
              Deployment.create_access_token Deployment.create_refresh_token
              Samples.guest 5
              (Accounts.new_row 5 "guest" "guest@tmsiti.uz" "Guest"
                 (TokenService.get_password_hash "guest-pw") None None false)
              2000 2001 Deployment.users
              ltac:(vm_compute; reflexivity) ltac:(vm_compute; reflexivity))).
Defined.

Lemma deactivate_user_locks_out_witness :
  Auth.reaches TokenService.SignedToken Deployment.decode_token Builtins.int
    (Deployment.create_access_token 1) Deployment.users Deployment.reader
  /\ NoDup (map Auth.id Deployment.users)
  /\ Unauthorized
       (fst (Deployment.get_current_user (Deployment.create_access_token 1)
               (snd (Accounts.deactivate_user 0 3000 Deployment.users)))).
Proof.
  assert (Hreach :
    Auth.reaches TokenService.SignedToken Deployment.decode_token Builtins.int
      (Deployment.create_access_token 1) Deployment.users Deployment.reader).
  { eexists _, (JInt 1), 1, 0%nat.
    split; [reflexivity | split; [reflexivity | split; [discriminate |]]].
    split; reflexivity. }
  assert (Hids : NoDup (map Auth.id Deployment.users)).
  { refine (bool_decide_unpack _ _). vm_compute. exact I. }
  split; [exact Hreach | split; [exact Hids |]].
  exact (proj1 (proj2
           (deactivate_user_locks_out Deployment.decode_token
              TokenService.verify_password
              Deployment.create_access_token Deployment.create_refresh_token
              Builtins.int (Deployment.create_access_token 1) Deployment.users
              Deployment.reader 0%nat 3000 Hreach Hids eq_refl))).
Defined.

Lemma activate_user_restores_access_witness :
  Auth.reaches TokenService.SignedToken Deployment.decode_token Builtins.int
    (Deployment.create_access_token 1) Deployment.users Deployment.reader
  /\ exists u'',
       fst (Deployment.get_current_user (Deployment.create_access_token 1)
              (snd (Accounts.activate_user 0 3001
                      (snd (Accounts.deactivate_user 0 3000 Deployment.users)))))
       = Ok u''
       /\ Auth.is_active u'' = true
       /\ Auth.id u'' = 1.
Proof.
  assert (Hreach :
    Auth.reaches TokenService.SignedToken Deployment.decode_token Builtins.int
      (Deployment.create_access_token 1) Deployment.users Deployment.reader).
  { eexists _, (JInt 1), 1, 0%nat.
    split; [reflexivity | split; [reflexivity | split; [discriminate |]]].
    split; reflexivity. }
  assert (Hids : NoDup (map Auth.id Deployment.users)).
  { refine (bool_decide_unpack _ _). vm_compute. exact I. }
  split; [exact Hreach |].
  destruct (activate_user_restores_access Deployment.decode_token Builtins.int
              (Deployment.create_access_token 1) Deployment.users
              Deployment.reader 0%nat 3000 3001 Hreach Hids eq_refl)
    as (u'' & Hcur & _ & Hactive & Hid & _).
  exists u''. split; [exact (f_equal fst Hcur) | split; [exact Hactive | exact Hid]].
Defined.

Lemma moderator_flag_controls_gate_witness :
  Auth.reaches TokenService.SignedToken Deployment.decode_token Builtins.int
    (Deployment.create_access_token 1) Deployment.users Deployment.reader
  /\ Auth.is_active Deployment.reader = true
  /\ Forbidden
       (fst (Deployment.get_moderator_user (Deployment.create_access_token 1)
               Deployment.users))
  /\ exists u',
       fst (Deployment.get_moderator_user (Deployment.create_access_token 1)
              (snd (Accounts.promote_to_moderator 0 3000 Deployment.users)))
       = Ok u'
       /\ Auth.is_moderator u' = true.
Proof.
  assert (Hreach :
    Auth.reaches TokenService.SignedToken Deployment.decode_token Builtins.int
      (Deployment.create_access_token 1) Deployment.users Deployment.reader).
  { eexists _, (JInt 1), 1, 0%nat.
    split; [reflexivity | split; [reflexivity | split; [discriminate |]]].
    split; reflexivity. }
  assert (Hids : NoDup (map Auth.id Deployment.users)).
  { refine (bool_decide_unpack _ _). vm_compute. exact I. }
  split; [exact Hreach | split; [reflexivity | split; [eexists; reflexivity |]]].
  destruct (moderator_flag_controls_gate Deployment.decode_token Builtins.int
              (Deployment.create_access_token 1) Deployment.users
              Deployment.reader 0%nat 3000 Hreach Hids eq_refl eq_refl)
    as ((u' & Hgate & _ & Hmoderator & _) & _).
  exists u'. split; [exact (f_equal fst Hgate) | exact Hmoderator].
Defined.

Lemma update_user_password_then_login_witness :
  NoDup (map Auth.username Deployment.users)
  /\ Unauthorized (fst (Deployment.login "reader" "new-pw" 2000 2001 Deployment.users))
  /\ fst (Deployment.login "reader" "new-pw" 2000 2001
            (snd (Accounts.update_user_password TokenService.get_password_hash
                    0 "new-pw" 3000 Deployment.users)))
     = Ok {| Auth.access_token := Deployment.create_access_token 1;
             Auth.refresh_token_ := Deployment.create_refresh_token 1;
             Auth.token_type := "bearer" |}.
Proof.
  assert (Hnames : NoDup (map Auth.username Deployment.users)).
  { refine (bool_decide_unpack _ _). vm_compute. exact I. }
  split; [exact Hnames | split; [eexists; vm_compute; reflexivity |]].
  exact (proj1 (proj2
           (update_user_password_then_login TokenService.verify_password
              TokenService.get_password_hash
              Deployment.create_access_token Deployment.create_refresh_token
              Deployment.users Deployment.reader 0%nat "new-pw" 3000 2000 2001
              Hnames eq_refl eq_refl ltac:(vm_compute; reflexivity)))).
Defined.

(** ** Refreshing and authenticating *)

Lemma list_find_ext_in {A : Type} (P Q : A -> Prop)
  `{!forall x, Decision (P x)} `{!forall x, Decision (Q x)} (l : list A) :
  (forall x, x ∈ l -> (P x <-> Q x)) -> list_find P l = list_find Q l.
Proof.
  induction l as [|x l IH]; intros HPQ; [reflexivity |]. cbn.
  rewrite (decide_ext (P x) (Q x)) by (apply HPQ; left).
  rewrite IH; [reflexivity |]. intros y Hy. apply HPQ. now right.
Qed.

Section Sessions.
Context {Token : Type}.
Variable decode_token : Token -> result (gmap string json).
Variable verify_password : string -> string -> bool.
Variable create_access_token create_refresh_token : Z -> Token.
Variable int : json -> result Z.

Let refresh_token :=
  Auth.refresh_token Token decode_token create_access_token create_refresh_token int.
Let login := Auth.login Token verify_password create_access_token create_refresh_token.
Let authenticate_user := Auth.authenticate_user verify_password.

(** X26: the refresh endpoint never writes, and what it issues is for an
    active row: when it succeeds the token decoded to claims of type
    ["refresh"], the subject claim converts to the id of an active row of
    the table, and the access and the refresh token returned are both
    issued for that id. *)
Theorem refresh_token_outcome (token : Token) (db : Auth.Table) :
  snd (refresh_token token db) = db
  /\ forall pair, fst (refresh_token token db) = Ok pair ->
       exists payload n u,
         decode_token token = Ok payload
         /\ payload !! "type" = Some (JStr "refresh")
         /\ int (default JNull (payload !! "sub")) = Ok n
         /\ u ∈ db /\ Auth.id u = n /\ Auth.is_active u = true
         /\ pair = {| Auth.access_token := create_access_token n;
                      Auth.refresh_token_ := create_refresh_token n;
                      Auth.token_type := "bearer" |}.
Proof.
  unfold refresh_token, Auth.refresh_token, Auth.bind, Auth.lift.
  destruct (decode_token token) as [payload|e]; [| split; [reflexivity | discriminate]].
  destruct (is_str (payload !! "type") "refresh") eqn:Htype; cbn [negb];
    [| split; [reflexivity | discriminate]].
  assert (Ht : payload !! "type" = Some (JStr "refresh")).
  { destruct (payload !! "type") as [[ | | | |s| | ]|]; try discriminate.
    cbn in Htype. apply String.eqb_eq in Htype. now subst. }
  destruct (int (default JNull (payload !! "sub"))) as [n|e] eqn:Hint;
    [| split; [reflexivity | discriminate]].
  unfold Auth.query_first.
  destruct (list_find (fun u => (Auth.id u =? n) = true) db) as [[i u]|] eqn:Hfind;
    [| split; [reflexivity | discriminate]].
  apply list_find_Some in Hfind as (Hi & Hid & _). apply Z.eqb_eq in Hid.
  destruct (Auth.is_active u) eqn:Hactive; cbn [negb];
    [| split; [reflexivity | discriminate]].
  split; [reflexivity |]. cbn [fst Auth.ret]. intros pair Hpair.
  exists payload, n, u.
  split; [reflexivity | split; [exact Ht | split; [exact Hint |]]].
  split; [now apply list_elem_of_lookup_2 with i |].
  split; [exact Hid | split; [exact Hactive |]].
  unfold Auth.ret in Hpair. cbn in Hpair. rewrite Hid in Hpair. congruence.
Qed.

(** X27: [authenticate_user] never raises, and where no row has the given
    name as its e-mail it agrees with [login]: it returns a user exactly
    when [login] succeeds, [None] exactly when [login] answers
    Unauthorized, and it leaves the table that [login] leaves. *)
Theorem authenticate_user_agrees_with_login
  (username_ password : string) (utcnow db_now : Z) (db : Auth.Table) :
  (forall v, v ∈ db -> Auth.email v <> username_) ->
  snd (authenticate_user username_ password utcnow db_now db)
  = snd (login username_ password utcnow db_now db)
  /\ ((exists u, fst (authenticate_user username_ password utcnow db_now db)
                 = Ok (Some u)
                 /\ fst (login username_ password utcnow db_now db)
                    = Ok {| Auth.access_token := create_access_token (Auth.id u);
                            Auth.refresh_token_ := create_refresh_token (Auth.id u);
                            Auth.token_type := "bearer" |})
      \/ (fst (authenticate_user username_ password utcnow db_now db) = Ok None
          /\ Unauthorized (fst (login username_ password utcnow db_now db)))).
Proof.
  intros Hmail.
  unfold authenticate_user, login, Auth.authenticate_user, Auth.login, Auth.bind,
    Auth.get_user_by_username, Auth.query_first.
  rewrite (list_find_ext_in
             (fun u => String.eqb (Auth.username u) username_
                       || String.eqb (Auth.email u) username_ = true)
             (fun u => String.eqb (Auth.username u) username_ = true)).
  2:{ intros x Hx. specialize (Hmail x Hx). apply String.eqb_neq in Hmail.
      now rewrite Hmail, orb_false_r. }
  destruct (list_find (fun u => String.eqb (Auth.username u) username_ = true) db)
    as [[i u]|]; cbn [fst snd Auth.ret Auth.unauthorized Auth.raise].
  - destruct (verify_password password (Auth.hashed_password u)); cbn [negb].
    + destruct (Auth.is_active u); cbn.
      * split; [reflexivity |]. left. exists (Auth.touch_login utcnow db_now u).
        split; reflexivity.
      * split; [reflexivity |]. right. split; [reflexivity | eexists; reflexivity].
    + cbn. split; [reflexivity |]. right. split; [reflexivity | eexists; reflexivity].
  - cbn. split; [reflexivity |]. right. split; [reflexivity | eexists; reflexivity].
Qed.
End Sessions.

Lemma authenticate_user_agrees_with_login_witness :
  (forall v, v ∈ Deployment.users -> Auth.email v <> "chief")
  /\ exists u,
       fst (Deployment.authenticate_user "chief" "chief-pw" 2000 2001 Deployment.users)
       = Ok (Some u)
       /\ Auth.id u = 3.
Proof.
  assert (Hmail : forall v, v ∈ Deployment.users -> Auth.email v <> "chief").
  { intros v Hv.
    repeat (apply elem_of_cons in Hv as [-> | Hv]; [discriminate |]).
    inversion Hv. }
  split; [exact Hmail |].
  destruct (authenticate_user_agrees_with_login TokenService.verify_password
              Deployment.create_access_token Deployment.create_refresh_token
              "chief" "chief-pw" 2000 2001 Deployment.users Hmail)
    as (_ & [(u & Hu & _) | (Hnone & _)]).
  - exists u. split; [exact Hu |].
    vm_compute in Hu. injection Hu as Hu. now rewrite <- Hu.
  - exfalso. vm_compute in Hnone. discriminate Hnone.
Defined.

Lemma delete_user_outcome_witness :
  exists i,
    Accounts.delete_user TokenService.SignedToken Deployment.decode_token Builtins.int
      (Deployment.create_access_token 3) 1 Deployment.users
    = (Ok "User deleted successfully", delete i Deployment.users)
    /\ Deployment.users !! i = Some Deployment.reader
    /\ Deployment.chief ∈ delete i Deployment.users.
Proof.
  assert (Hids : NoDup (map Auth.id Deployment.users)).
  { refine (bool_decide_unpack _ _). vm_compute. exact I. }
  destruct (delete_user_outcome Deployment.decode_token Builtins.int
              (Deployment.create_access_token 3) 1 Deployment.users)
    as (_ & Hpassed & _).
  destruct (Hpassed Deployment.chief ltac:(vm_compute; reflexivity)) as (_ & Hrange).
  destruct (Hrange ltac:(vm_compute; reflexivity)) as (_ & _ & Hother).
  destruct (Hother ltac:(vm_compute; discriminate) Deployment.reader
              ltac:(left) ltac:(reflexivity))
    as (i & first & Hi & _ & _ & Hout & _ & Hkept & Hunique).
  destruct (Hunique Hids) as [-> _].
  exists i. split; [exact Hout | split; [exact Hi | exact Hkept]].
Defined.

Lemma create_moderator_outcome_witness :
  exists row,
    Accounts.create_moderator TokenService.SignedToken Deployment.decode_token
      TokenService.get_password_hash Builtins.int
      (Deployment.create_access_token 3) Samples.deputy 5 Deployment.users
    = (Ok row, (Deployment.users ++ [row])%list)
    /\ Auth.id row = 5
    /\ Auth.username row = "deputy"
    /\ Auth.is_moderator row = true
    /\ Auth.is_admin row = false.
Proof.
  destruct (create_moderator_outcome Deployment.decode_token
              TokenService.get_password_hash Builtins.int
              (Deployment.create_access_token 3) Samples.deputy 5 Deployment.users)
    as (_ & Hpassed & Hmoderator & Hadmin & _).
  destruct (Hpassed Deployment.chief ltac:(vm_compute; reflexivity))
    as (_ & _ & Hfree).
  eexists. split; [apply Hfree | split; [reflexivity | split; [reflexivity |]]].
  - intros v Hv.
    repeat (apply elem_of_cons in Hv as [-> | Hv]; [split; discriminate |]).
    inversion Hv.
  - split; [exact Hmoderator | exact Hadmin].
Defined.

Lemma get_user_outcome_witness :
  exists i,
    Accounts.get_user TokenService.SignedToken Deployment.decode_token Builtins.int
      (Deployment.create_access_token 2) 1 Deployment.users
    = (Ok Deployment.reader, Deployment.users)
    /\ Deployment.users !! i = Some Deployment.reader.
Proof.
  assert (Hids : NoDup (map Auth.id Deployment.users)).
  { refine (bool_decide_unpack _ _). vm_compute. exact I. }
  destruct (get_user_outcome Deployment.decode_token Builtins.int
              (Deployment.create_access_token 2) 1 Deployment.users)
    as (_ & _ & Hpassed & _).
  destruct (Hpassed Deployment.editor ltac:(vm_compute; reflexivity)) as (_ & Hrange).
  destruct (Hrange ltac:(vm_compute; reflexivity)) as (_ & Hfound).
  destruct (Hfound Deployment.reader ltac:(left) ltac:(reflexivity))
    as (i & u & Hout & Hi & _ & _ & Hunique).
  rewrite (Hunique Hids) in Hout, Hi.
  exists i. split; [exact Hout | exact Hi].
Defined.

Lemma username_availability_witness :
  fst (Accounts.is_username_available "reader" (Some (2 ^ 63)) Deployment.users)
  = Raise OverflowError
  /\ fst (Accounts.is_username_available "reader" (Some 1) Deployment.users) = Ok true
  /\ fst (Accounts.is_username_available "reader" (Some 2) Deployment.users) <> Ok true.
Proof.
  split; [| split].
  - destruct (username_availability "reader" (Some (2 ^ 63)) Deployment.users)
      as (_ & Hover & _).
    apply (Hover (2 ^ 63)); [reflexivity | discriminate | vm_compute; reflexivity].
  - destruct (username_availability "reader" (Some 1) Deployment.users)
      as (_ & _ & Hrange & _).
    destruct Hrange as (_ & Hiff).
    { intros x [= <-] _. vm_compute. reflexivity. }
    apply Hiff. intros v Hv Hname. exists 1.
    split; [reflexivity | split; [discriminate |]].
    repeat (apply elem_of_cons in Hv as [-> | Hv];
            [first [reflexivity | discriminate Hname] |]).
    inversion Hv.
  - destruct (username_availability "reader" (Some 2) Deployment.users)
      as (_ & _ & Hrange & _).
    destruct Hrange as (_ & Hiff).
    { intros x [= <-] _. vm_compute. reflexivity. }
    intros Hok.
    destruct (proj1 Hiff Hok Deployment.reader ltac:(left) ltac:(reflexivity))
      as (x & [= <-] & _ & Hid).
    discriminate Hid.
Defined.
